(** * Oscilloscope CSV viewer: the data handler ([data_handler.py])

    A shallow embedding of the class [DataHandler] and of the Python and
    pandas operations it calls, followed by the properties of the loader,
    the validator, the statistics and the export.

    Conventions of the embedding.
    - A Python [str] is a [string] whose characters are the code points
      below 256; whitespace is what [str.isspace] accepts among them.
    - A Python exception is a class tag with its message ([exn]); a call
      either returns or raises ([result]).
    - A [float] is an IEEE binary64 number (Rocq's primitive floats), and
      pandas' missing marker is the float NaN.
    - The disk is a finite map from paths to files ([gmap string file]).
    - The methods of [DataHandler] run in a state-and-exception monad over
      the handler's two attributes and the disk.
    - The Python builtins ([strip], [split], [float], [repr]) and the
      pandas calls ([read_csv], [to_numeric], [to_csv], the reductions of a
      Series) are models of library code, each with its scope stated where
      it is defined; the methods of [DataHandler] are translated from
      their source line by line.
    - The percentage of missing cells is computed on exact rationals. The
      source computes it in binary64, which agrees on the comparison with
      50 for every table of fewer than 2^53 cells. *)

From stdpp Require Import base option list strings gmap pretty.
From Stdlib Require Import ZArith QArith Ascii String List Lia Sorted.
From Stdlib Require Import Floats.PrimFloat Floats.SpecFloat Floats.FloatOps
  Floats.FloatAxioms.
Import ListNotations.

Local Open Scope string_scope.
Local Open Scope list_scope.

Notation float64 := PrimFloat.float (only parsing).

(** ** Python values and builtins *)

Module Py.

(** The exception classes that reach [DataHandler]'s callers. All of them
    are subclasses of Python's [Exception]. *)
Inductive exn_class :=
| Exception
| FileNotFoundError
| PermissionError
| UnicodeDecodeError
| TypeError
| KeyError
| IndexError
| EmptyDataError
| ParserError.

Inductive exn := Exn (cls : exn_class) (msg : string).

(** [type(e)]. An exception carries its one argument: the message, or for
    a [KeyError] the key. *)
Definition cls_of (e : exn) : exn_class := let 'Exn c _ := e in c.

Inductive result (A : Type) :=
| Ok (a : A)
| Raise (e : exn).
Arguments Ok {A} a.
Arguments Raise {A} e.

Definition is_raise {A} (r : result A) : bool :=
  match r with Raise _ => true | Ok _ => false end.

(** *** [str.strip], [str.split], [str.join] *)

Definition is_space (c : ascii) : bool :=
  let n := nat_of_ascii c in
  ((9 <=? n) && (n <=? 13) || (28 <=? n) && (n <=? 32)
   || (n =? 133) || (n =? 160))%nat.

Fixpoint lstrip (s : string) : string :=
  match s with
  | String c r => if is_space c then lstrip r else s
  | EmptyString => EmptyString
  end.

Fixpoint rstrip (s : string) : string :=
  match s with
  | EmptyString => EmptyString
  | String c r =>
      match rstrip r with
      | EmptyString => if is_space c then EmptyString else String c EmptyString
      | r' => String c r'
      end
  end.

Definition strip (s : string) : string := rstrip (lstrip s).

(** [s.split(sep)] for a one-character separator: never empty. *)
Fixpoint split (sep : ascii) (s : string) : list string :=
  match s with
  | EmptyString => [EmptyString]
  | String c r =>
      if Ascii.eqb c sep then EmptyString :: split sep r
      else match split sep r with
           | f :: fs => String c f :: fs
           | [] => [String c EmptyString]
           end
  end.

Definition join (sep : string) (l : list string) : string :=
  String.concat sep l.

Definition comma : ascii := ","%char.

Fixpoint contains (c : ascii) (s : string) : bool :=
  match s with
  | EmptyString => false
  | String d r => Ascii.eqb d c || contains c r
  end.

(** *** [repr(s)] for a string, and [str(e)]

    The string between single quotes, or between double quotes when it
    holds a single quote and no double one. The backslash and the quote in
    use are escaped with a backslash; tab, line feed and carriage return
    are written as a backslash and [t], [n] or [r]; any other character
    that is not printable is written as a backslash, [x] and two
    hexadecimal digits. *)

Definition printable (c : ascii) : bool :=
  let n := nat_of_ascii c in
  ((32 <=? n) && (n <=? 126) || (161 <=? n) && negb (n =? 173))%nat.

Definition hex_digit (n : nat) : ascii :=
  nth n ["0"; "1"; "2"; "3"; "4"; "5"; "6"; "7"; "8"; "9";
         "a"; "b"; "c"; "d"; "e"; "f"]%char "0"%char.

Definition backslash : ascii := ascii_of_nat 92.

Definition escape_char (q c : ascii) : string :=
  let n := nat_of_ascii c in
  if Ascii.eqb c q || Ascii.eqb c backslash
  then String backslash (String c EmptyString)
  else if (n =? 9)%nat then String backslash "t"
  else if (n =? 10)%nat then String backslash "n"
  else if (n =? 13)%nat then String backslash "r"
  else if printable c then String c EmptyString
  else String backslash
         (String "x" (String (hex_digit (n / 16))
                        (String (hex_digit (n mod 16)) EmptyString))).

Fixpoint repr_body (q : ascii) (s : string) : string :=
  match s with
  | EmptyString => EmptyString
  | String c r => (escape_char q c ++ repr_body q r)%string
  end.

Definition repr_str (s : string) : string :=
  let q := if contains "'" s && negb (contains (ascii_of_nat 34) s)
           then ascii_of_nat 34 else "'"%char in
  String q (repr_body q s ++ String q EmptyString)%string.

(** [str(e)]: the message, and for a [KeyError] the [repr] of the key. *)
Definition str (e : exn) : string :=
  match e with
  | Exn KeyError k => repr_str k
  | Exn _ m => m
  end.

(** *** [float(s)]

    The grammar of Python's [float] constructor: surrounding whitespace,
    an optional sign, then [inf], [infinity] or [nan] in any letter case,
    or a decimal number whose digit groups may be separated by single
    underscores, with an optional exponent. The value is the binary64
    number nearest to the decimal (ties to even). *)

Definition is_digit (c : ascii) : bool :=
  let n := nat_of_ascii c in ((48 <=? n) && (n <=? 57))%nat.

Definition digit_val (c : ascii) : Z := Z.of_nat (nat_of_ascii c) - 48.

Definition lower (c : ascii) : ascii :=
  let n := nat_of_ascii c in
  if ((65 <=? n) && (n <=? 90))%nat then ascii_of_nat (n + 32) else c.

Fixpoint lowercase (s : string) : string :=
  match s with
  | EmptyString => EmptyString
  | String c r => String (lower c) (lowercase r)
  end.

(** digitpart ::= digit (["_"] digit)*; the digits, most significant first. *)
Fixpoint digit_run (after_digit : bool) (s : string) : option (list Z) :=
  match s with
  | EmptyString => if after_digit then Some [] else None
  | String c r =>
      if is_digit c then
        match digit_run true r with
        | Some ds => Some (digit_val c :: ds)
        | None => None
        end
      else if Ascii.eqb c "_" && after_digit then digit_run false r
      else None
  end.

Definition digitpart (s : string) : option (list Z) := digit_run false s.

Definition Z_of_digits (ds : list Z) : Z :=
  fold_left (fun acc d => 10 * acc + d)%Z ds 0%Z.

(** Splits at the first character satisfying [p]. *)
Fixpoint break (p : ascii -> bool) (s : string) : string * option string :=
  match s with
  | EmptyString => (EmptyString, None)
  | String c r =>
      if p c then (EmptyString, Some r)
      else let '(a, b) := break p r in (String c a, b)
  end.

Definition take_sign (s : string) : bool * string :=
  match s with
  | String "-" r => (true, r)
  | String "+" r => (false, r)
  | _ => (false, s)
  end.

(** A decimal literal [mant * 10 ^ exp10], before rounding. *)
Record decimal := { d_neg : bool; d_mant : Z; d_exp : Z }.

Definition parse_exponent (s : option string) : option Z :=
  match s with
  | None => Some 0%Z
  | Some t =>
      let '(neg, t) := take_sign t in
      match digitpart t with
      | Some ds => Some (if neg then - Z_of_digits ds else Z_of_digits ds)%Z
      | None => None
      end
  end.

Definition parse_mantissa (s : string) : option (list Z * list Z) :=
  let '(ip, rest) := break (Ascii.eqb ".") s in
  match rest with
  | None =>
      match digitpart ip with Some i => Some (i, []) | None => None end
  | Some fp =>
      match ip, fp with
      | EmptyString, EmptyString => None
      | EmptyString, _ =>
          match digitpart fp with Some f => Some ([], f) | None => None end
      | _, EmptyString =>
          match digitpart ip with Some i => Some (i, []) | None => None end
      | _, _ =>
          match digitpart ip, digitpart fp with
          | Some i, Some f => Some (i, f)
          | _, _ => None
          end
      end
  end.

Definition parse_decimal (neg : bool) (s : string) : option decimal :=
  let '(m, e) := break (fun c => Ascii.eqb (lower c) "e") s in
  match parse_mantissa m, parse_exponent e with
  | Some (i, f), Some x =>
      Some {| d_neg := neg;
              d_mant := Z_of_digits (i ++ f);
              d_exp := (x - Z.of_nat (length f))%Z |}
  | _, _ => None
  end.

(** The number of decimal digits of a positive integer, within one, from
    its bit length (0 for 0). *)
Definition ndigits (m : Z) : Z :=
  if (m <=? 0)%Z then 0%Z else (Z.log2 m * 30103 / 100000 + 1)%Z.

(** The binary64 number nearest to [mant * 10 ^ exp10]. A negative
    exponent is a quotient: it is computed with 64 guard bits and a
    sticky bit, which rounds as the exact quotient does. *)
Definition round_decimal (d : decimal) : float64 :=
  let m := d_mant d in
  let e := d_exp d in
  let sgn (x : float64) := if d_neg d then PrimFloat.opp x else x in
  if (m =? 0)%Z then sgn zero
  else if (400 <? ndigits m + e)%Z then sgn infinity
  else if (ndigits m + e <? -400)%Z then sgn zero
  else if (0 <=? e)%Z then
    sgn (SF2Prim (binary_normalize prec emax (m * 10 ^ e) 0 false))
  else
    let den := (10 ^ (- e))%Z in
    let s := Z.max 0 (Z.log2 den - Z.log2 m + 66) in
    let num := Z.shiftl m s in
    let q := (num / den)%Z in
    let sticky := if (num mod den =? 0)%Z then 0%Z else 1%Z in
    sgn (SF2Prim (binary_normalize prec emax (2 * q + sticky) (- s - 1) false)).

Definition float (s : string) : option float64 :=
  let '(neg, body) := take_sign (strip s) in
  let low := lowercase body in
  if String.eqb low "inf" || String.eqb low "infinity" then
    Some (if neg then neg_infinity else infinity)
  else if String.eqb low "nan" then Some nan
  else option_map round_decimal (parse_decimal neg body).

(** *** [repr(x)] for a float

    The shortest decimal that reads back as [x]: the first precision, from
    1 to 17 significant digits, at which the correctly rounded decimal
    passes through [float] unchanged. It is laid out as Python does: plain
    notation while the decimal point falls within the first sixteen
    digits and after at most four leading zeros, exponent notation
    otherwise. *)

Definition round_half_even (n d : Z) : Z :=
  let q := (n / d)%Z in
  let r := (n mod d)%Z in
  if (2 * r <? d)%Z then q
  else if (d <? 2 * r)%Z then (q + 1)%Z
  else if Z.even q then q else (q + 1)%Z.

(** [n / d * 10 ^ k] as a fraction. *)
Definition scale10 (n d k : Z) : Z * Z :=
  if (0 <=? k)%Z then (n * 10 ^ k, d)%Z else (n, d * 10 ^ (- k))%Z.

(** The [k] with [10 ^ (k - 1) <= n / d < 10 ^ k], searched around an
    estimate from the bit lengths. *)
Fixpoint adjust_exponent (fuel : nat) (n d k : Z) : Z :=
  match fuel with
  | O => k
  | S fuel' =>
      let '(a, b) := scale10 n d (- k) in
      if (b <=? a)%Z then adjust_exponent fuel' n d (k + 1)
      else
        let '(a', b') := scale10 n d (1 - k) in
        if (a' <? b')%Z then adjust_exponent fuel' n d (k - 1) else k
  end.

Definition decimal_exponent (n d : Z) : Z :=
  adjust_exponent 8 n d (ndigits n - ndigits d).

(** The magnitude of a finite nonzero float as a fraction. *)
Definition magnitude (x : float64) : option (Z * Z) :=
  match Prim2SF x with
  | S754_finite _ m e =>
      Some (if (0 <=? e)%Z then (Zpos m * 2 ^ e, 1)%Z
            else (Zpos m, 2 ^ (- e))%Z)
  | _ => None
  end.

(** [p] significant digits of [n / d] and the position of the point. *)
Definition to_precision (n d : Z) (p : Z) : Z * Z :=
  let k := decimal_exponent n d in
  let '(a, b) := scale10 n d (p - k) in
  let D := round_half_even a b in
  if (D =? 10 ^ p)%Z then (10 ^ (p - 1), k + 1)%Z else (D, k).

Fixpoint shortest (fuel : nat) (p : Z) (x : float64) (n d : Z) : Z * Z :=
  let '(D, k) := to_precision n d p in
  match fuel with
  | O => (D, k)
  | S fuel' =>
      if PrimFloat.eqb
           (round_decimal {| d_neg := false; d_mant := D; d_exp := k - p |})
           (PrimFloat.abs x)
      then (D, k)
      else shortest fuel' (p + 1)%Z x n d
  end.

Fixpoint zeros (n : nat) : string :=
  match n with O => EmptyString | S n' => String "0" (zeros n') end.

Definition substring_from (n : nat) (s : string) : string :=
  String.substring n (String.length s - n) s.

Definition layout (digits : string) (decpt : Z) : string :=
  let p := Z.of_nat (String.length digits) in
  if ((-4 <? decpt) && (decpt <=? 16))%Z then
    if (decpt <=? 0)%Z then "0." ++ zeros (Z.to_nat (- decpt)) ++ digits
    else if (p <=? decpt)%Z then
      digits ++ zeros (Z.to_nat (decpt - p)) ++ ".0"
    else String.substring 0 (Z.to_nat decpt) digits ++ "."
         ++ substring_from (Z.to_nat decpt) digits
  else
    let e := (decpt - 1)%Z in
    let mant :=
      match digits with
      | String c EmptyString => String c EmptyString
      | String c r => String c ("." ++ r)
      | EmptyString => EmptyString
      end in
    let ex := pretty (Z.abs e) in
    mant ++ "e" ++ (if (e <? 0)%Z then "-" else "+")
         ++ (if (Z.abs e <? 10)%Z then "0" ++ ex else ex).

Definition repr (x : float64) : string :=
  if PrimFloat.is_nan x then "nan"
  else
    let sign := if PrimFloat.get_sign x then "-" else "" in
    match magnitude x with
    | None => sign ++ (if PrimFloat.is_infinity x then "inf" else "0.0")
    | Some (n, d) =>
        let '(D, k) := shortest 16 1 x n d in
        sign ++ layout (pretty D) k
    end.

End Py.

(** ** The disk *)

(** A file opened for reading is what iterating over it gives: the [lines]
    it yields (without their terminators) and then, when [fault] is set,
    the exception it raises instead of a further line. A file that cannot
    be opened, or whose first block of bytes does not decode, has no lines
    and a fault: Python decodes a block of bytes at a time, so the lines
    yielded before a fault are those of the blocks before the one that
    fails, not all the lines before the bad bytes. *)
Record file := File { lines : list string; fault : option Py.exn }.

Notation disk := (gmap string file) (only parsing).

Definition text (ls : list string) : file := File ls None.

(** [open(path, 'r')]. *)
Definition open_read (d : disk) (path : string) : Py.result file :=
  match d !! path with
  | Some f => Py.Ok f
  | None =>
      Py.Raise (Py.Exn Py.FileNotFoundError
                  ("[Errno 2] No such file or directory: "
                     ++ Py.repr_str path))
  end.

(** ** pandas *)

Module Pd.
Import Py.

(** A cell holds text (an [object] column as parsed) or a float; the
    missing marker is the float NaN. *)
Inductive value :=
| VStr (s : string)
| VNum (x : float64).

Definition NaN : value := VNum nan.

(** A frame is its column labels and its rows, every row as wide as the
    labels. The index is the default one and is not represented. *)
Record DataFrame := { columns : list string; rows : list (list value) }.

(** [len(df)] *)
Definition len (df : DataFrame) : nat := length (rows df).

(** The values of the column at position [j]. *)
Definition iloc_col (df : DataFrame) (j : nat) : list value :=
  map (fun r => nth j r NaN) (rows df).

Definition isna (v : value) : bool :=
  match v with
  | VNum x => PrimFloat.is_nan x
  | VStr _ => false
  end.

(** [df.isna().sum()]: the count of missing cells of every column. *)
Definition isna_sum (df : DataFrame) : list nat :=
  map (fun j => length (filter isna (iloc_col df j)))
      (seq 0 (length (columns df))).

Definition sum (l : list nat) : nat := fold_right Nat.add 0%nat l.

(** [s.dropna()] *)
Definition dropna (s : list value) : list value :=
  filter (fun v => negb (isna v)) s.

(** The positions of the columns labelled [col]. *)
Fixpoint positions_from (j : nat) (cols : list string) (col : string)
  : list nat :=
  match cols with
  | [] => []
  | c :: r =>
      if String.eqb c col then j :: positions_from (S j) r col
      else positions_from (S j) r col
  end.

Definition positions (df : DataFrame) (col : string) : list nat :=
  positions_from 0 (columns df) col.

(** The frame of the columns at the positions [js], in that order. *)
Definition take (df : DataFrame) (js : list nat) : DataFrame :=
  {| columns := map (fun j => nth j (columns df) EmptyString) js;
     rows := map (fun r => map (fun j => nth j r NaN) js) (rows df) |}.

(** [df[col]] gives a Series when the label is unique and the frame of
    all the columns so labelled when it is repeated. *)
Inductive selection :=
| Series (vals : list value)
| Frame (sub : DataFrame).

Definition getitem (df : DataFrame) (col : string) : result selection :=
  match positions df col with
  | [] => Raise (Exn KeyError col)
  | [j] => Ok (Series (iloc_col df j))
  | js => Ok (Frame (take df js))
  end.

(** [df[col] = s] for a label that is unique in [df]. *)
Definition setitem (df : DataFrame) (col : string) (s : list value)
  : DataFrame :=
  match positions df col with
  | [j] =>
      {| columns := columns df;
         rows := zip_with (fun r v => <[j := v]> r) (rows df) s |}
  | _ => df
  end.

(** [df[labels]] for a list of labels: every column so labelled, in the
    order of the request; a label that is no column raises [KeyError].
    Its argument is kept to the first missing label; pandas makes a
    sentence of all the missing ones, and only the class is used below. *)
Fixpoint label_positions (df : DataFrame) (labels : list string)
  : result (list nat) :=
  match labels with
  | [] => Ok []
  | l :: r =>
      match positions df l with
      | [] => Raise (Exn KeyError l)
      | js =>
          match label_positions df r with
          | Ok ks => Ok (js ++ ks)
          | Raise e => Raise e
          end
      end
  end.

Definition getitem_list (df : DataFrame) (labels : list string)
  : result DataFrame :=
  match label_positions df labels with
  | Ok js => Ok (take df js)
  | Raise e => Raise e
  end.

(** The text pandas reads as a number. pandas has its own reader of
    decimal literals: it accepts no digit separator and skips no
    whitespace but ASCII's, and otherwise reads what [float] reads, with
    the same value for the literals of up to 15 significant digits and a
    decimal exponent of at most 22 in magnitude that instruments write. *)
Definition ajeno (c : ascii) : bool :=
  let n := nat_of_ascii c in
  Ascii.eqb c "_"
  || ((28 <=? n) && (n <=? 31) || (n =? 133) || (n =? 160))%nat.

Fixpoint alguno (p : ascii -> bool) (s : string) : bool :=
  match s with
  | EmptyString => false
  | String c r => p c || alguno p r
  end.

Definition to_double (s : string) : option float64 :=
  if alguno ajeno s then None else Py.float s.

(** [pd.to_numeric(arg, errors='coerce')]: text that is no number becomes
    NaN; anything but a one-dimensional argument is refused. *)
Definition coerce (v : value) : value :=
  match v with
  | VNum x => VNum x
  | VStr s => VNum (default nan (to_double s))
  end.

Definition to_numeric (arg : selection) : result (list value) :=
  match arg with
  | Series vals => Ok (map coerce vals)
  | Frame _ =>
      Raise (Exn TypeError "arg must be a list, tuple, 1-d array, or Series")
  end.

(** [df.columns.str.strip()] *)
Definition str_strip (cols : list string) : list string := map strip cols.

(** *** [pd.read_csv(path, skiprows=n, header=0, delimiter=',',
        engine='python')]

    The whole file is read. The first [n] lines are dropped, then the
    blank ones; the first record left gives the labels (an empty label
    becomes [Unnamed: i], a repeated one gets a numeric suffix), the
    others the rows. A row shorter than the labels is padded with NaN; a
    first row longer than the labels makes its leading fields an index,
    which is dropped from every row; any other long row is refused. An
    empty field is NaN, any other field is kept as text for [to_numeric].

    The model is that of the files an instrument writes: fields without
    quotes, columns of decimal numbers, possibly with cells that are no
    number. Fields are cut at commas, so a quoted field is outside the
    model; and every number is a float, where pandas keeps a column of
    integer literals as integers and a column of [True] and [False] as
    booleans, which [to_numeric] leaves as they are. A repeated label
    gets the suffix pandas gives it when no other label already has that
    name. *)

Definition is_blank (r : list string) : bool :=
  match r with
  | [] => true
  | [f] => String.eqb (strip f) EmptyString
  | _ => false
  end.

(** The records from line [i] on, with their line numbers. *)
Fixpoint records_from (i : nat) (ls : list string)
  : list (nat * list string) :=
  match ls with
  | [] => []
  | l :: r =>
      let f := split comma l in
      if is_blank f then records_from (S i) r
      else (i, f) :: records_from (S i) r
  end.

Definition records (n : nat) (ls : list string) : list (nat * list string) :=
  records_from (S n) (drop n ls).

Fixpoint unnamed_from (i : nat) (header : list string) : list string :=
  match header with
  | [] => []
  | c :: r =>
      (if String.eqb c EmptyString then ("Unnamed: " ++ pretty i)%string
       else c) :: unnamed_from (S i) r
  end.

Definition unnamed (header : list string) : list string :=
  unnamed_from 0 header.

Fixpoint mangle (seen : list string) (names : list string) : list string :=
  match names with
  | [] => []
  | c :: r =>
      let k := length (filter (String.eqb c) seen) in
      (if (k =? 0)%nat then c else (c ++ "." ++ pretty k)%string)
        :: mangle (c :: seen) r
  end.

Definition cell (f : string) : value :=
  if String.eqb f EmptyString then NaN else VStr f.

Definition fit (width index : nat) (r : nat * list string)
  : result (list value) :=
  let fields := drop index (snd r) in
  if (width <? length fields)%nat then
    Raise (Exn ParserError
             ("Expected " ++ pretty (width + index)%nat ++ " fields in line "
                ++ pretty (fst r) ++ ", saw " ++ pretty (length (snd r)))%string)
  else Ok (map cell fields ++ repeat NaN (width - length fields)).

Fixpoint fit_all (width index : nat) (rs : list (nat * list string))
  : result (list (list value)) :=
  match rs with
  | [] => Ok []
  | r :: rest =>
      match fit width index r with
      | Raise e => Raise e
      | Ok v =>
          match fit_all width index rest with
          | Raise e => Raise e
          | Ok vs => Ok (v :: vs)
          end
      end
  end.

Definition read_csv (d : disk) (path : string) (skiprows : Z)
  : result DataFrame :=
  match open_read d path with
  | Raise e => Raise e
  | Ok f =>
      match fault f with
      | Some e => Raise e
      | None =>
          match records (Z.to_nat skiprows) (lines f) with
          | [] => Raise (Exn EmptyDataError "No columns to parse from file")
          | header :: body =>
              let width := length (snd header) in
              let index :=
                match body with
                | r0 :: _ => (length (snd r0) - width)%nat
                | [] => 0%nat
                end in
              match fit_all width index body with
              | Raise e => Raise e
              | Ok rs =>
                  Ok {| columns := mangle [] (unnamed (snd header));
                        rows := rs |}
              end
          end
      end
  end.

(** *** [df.to_csv(path, index=False)]

    A header line and one line per row, fields joined by commas. NaN is
    written as the empty field and a float as its [repr]; a field with a
    comma, a quote or a line break is quoted, and so is a line that would
    otherwise be empty. *)

Definition dquote : ascii := ascii_of_nat 34.

Fixpoint escape (s : string) : string :=
  match s with
  | EmptyString => EmptyString
  | String c r =>
      if Ascii.eqb c dquote then String c (String c (escape r))
      else String c (escape r)
  end.

Definition needs_quote (s : string) : bool :=
  contains comma s || contains dquote s
  || contains (ascii_of_nat 10) s || contains (ascii_of_nat 13) s.

Definition quote (s : string) : string :=
  if needs_quote s
  then String dquote (escape s ++ String dquote EmptyString)%string
  else s.

Definition field (v : value) : string :=
  match v with
  | VStr s => quote s
  | VNum x => if PrimFloat.is_nan x then EmptyString else Py.repr x
  end.

Definition csv_line (fields : list string) : string :=
  match fields with
  | [EmptyString] => String dquote (String dquote EmptyString)
  | _ => join "," fields
  end.

Definition to_csv (df : DataFrame) : file :=
  text (csv_line (map quote (columns df))
          :: map (fun r => csv_line (map field r)) (rows df)).

(** *** Reductions of a float Series without missing values *)

Definition of_nat (n : nat) : float64 :=
  SF2Prim (binary_normalize prec emax (Z.of_nat n) 0 false).

(** The sum adds from left to right. numpy adds long arrays in blocks;
    the float is the same whenever the partial sums are exact, as on
    small integers, and may differ in its last bit otherwise. *)
Definition fsum (l : list float64) : float64 :=
  fold_left PrimFloat.add l zero.

Definition s_min (l : list float64) : float64 :=
  match l with
  | [] => nan
  | x :: r => fold_left (fun a b => if PrimFloat.ltb b a then b else a) r x
  end.

Definition s_max (l : list float64) : float64 :=
  match l with
  | [] => nan
  | x :: r => fold_left (fun a b => if PrimFloat.ltb a b then b else a) r x
  end.

Definition s_mean (l : list float64) : float64 :=
  PrimFloat.div (fsum l) (of_nat (length l)).

(** The sample standard deviation (one degree of freedom removed). *)
Definition s_std (l : list float64) : float64 :=
  match l with
  | [] | [_] => nan
  | _ =>
      let m := s_mean l in
      let sq := map (fun x => PrimFloat.mul (PrimFloat.sub x m)
                                            (PrimFloat.sub x m)) l in
      PrimFloat.sqrt (PrimFloat.div (fsum sq) (of_nat (length l - 1)))
  end.

Fixpoint insert_sorted (x : float64) (l : list float64) : list float64 :=
  match l with
  | [] => [x]
  | y :: r => if PrimFloat.leb x y then x :: l else y :: insert_sorted x r
  end.

Definition sort (l : list float64) : list float64 :=
  fold_right insert_sorted [] l.

Definition s_median (l : list float64) : float64 :=
  let s := sort l in
  let n := length s in
  if (n =? 0)%nat then nan
  else if Nat.odd n then nth (n / 2) s nan
  else PrimFloat.div
         (PrimFloat.add (nth (n / 2 - 1) s nan) (nth (n / 2) s nan))
         (of_nat 2).

(** The floats of a Series, when it holds nothing else. *)
Fixpoint floats (s : list value) : option (list float64) :=
  match s with
  | [] => Some []
  | VNum x :: r =>
      match floats r with Some xs => Some (x :: xs) | None => None end
  | VStr _ :: _ => None
  end.

End Pd.

(** ** The class [DataHandler] *)

Import Py Pd.

(** The attributes set by [__init__]: both start as [None]. *)
Record DataHandler := {
  df : option DataFrame;
  archivo_actual : option string
}.

Definition __init__ : DataHandler := {| df := None; archivo_actual := None |}.

(** A method runs on the handler and the disk, and returns or raises. What
    it did to either before raising stays done. *)
Record state := { self : DataHandler; fs : disk }.

Definition M (A : Type) : Type := state -> result A * state.

Definition ret {A} (a : A) : M A := fun st => (Ok a, st).

Definition raise {A} (e : exn) : M A := fun st => (Raise e, st).

Definition bind {A B} (m : M A) (k : A -> M B) : M B :=
  fun st =>
    match m st with
    | (Ok a, st') => k a st'
    | (Raise e, st') => (Raise e, st')
    end.

(** [try: m except Exception as e: h e] *)
Definition try_except {A} (m : M A) (h : exn -> M A) : M A :=
  fun st =>
    match m st with
    | (Ok a, st') => (Ok a, st')
    | (Raise e, st') => h e st'
    end.

Definition lift {A} (r : result A) : M A := fun st => (r, st).

Declare Scope py_scope.
Delimit Scope py_scope with py.
Notation "'let*' x ':=' m 'in' k" := (bind m (fun x => k))
  (at level 10, x name, m at level 100, k at level 200) : py_scope.
Notation "'do' m 'in' k" := (bind m (fun _ => k))
  (at level 10, m at level 100, k at level 200) : py_scope.
Local Open Scope py_scope.

Definition get_df : M (option DataFrame) := fun st => (Ok (df (self st)), st).

Definition set_df (d : DataFrame) : M unit :=
  fun st =>
    (Ok tt, {| self := {| df := Some d;
                          archivo_actual := archivo_actual (self st) |};
               fs := fs st |}).

Definition set_archivo_actual (ruta : string) : M unit :=
  fun st =>
    (Ok tt, {| self := {| df := df (self st); archivo_actual := Some ruta |};
               fs := fs st |}).

Definition get_fs : M disk := fun st => (Ok (fs st), st).

(** [open(ruta, 'w')] and the writing: the disk takes any path. *)
Definition write (ruta : string) (f : file) : M unit :=
  fun st => (Ok tt, {| self := self st; fs := <[ruta := f]> (fs st) |}).

(** *** [detectar_lineas_encabezado] *)

(** The body of the [for i, linea in enumerate(f)] loop from line [i] on:
    [Some n] when it returns [n], [None] when the lines run out. *)
Fixpoint buscar_datos (i : Z) (f : list string) : option Z :=
  match f with
  | [] => None
  | linea :: resto =>
      let linea := strip linea in
      if String.eqb linea EmptyString then buscar_datos (i + 1) resto
      else
        let primera_parte := strip (hd EmptyString (split comma linea)) in
        match Py.float primera_parte with
        | Some _ => Some (Z.max 0 (i - 1))
        | None => buscar_datos (i + 1) resto
        end
  end.

Definition detectar_lineas_encabezado (ruta_archivo : string) : M Z :=
  let* d := get_fs in
  let* f := lift (open_read d ruta_archivo) in
  match buscar_datos 0 (lines f) with
  | Some n => ret n
  | None =>
      match fault f with
      | Some e => raise e
      | None => ret 1%Z
      end
  end.

(** *** [convertir_a_numerico]

    The frame passed in is the object [self.df] refers to, and every
    [df[col] = ...] updates it in place: the handler sees the columns
    converted so far even when a later one raises. *)
Fixpoint convertir_columnas (cols : list string) (d : DataFrame)
  : M DataFrame :=
  match cols with
  | [] => ret d
  | col :: resto =>
      let* s := lift (getitem d col) in
      let* v := lift (to_numeric s) in
      let d' := setitem d col v in
      do set_df d' in
      convertir_columnas resto d'
  end.

Definition convertir_a_numerico (d : DataFrame) : M DataFrame :=
  convertir_columnas (columns d) d.

(** *** [validar_datos] *)

(** [a / b] on counts. numpy gives NaN for 0 / 0 rather than raising: [None]
    stands for it, and [NaN > 50] is false. The quotient and the percentage
    are exact rationals. *)
Definition truediv (a b : Z) : option Q :=
  if (b =? 0)%Z then None else Some (inject_Z a / inject_Z b)%Q.

Definition porcentaje_nan (d : DataFrame) : option Q :=
  option_map (fun q => q * 100)%Q
    (truediv (Z.of_nat (sum (isna_sum d)))
             (Z.of_nat (len d * length (columns d)))).

(** [f"{p:.1f}"] for a percentage [p >= 0]: one decimal, the nearest to
    [p], ties to even. Python formats the binary64 product, which is the
    exact percentage to within its last bit: the decimal printed is the
    one given here, except that where the exact percentage lies midway
    between two decimals it may be the other one. *)
Definition format_1f (p : Q) : string :=
  let t := round_half_even (10 * Qnum p) (Zpos (Qden p)) in
  (pretty (t / 10)%Z ++ "." ++ pretty (t mod 10)%Z)%string.

Definition Qgtb (p q : Q) : bool := negb (Qle_bool p q).

Definition validar_datos : M unit :=
  let* o := get_df in
  match o with
  | None => raise (Exn Exception "No hay datos cargados")
  | Some d =>
      if (length (columns d) <? 2)%nat then
        raise (Exn Exception
                 "El archivo debe tener al menos 2 columnas (tiempo y 1 canal)")
      else if (len d =? 0)%nat then
        raise (Exn Exception "El archivo no contiene datos")
      else
        match porcentaje_nan d with
        | Some p =>
            if Qgtb p 50 then
              raise (Exn Exception
                       ("El archivo tiene demasiados valores inválidos ("
                          ++ format_1f p ++ "%)")%string)
            else ret tt
        | None => ret tt
        end
  end.

(** *** [cargar_csv] *)

Definition cargar_csv (ruta_archivo : string) : M DataFrame :=
  do set_archivo_actual ruta_archivo in
  let* skiprows := detectar_lineas_encabezado ruta_archivo in
  try_except
    (let* d := get_fs in
     let* t := lift (read_csv d ruta_archivo skiprows) in
     do set_df t in
     let t := {| columns := str_strip (columns t); rows := rows t |} in
     do set_df t in
     let* t := convertir_a_numerico t in
     do set_df t in
     do validar_datos in
     ret t)
    (fun e =>
       raise (Exn Exception ("Error al cargar el archivo: " ++ str e)%string)).

(** *** [obtener_estadisticas] *)

(** The dictionary returned: its values are floats for a Series, and one
    float per column when the label is repeated and [self.df[columna]] is
    a frame. *)
Record estadisticas (A : Type) := {
  minimo : A;
  maximo : A;
  promedio : A;
  std : A;
  mediana : A;
  vpp : A
}.
Arguments minimo {A} _.
Arguments maximo {A} _.
Arguments promedio {A} _.
Arguments std {A} _.
Arguments mediana {A} _.
Arguments vpp {A} _.

Inductive resumen :=
| Escalar (e : estadisticas float64)
| PorColumna (e : estadisticas (list float64)).

(** The six reductions on the floats of a Series. They are numeric: a
    Series that still holds text makes the mean raise [TypeError]. *)
Definition reducir (datos : list float64) : estadisticas float64 :=
  {| minimo := s_min datos;
     maximo := s_max datos;
     promedio := s_mean datos;
     std := s_std datos;
     mediana := s_median datos;
     vpp := PrimFloat.sub (s_max datos) (s_min datos) |}.

Definition numericos (datos : list value) : result (list float64) :=
  match floats datos with
  | Some xs => Ok xs
  | None => Raise (Exn TypeError "Could not convert string to numeric")
  end.

Fixpoint numericos_todos (cols : list (list value))
  : result (list (list float64)) :=
  match cols with
  | [] => Ok []
  | c :: r =>
      match numericos c, numericos_todos r with
      | Ok xs, Ok xss => Ok (xs :: xss)
      | Raise e, _ => Raise e
      | _, Raise e => Raise e
      end
  end.

(** [sub.dropna()] on a frame drops the rows with a missing cell. *)
Definition dropna_rows (sub : DataFrame) : DataFrame :=
  {| columns := columns sub;
     rows := filter (fun r => negb (existsb isna r)) (rows sub) |}.

Definition obtener_estadisticas (columna : string) : M (option resumen) :=
  let* o := get_df in
  match o with
  | None => ret None
  | Some d =>
      if negb (existsb (String.eqb columna) (columns d)) then ret None
      else
        let* s := lift (getitem d columna) in
        match s with
        | Series vals =>
            let* datos := lift (numericos (dropna vals)) in
            ret (Some (Escalar (reducir datos)))
        | Frame sub =>
            let datos := dropna_rows sub in
            let* cs := lift (numericos_todos
                               (map (iloc_col datos)
                                    (seq 0 (length (columns datos))))) in
            ret (Some (PorColumna
                         {| minimo := map s_min cs;
                            maximo := map s_max cs;
                            promedio := map s_mean cs;
                            std := map s_std cs;
                            mediana := map s_median cs;
                            vpp := zip_with PrimFloat.sub
                                     (map s_max cs) (map s_min cs) |}))
        end
  end.

(** *** [exportar_datos_filtrados] *)

(** [cols[0]] *)
Definition primera {A} (cols : list A) : result A :=
  match cols with
  | c :: _ => Ok c
  | [] =>
      Raise (Exn IndexError "index 0 is out of bounds for axis 0 with size 0")
  end.

Definition exportar_datos_filtrados (columnas : list string)
  (ruta_salida : string) : M unit :=
  let* o := get_df in
  match o with
  | None => raise (Exn Exception "No hay datos para exportar")
  | Some d =>
      let* c0 := lift (primera (columns d)) in
      let columnas :=
        if negb (existsb (String.eqb c0) columnas) then c0 :: columnas
        else columnas in
      let* sub := lift (getitem_list d columnas) in
      write ruta_salida (to_csv sub)
  end.

(** ** The class [Plotter] ([plotter.py])

    The matplotlib axes are modelled by what they show: the calls to
    [plot], each with its data, label and colour, the title, the axis
    labels, the grid and the legend. [clear] empties them.

    The model is that of the plotter on the frames a load produces: frames
    of numbers with distinct labels. There every [df[col]] is a column, a
    call to [plot] draws one line, and the calls that only set a style
    (line width, transparency, margins, font sizes, and the scientific
    tick format of [ticklabel_format], which needs the numeric axis that
    numeric abscissae give) show nothing of the data, cannot fail and are
    left out. On a frame with text or with a repeated label matplotlib
    may draw several lines in one call or raise; the properties below are
    stated for frames of numbers with distinct labels. *)

Definition colores : list string :=
  ["#FF6B6B"; "#4ECDC4"; "#45B7D1"; "#FFA07A"; "#98D8C8";
   "#FFD93D"; "#6BCB77"; "#C44569"; "#A8E6CF"; "#FF8B94"].

Record trazo := {
  xdata : selection;
  ydata : selection;
  label : option string;
  color : string
}.

Record Axes := {
  trazos : list trazo;
  title : string;
  xlabel : string;
  ylabel : string;
  grid : bool;
  legend : bool
}.

(** [ax.clear()] leaves these axes. *)
Definition clear : Axes :=
  {| trazos := []; title := EmptyString; xlabel := EmptyString;
     ylabel := EmptyString; grid := false; legend := false |}.

Definition plot (tr : trazo) (ax : Axes) : Axes :=
  {| trazos := trazos ax ++ [tr]; title := title ax; xlabel := xlabel ax;
     ylabel := ylabel ax; grid := grid ax; legend := legend ax |}.

Definition set_title (s : string) (ax : Axes) : Axes :=
  {| trazos := trazos ax; title := s; xlabel := xlabel ax;
     ylabel := ylabel ax; grid := grid ax; legend := legend ax |}.

Definition set_xlabel (s : string) (ax : Axes) : Axes :=
  {| trazos := trazos ax; title := title ax; xlabel := s;
     ylabel := ylabel ax; grid := grid ax; legend := legend ax |}.

Definition set_ylabel (s : string) (ax : Axes) : Axes :=
  {| trazos := trazos ax; title := title ax; xlabel := xlabel ax;
     ylabel := s; grid := grid ax; legend := legend ax |}.

Definition set_grid (b : bool) (ax : Axes) : Axes :=
  {| trazos := trazos ax; title := title ax; xlabel := xlabel ax;
     ylabel := ylabel ax; grid := b; legend := legend ax |}.

Definition show_legend (ax : Axes) : Axes :=
  {| trazos := trazos ax; title := title ax; xlabel := xlabel ax;
     ylabel := ylabel ax; grid := grid ax; legend := true |}.

(** [self.colores[i]] *)
Definition color_en (i : nat) : result string :=
  match nth_error colores i with
  | Some c => Ok c
  | None => Raise (Exn IndexError "list index out of range")
  end.

(** *** [configurar_grafico] *)
Definition configurar_grafico (ax : Axes) : Axes :=
  set_grid true
    (set_ylabel "Voltaje (V)"
       (set_xlabel "Tiempo (s)"
          (set_title "Señales del Osciloscopio" ax))).

(** *** [graficar_canales] *)

(** The loop [for i, canal in enumerate(canales)] from index [i] on. *)
Fixpoint graficar_desde (i : nat) (canales : list string) (t : DataFrame)
  (tiempo : selection) (ax : Axes) : result unit * Axes :=
  match canales with
  | [] => (Ok tt, ax)
  | canal :: resto =>
      match color_en (i mod length colores) with
      | Raise e => (Raise e, ax)
      | Ok c =>
          match getitem t canal with
          | Raise e => (Raise e, ax)
          | Ok voltaje =>
              graficar_desde (S i) resto t tiempo
                (plot {| xdata := tiempo; ydata := voltaje;
                         label := Some ("Canal " ++ canal)%string;
                         color := c |} ax)
          end
      end
  end.

Definition graficar_canales (ax : Axes) (t : DataFrame)
  (canales : list string) : result unit * Axes :=
  let ax := clear in
  match primera (columns t) with
  | Raise e => (Raise e, ax)
  | Ok c0 =>
      match getitem t c0 with
      | Raise e => (Raise e, ax)
      | Ok tiempo =>
          match graficar_desde 0 canales t tiempo ax with
          | (Raise e, ax) => (Raise e, ax)
          | (Ok _, ax) =>
              let ax := configurar_grafico ax in
              (Ok tt, if (1 <? length canales)%nat then show_legend ax
                      else ax)
          end
      end
  end.

(** *** [comparar_canales] *)
Definition comparar_canales (ax : Axes) (t : DataFrame)
  (canal1 canal2 : string) : result unit * Axes :=
  let ax := clear in
  match getitem t canal1 with
  | Raise e => (Raise e, ax)
  | Ok x =>
      match getitem t canal2 with
      | Raise e => (Raise e, ax)
      | Ok y =>
          match color_en 4 with
          | Raise e => (Raise e, ax)
          | Ok c =>
              let ax := plot {| xdata := x; ydata := y; label := None;
                                color := c |} ax in
              let ax :=
                set_title ("Comparación: Canal " ++ canal1
                             ++ " vs Canal " ++ canal2)%string ax in
              let ax := set_xlabel ("Canal " ++ canal1 ++ " (V)")%string ax in
              let ax := set_ylabel ("Canal " ++ canal2 ++ " (V)")%string ax in
              (Ok tt, set_grid true ax)
          end
      end
  end.

(** ** The class [OsciloscopioGUI] ([gui.py])

    The window is modelled by what its methods read and write: the
    handler, the table the window keeps, the check boxes of the channels
    (label and whether checked), whether the plot button is enabled, the
    text of the information label, the axes, the number of times the
    canvas was drawn, and the message boxes shown. The path chosen in the
    file dialog is an argument ([""] when the dialog is cancelled). *)

Inductive dialogo :=
| Showinfo (titulo mensaje : string)
| Showwarning (titulo mensaje : string)
| Showerror (titulo mensaje : string).

Record OsciloscopioGUI := {
  data_handler : DataHandler;
  gui_df : option DataFrame;
  canal_vars : list (string * bool);
  btn_graficar : bool;
  info_label : string;
  gui_ax : Axes;
  dibujos : nat;
  dialogos : list dialogo
}.

(** An exception inside the window's methods: one of the handler or the
    plotter, or Python's own on [None]. Only its text is ever used. *)
Inductive excepcion :=
| Propia (e : exn)
| SinAtributo (mensaje : string).

Definition str_excepcion (e : excepcion) : string :=
  match e with
  | Propia e => str e
  | SinAtributo m => m
  end.

Definition nl : string := String (ascii_of_nat 10) EmptyString.

Definition con_dialogo (d : dialogo) (g : OsciloscopioGUI) : OsciloscopioGUI :=
  {| data_handler := data_handler g; gui_df := gui_df g;
     canal_vars := canal_vars g; btn_graficar := btn_graficar g;
     info_label := info_label g; gui_ax := gui_ax g; dibujos := dibujos g;
     dialogos := dialogos g ++ [d] |}.

Definition con_ax (ax : Axes) (g : OsciloscopioGUI) : OsciloscopioGUI :=
  {| data_handler := data_handler g; gui_df := gui_df g;
     canal_vars := canal_vars g; btn_graficar := btn_graficar g;
     info_label := info_label g; gui_ax := ax; dibujos := dibujos g;
     dialogos := dialogos g |}.

(** The window as [__init__] builds it. *)
Definition gui_inicial : OsciloscopioGUI :=
  {| data_handler := __init__; gui_df := None; canal_vars := [];
     btn_graficar := false; info_label := "No hay archivo cargado";
     gui_ax := set_grid true
                 (set_ylabel "Voltaje (V)"
                    (set_xlabel "Tiempo (s)"
                       (set_title "Señales del Osciloscopio" clear)));
     dibujos := 1; dialogos := [] |}.

(** A method of the window returns normally ([None]) or raises, and
    leaves the window as it made it up to there. *)
Definition efecto : Type := option excepcion * OsciloscopioGUI.

(** *** [crear_checkboxes_canales]: one checked box for every column but
    the first. *)
Definition crear_checkboxes_canales (g : OsciloscopioGUI) : efecto :=
  match gui_df g with
  | None =>
      (Some (SinAtributo "'NoneType' object has no attribute 'columns'"), g)
  | Some t =>
      (None,
       {| data_handler := data_handler g; gui_df := gui_df g;
          canal_vars := map (fun col => (col, true)) (tl (columns t));
          btn_graficar := btn_graficar g; info_label := info_label g;
          gui_ax := gui_ax g; dibujos := dibujos g;
          dialogos := dialogos g |})
  end.

(** *** [actualizar_info_archivo] *)
Definition actualizar_info_archivo (archivo : string) (g : OsciloscopioGUI)
  : efecto :=
  let nombre := last (split "/" archivo) EmptyString in
  match gui_df g with
  | None => (Some (SinAtributo "object of type 'NoneType' has no len()"), g)
  | Some t =>
      let num_puntos := len t in
      let num_canales := (Z.of_nat (length (columns t)) - 1)%Z in
      let info :=
        ("Archivo: " ++ nombre ++ nl ++ nl
           ++ "Canales: " ++ pretty num_canales ++ nl
           ++ "Puntos: " ++ pretty num_puntos)%string in
      (None,
       {| data_handler := data_handler g; gui_df := gui_df g;
          canal_vars := canal_vars g; btn_graficar := btn_graficar g;
          info_label := info; gui_ax := gui_ax g; dibujos := dibujos g;
          dialogos := dialogos g |})
  end.

(** *** [actualizar_grafico] *)
Definition actualizar_grafico (g : OsciloscopioGUI) : efecto :=
  match gui_df g with
  | None => (None, g)
  | Some t =>
      let canales_seleccionados :=
        map fst (filter (fun cv => snd cv) (canal_vars g)) in
      match canales_seleccionados with
      | [] =>
          (None,
           con_dialogo
             (Showwarning "Advertencia" "Selecciona al menos un canal") g)
      | _ =>
          let g := con_ax clear g in
          match graficar_canales (gui_ax g) t canales_seleccionados with
          | (Raise e, ax) => (Some (Propia e), con_ax ax g)
          | (Ok _, ax) =>
              (None,
               {| data_handler := data_handler g; gui_df := gui_df g;
                  canal_vars := canal_vars g;
                  btn_graficar := btn_graficar g;
                  info_label := info_label g; gui_ax := ax;
                  dibujos := S (dibujos g); dialogos := dialogos g |})
          end
      end
  end.

(** *** [abrir_archivo], on the path the file dialog returned and the disk
    as it is *)

Definition mostrar_error (e : excepcion) (g : OsciloscopioGUI)
  : OsciloscopioGUI :=
  con_dialogo
    (Showerror "Error"
       ("No se pudo cargar el archivo:" ++ nl ++ str_excepcion e)%string) g.

Definition abrir_archivo (archivo : string) (d : disk) (g : OsciloscopioGUI)
  : OsciloscopioGUI :=
  if String.eqb archivo EmptyString then g
  else
    let '(r, st) := cargar_csv archivo {| self := data_handler g; fs := d |} in
    let g := {| data_handler := self st; gui_df := gui_df g;
                canal_vars := canal_vars g; btn_graficar := btn_graficar g;
                info_label := info_label g; gui_ax := gui_ax g;
                dibujos := dibujos g; dialogos := dialogos g |} in
    match r with
    | Raise e => mostrar_error (Propia e) g
    | Ok t =>
        let g := {| data_handler := data_handler g; gui_df := Some t;
                    canal_vars := canal_vars g;
                    btn_graficar := btn_graficar g;
                    info_label := info_label g; gui_ax := gui_ax g;
                    dibujos := dibujos g; dialogos := dialogos g |} in
        match crear_checkboxes_canales g with
        | (Some e, g) => mostrar_error e g
        | (None, g) =>
            match actualizar_info_archivo archivo g with
            | (Some e, g) => mostrar_error e g
            | (None, g) =>
                let g := {| data_handler := data_handler g;
                            gui_df := gui_df g; canal_vars := canal_vars g;
                            btn_graficar := true;
                            info_label := info_label g; gui_ax := gui_ax g;
                            dibujos := dibujos g; dialogos := dialogos g |} in
                match actualizar_grafico g with
                | (Some e, g) => mostrar_error e g
                | (None, g) =>
                    con_dialogo
                      (Showinfo "Éxito" "Archivo cargado correctamente") g
                end
            end
        end
    end.

(** ** Vocabulary of the specification *)

(** The field the detector tests on a line: the text before the first
    comma of the stripped line, stripped. *)
Definition campo_inicial (linea : string) : string :=
  strip (hd EmptyString (split comma (strip linea))).

(** A blank line: nothing but whitespace. *)
Definition en_blanco (linea : string) : Prop := strip linea = EmptyString.

(** The handler after [self.archivo_actual = ruta] and [self.df = t]. *)
Definition con_archivo (ruta : string) (st : state) : state :=
  {| self := {| df := df (self st); archivo_actual := Some ruta |};
     fs := fs st |}.

Definition con_df (t : DataFrame) (st : state) : state :=
  {| self := {| df := Some t; archivo_actual := archivo_actual (self st) |};
     fs := fs st |}.

(** The missing cells and all the cells of a frame. *)
Definition faltantes (t : DataFrame) : nat := sum (isna_sum t).
Definition celdas (t : DataFrame) : nat := (len t * length (columns t))%nat.

(** The three grounds on which the specification rejects a table: fewer
    than two columns, no row, or strictly more than half of the cells
    missing. *)
Definition rechazada (t : DataFrame) : Prop :=
  (length (columns t) < 2)%nat \/ len t = 0%nat
  \/ (celdas t < 2 * faltantes t)%nat.

(** The exact percentage of missing cells. *)
Definition porcentaje (t : DataFrame) : Q :=
  (Z.of_nat (100 * faltantes t) # Pos.of_nat (celdas t)).

(** The number of tenths [format_1f] prints. *)
Definition decimas (p : Q) : Z :=
  round_half_even (10 * Qnum p) (Zpos (Qden p)).

(** The message of the wrapped exception [cargar_csv] raises. *)
Definition envuelto (msg : string) : exn :=
  Exn Exception ("Error al cargar el archivo: " ++ msg)%string.

(** The table [cargar_csv] hands to [validar_datos]: the statements of its
    [try] block before the validation, that is the file parsed by
    [read_csv], the labels stripped and the columns converted. *)
Definition analizar (ruta_archivo : string) (skiprows : Z) : M DataFrame :=
  let* d := get_fs in
  let* t := lift (read_csv d ruta_archivo skiprows) in
  do set_df t in
  let t := {| columns := str_strip (columns t); rows := rows t |} in
  do set_df t in
  let* t := convertir_a_numerico t in
  do set_df t in
  ret t.

(** [t] is the table parsed by [cargar_csv ruta] started in [st]. *)
Definition tabla_analizada (ruta : string) (st : state) (t : DataFrame)
  : Prop :=
  exists skiprows st',
    fst (detectar_lineas_encabezado ruta st) = Ok skiprows
    /\ analizar ruta skiprows (con_archivo ruta st) = (Ok t, st').

Definition mensaje_columnas : string :=
  "El archivo debe tener al menos 2 columnas (tiempo y 1 canal)".
Definition mensaje_sin_datos : string := "El archivo no contiene datos".
Definition mensaje_invalidos (p : Q) : string :=
  ("El archivo tiene demasiados valores inválidos (" ++ format_1f p ++ "%)")
    %string.

(** The text of a line before its first comma. *)
Definition antes (s : string) : string := hd EmptyString (split comma s).

(** A label [to_csv] writes as it is and [read_csv] reads as it is: not
    empty and without comma, quote or line break. *)
Definition escribible (l : string) : Prop :=
  l <> EmptyString /\ needs_quote l = false.

(** Every value of the table is read back from its [repr], as Python
    promises of every float but NaN. *)
Definition legible (t : DataFrame) : Prop :=
  Forall (Forall (fun v =>
                    forall x, v = VNum x -> PrimFloat.is_nan x = false ->
                              to_double (Py.repr x) = Some x))
         (rows t).

(** A cell that holds a float is written without comma and read back. *)
Definition celda_legible (v : value) : Prop :=
  (exists x, v = VNum x)
  /\ forall x, v = VNum x -> PrimFloat.is_nan x = false ->
               to_double (Py.repr x) = Some x.

(** The first cell of the first row holds a value. *)
Definition primera_celda_presente (t : DataFrame) : Prop :=
  exists x resto filas,
    rows t = (VNum x :: resto) :: filas /\ PrimFloat.is_nan x = false.

(** A row converted from position [k] on. *)
Definition coerce_from (k : nat) (r : list value) : list value :=
  firstn k r ++ map coerce (skipn k r).


(** A frame of numbers: every cell holds a float. *)
Definition de_flotantes (t : DataFrame) : Prop :=
  Forall (Forall (fun v => exists x, v = VNum x)) (rows t).

(** Every row is as wide as the labels. *)
Definition rectangular (t : DataFrame) : Prop :=
  Forall (fun r => length r = length (columns t)) (rows t).

(** ** The header detector *)

Arguments Py.float : simpl never.
Arguments Py.repr : simpl never.
Arguments strip : simpl never.
Arguments split : simpl never.

Lemma detectar_lineas_encabezado_fs ruta st :
  snd (detectar_lineas_encabezado ruta st) = st.
Proof.
  unfold detectar_lineas_encabezado, bind, get_fs, lift, ret, raise.
  cbn. destruct (open_read (fs st) ruta) as [f|e]; cbn; [|reflexivity].
  destruct (buscar_datos 0 (lines f)); cbn; [reflexivity|].
  destruct (fault f); reflexivity.
Qed.

Lemma detectar_texto ruta st ls :
  fs st !! ruta = Some (text ls) ->
  detectar_lineas_encabezado ruta st
  = (Ok (default 1%Z (buscar_datos 0 ls)), st).
Proof.
  intros Hf.
  unfold detectar_lineas_encabezado, bind, get_fs, lift, ret, open_read.
  cbn. rewrite Hf. cbn.
  destruct (buscar_datos 0 ls); reflexivity.
Qed.

Lemma float_empty : Py.float EmptyString = None.
Proof. reflexivity. Qed.

(** Blank lines are skipped but counted. *)
Lemma buscar_datos_blancas i blancas resto :
  Forall en_blanco blancas ->
  buscar_datos i (blancas ++ resto)
  = buscar_datos (i + Z.of_nat (length blancas)) resto.
Proof.
  intros H. revert i. induction H as [|b bs Hb _ IH]; intros i.
  - cbn. f_equal. lia.
  - cbn [app buscar_datos length]. rewrite Hb. cbn [String.eqb].
    rewrite IH. f_equal. lia.
Qed.

Lemma buscar_datos_numerica i linea resto x :
  Py.float (campo_inicial linea) = Some x ->
  buscar_datos i (linea :: resto) = Some (Z.max 0 (i - 1)).
Proof.
  intros H. cbn [buscar_datos].
  destruct (String.eqb (strip linea) EmptyString) eqn:E.
  - apply String.eqb_eq in E. unfold campo_inicial in H. rewrite E in H.
    discriminate H.
  - unfold campo_inicial in H. rewrite H. reflexivity.
Qed.

Lemma buscar_datos_ninguna i ls :
  Forall (fun l => Py.float (campo_inicial l) = None) ls ->
  buscar_datos i ls = None.
Proof.
  intros H. revert i. induction H as [|l ls Hl _ IH]; intros i; cbn.
  - reflexivity.
  - destruct (String.eqb (strip l) EmptyString); [apply IH|].
    unfold campo_inicial in Hl. rewrite Hl. apply IH.
Qed.

(** C3, as amended. When the first non-blank line of a readable file leads
    with a field that parses as a float, [detectar_lineas_encabezado]
    returns [max(0, b - 1)], where [b] is the number of blank lines before
    it: blank lines are counted by [enumerate]. The result is 0 when at
    most one blank line precedes. *)
Theorem detectar_primera_numerica ruta st blancas linea resto x :
  fs st !! ruta = Some (text (blancas ++ linea :: resto)) ->
  Forall en_blanco blancas ->
  Py.float (campo_inicial linea) = Some x ->
  fst (detectar_lineas_encabezado ruta st)
  = Ok (Z.max 0 (Z.of_nat (length blancas) - 1))
  /\ ((length blancas <= 1)%nat ->
      fst (detectar_lineas_encabezado ruta st) = Ok 0%Z).
Proof.
  intros Hf Hb Hx.
  assert (E : fst (detectar_lineas_encabezado ruta st)
              = Ok (Z.max 0 (Z.of_nat (length blancas) - 1))).
  { rewrite (detectar_texto _ _ _ Hf). cbn [fst].
    rewrite (buscar_datos_blancas _ _ _ Hb).
    rewrite (buscar_datos_numerica _ _ _ _ Hx). reflexivity. }
  split; [exact E|].
  intros Hle. rewrite E. f_equal. lia.
Qed.

Lemma detectar_primera_numerica_witness :
  fst (detectar_lineas_encabezado "osc.csv"
         {| self := __init__;
            fs := {[ "osc.csv" := text [""; "0.5,1.25"; "1.0,1.5"] ]} |})
  = Ok 0%Z.
Proof.
  refine (proj2 (detectar_primera_numerica "osc.csv" _ [""] "0.5,1.25"
                   ["1.0,1.5"] 0.5%float _ _ _) _).
  - reflexivity.
  - repeat constructor.
  - vm_compute. reflexivity.
  - cbn. lia.
Defined.

(** C3, as stated, fails: after three blank lines the first non-blank line
    is numeric and the detector returns 2. *)
Lemma detectar_primera_numerica_counterexample :
  let archivo := [""; ""; ""; "1.0,2.0"] in
  let st := {| self := __init__; fs := {[ "osc.csv" := text archivo ]} |} in
  Forall en_blanco [""; ""; ""]
  /\ Py.float (campo_inicial "1.0,2.0") = Some 1%float
  /\ fst (detectar_lineas_encabezado "osc.csv" st) = Ok 2%Z
  /\ fst (detectar_lineas_encabezado "osc.csv" st) <> Ok 0%Z.
Proof.
  cbv zeta. split; [repeat constructor|].
  split; [vm_compute; reflexivity|].
  split; [vm_compute; reflexivity|].
  vm_compute. discriminate.
Qed.

(** The fixtures of the specification: with three preamble lines before the
    data the offset is 2, with one it is 0. *)
Example detectar_tres_preambulos :
  buscar_datos 0 ["Modelo: X"; "Fecha: hoy"; "Tiempo(s),Canal 1(V)";
                  "0.0,1.5"; "0.5,2.5"; "1.0,3.5"; "1.5,4.5"; "2.0,5.5"]
  = Some 2%Z.
Proof. reflexivity. Qed.

Example detectar_un_encabezado :
  buscar_datos 0 ["Tiempo(s),Canal 1(V)"; "-2.5e-3,1.5"; "0.5,2.5"]
  = Some 0%Z.
Proof. reflexivity. Qed.

(** [float] and [repr] on a few literals. *)
Example float_ejemplos :
  Py.float " -2.5e-3 " = Py.float "-0.0025"
  /\ Py.float "1_000.5" = Some 1000.5%float
  /\ Py.float "Tiempo(s)" = None
  /\ Py.float "0,5" = None
  /\ Py.float "-inf" = Some neg_infinity
  /\ Py.repr 1.5 = "1.5"
  /\ Py.repr 1e22 = "1e+22"
  /\ Py.repr (1 / 3) = "0.3333333333333333"
  /\ Py.float (Py.repr (1 / 3)) = Some (1 / 3)%float.
Proof. repeat split; vm_compute; reflexivity. Qed.

(** C7. On a readable file in which no line has a leading field that
    parses as a float, [detectar_lineas_encabezado] returns the default 1. *)
Theorem detectar_sin_numeros ruta st ls :
  fs st !! ruta = Some (text ls) ->
  Forall (fun l => Py.float (campo_inicial l) = None) ls ->
  detectar_lineas_encabezado ruta st = (Ok 1%Z, st).
Proof.
  intros Hf Hn. rewrite (detectar_texto _ _ _ Hf).
  rewrite (buscar_datos_ninguna _ _ Hn). reflexivity.
Qed.

Lemma detectar_sin_numeros_witness :
  fst (detectar_lineas_encabezado "notas.csv"
         {| self := __init__;
            fs := {[ "notas.csv" := text ["Tiempo,Canal 1"; ""; "a,b"] ]} |})
  = Ok 1%Z.
Proof.
  rewrite (detectar_sin_numeros "notas.csv" _
             ["Tiempo,Canal 1"; ""; "a,b"]).
  - reflexivity.
  - reflexivity.
  - repeat constructor.
Defined.

(** ** The validator *)

(** Runs the monadic operations of a goal without touching its tests. *)
Ltac run :=
  cbv beta iota zeta
      delta [bind try_except get_df set_df set_archivo_actual get_fs write
             lift raise ret].

Lemma validar_datos_fs st : snd (validar_datos st) = st.
Proof.
  unfold validar_datos. run.
  destruct (df (self st)) as [d|]; [|reflexivity].
  destruct (length (columns d) <? 2)%nat; [reflexivity|].
  destruct (len d =? 0)%nat; [reflexivity|].
  destruct (porcentaje_nan d) as [p|]; [|reflexivity].
  destruct (Qgtb p 50); reflexivity.
Qed.

Lemma validar_datos_some st t :
  df (self st) = Some t ->
  fst (validar_datos st)
  = if (length (columns t) <? 2)%nat then Raise (Exn Exception mensaje_columnas)
    else if (len t =? 0)%nat then Raise (Exn Exception mensaje_sin_datos)
    else match porcentaje_nan t with
         | Some p =>
             if Qgtb p 50 then Raise (Exn Exception (mensaje_invalidos p))
             else Ok tt
         | None => Ok tt
         end.
Proof.
  intros H. unfold validar_datos. run. rewrite H.
  destruct (length (columns t) <? 2)%nat; [reflexivity|].
  destruct (len t =? 0)%nat; [reflexivity|].
  destruct (porcentaje_nan t) as [p|]; [|reflexivity].
  destruct (Qgtb p 50); reflexivity.
Qed.

(** With at least one cell the quotient exists, and it is the exact
    percentage of missing cells. *)
Lemma porcentaje_nan_some t :
  celdas t <> 0%nat ->
  exists p, porcentaje_nan t = Some p /\ (p == porcentaje t)%Q.
Proof.
  intros Hn. unfold porcentaje_nan, truediv, porcentaje.
  fold (faltantes t). fold (celdas t).
  destruct (Z.of_nat (celdas t) =? 0)%Z eqn:E; [apply Z.eqb_eq in E; lia|].
  eexists. split; [reflexivity|].
  destruct (celdas t) as [|n]; [congruence|].
  unfold Qeq, Qdiv, Qmult, Qinv, inject_Z. cbn [Qnum Qden].
  rewrite <- Pos.of_nat_succ, Nat2Z.inj_mul.
  change (Z.of_nat (S n)) with (Z.pos (Pos.of_succ_nat n)).
  cbn [Qnum Qden]. rewrite Pos.mul_1_l, Pos.mul_1_r. lia.
Qed.

Lemma Qgtb_porcentaje t p :
  celdas t <> 0%nat ->
  (p == porcentaje t)%Q ->
  Qgtb p 50 = true <-> (celdas t < 2 * faltantes t)%nat.
Proof.
  intros Hn Hp. unfold Qgtb.
  rewrite negb_true_iff, <- not_true_iff_false, Qle_bool_iff, Hp.
  unfold porcentaje, Qle. cbn [Qnum Qden].
  destruct (celdas t) as [|n]; [congruence|].
  rewrite <- Pos.of_nat_succ, Zpos_P_of_succ_nat. lia.
Qed.

(** The tenths printed are the nearest to ten times the percentage. *)
Lemma decimas_cerca p :
  (2 * Z.abs (decimas p * Zpos (Qden p) - 10 * Qnum p) <= Zpos (Qden p))%Z.
Proof.
  unfold decimas, round_half_even.
  set (n := (10 * Qnum p)%Z). set (d := Zpos (Qden p)).
  assert (Hd : (0 < d)%Z) by (subst d; lia).
  pose proof (Z.div_mod n d ltac:(lia)) as Hdm.
  pose proof (Z.mod_pos_bound n d Hd) as Hr.
  destruct (2 * (n mod d) <? d)%Z eqn:E1; [apply Z.ltb_lt in E1; nia|].
  apply Z.ltb_ge in E1.
  destruct (d <? 2 * (n mod d))%Z eqn:E2; [apply Z.ltb_lt in E2; nia|].
  apply Z.ltb_ge in E2.
  destruct (Z.even (n / d)); nia.
Qed.

(** C9. In [validar_datos] the two shape checks come before the quotient:
    a table with fewer than two columns or with no row is refused on that
    ground whatever its cells; and whenever both checks pass, so that the
    quotient is computed, the table has at least two columns and one row,
    the denominator rows x columns is not zero, and the quotient is the
    exact percentage, which alone decides the outcome. *)
Theorem validar_datos_division st t :
  df (self st) = Some t ->
  ((length (columns t) < 2)%nat ->
   fst (validar_datos st) = Raise (Exn Exception mensaje_columnas))
  /\ ((2 <= length (columns t))%nat -> len t = 0%nat ->
      fst (validar_datos st) = Raise (Exn Exception mensaje_sin_datos))
  /\ ((2 <= length (columns t))%nat -> (1 <= len t)%nat ->
      Z.of_nat (len t * length (columns t)) <> 0%Z
      /\ exists q,
          truediv (Z.of_nat (Pd.sum (isna_sum t)))
                  (Z.of_nat (len t * length (columns t))) = Some q
          /\ (q * 100 == porcentaje t)%Q
          /\ fst (validar_datos st)
             = if Qgtb (q * 100) 50
               then Raise (Exn Exception (mensaje_invalidos (q * 100)))
               else Ok tt).
Proof.
  intros Hdf. rewrite (validar_datos_some _ _ Hdf).
  split; [|split].
  - intros H. apply Nat.ltb_lt in H. rewrite H. reflexivity.
  - intros H2 H0. apply Nat.ltb_ge in H2. rewrite H2.
    rewrite H0. reflexivity.
  - intros H2 H1.
    assert (Hc : celdas t <> 0%nat) by (unfold celdas; nia).
    split; [unfold celdas in Hc; lia|].
    destruct (porcentaje_nan_some t Hc) as (p & Hp & Hpe).
    unfold porcentaje_nan in Hp.
    destruct (truediv _ _) as [q|] eqn:Hq; [|discriminate].
    cbn in Hp. injection Hp as <-.
    exists q. split; [reflexivity|]. split; [exact Hpe|].
    apply Nat.ltb_ge in H2. rewrite H2.
    destruct (len t =? 0)%nat eqn:E; [apply Nat.eqb_eq in E; lia|].
    unfold porcentaje_nan. rewrite Hq. reflexivity.
Qed.

Lemma validar_datos_division_witness :
  let t := {| columns := ["t"; "ch1"];
              rows := [[VNum 0; VNum 1.5]; [NaN; VNum 2.5]] |} in
  Z.of_nat (len t * length (columns t)) <> 0%Z.
Proof.
  intros t.
  exact (proj1 (proj2 (proj2
           (validar_datos_division
              {| self := {| df := Some t; archivo_actual := None |};
                 fs := ∅ |} t eq_refl))
           ltac:(cbn; lia) ltac:(cbn; lia))).
Defined.

(** ** The loader *)

Lemma con_df_con_df t t' st : con_df t (con_df t' st) = con_df t st.
Proof. reflexivity. Qed.

Lemma con_df_id st t : df (self st) = Some t -> con_df t st = st.
Proof.
  destruct st as [[d a] f]. cbn. intros ->. reflexivity.
Qed.

Lemma detectar_lineas_encabezado_con_archivo ruta r st :
  detectar_lineas_encabezado ruta (con_archivo r st)
  = (fst (detectar_lineas_encabezado ruta st), con_archivo r st).
Proof.
  unfold detectar_lineas_encabezado. run.
  change (fs (con_archivo r st)) with (fs st).
  destruct (open_read (fs st) ruta) as [f|e]; [|reflexivity].
  destruct (buscar_datos 0 (lines f)); [reflexivity|].
  destruct (fault f); reflexivity.
Qed.

Lemma length_iloc_col t j : length (iloc_col t j) = len t.
Proof. unfold iloc_col, len. apply length_map. Qed.

Lemma setitem_columns t col v : columns (setitem t col v) = columns t.
Proof.
  unfold setitem. destruct (positions t col) as [|j [|k js]]; reflexivity.
Qed.

Lemma setitem_len t col v :
  length v = len t -> len (setitem t col v) = len t.
Proof.
  intros Hv. unfold setitem.
  destruct (positions t col) as [|j [|k js]]; try reflexivity.
  unfold len in *. cbn [rows]. rewrite length_zip_with. lia.
Qed.

(** The conversion keeps the labels and the row count, touches nothing but
    [self.df], and leaves there the frame as far as it was converted. *)
Lemma convertir_columnas_estado cols t st :
  df (self st) = Some t ->
  exists t',
    snd (convertir_columnas cols t st) = con_df t' st
    /\ columns t' = columns t /\ len t' = len t
    /\ (forall u, fst (convertir_columnas cols t st) = Ok u -> u = t').
Proof.
  revert t st. induction cols as [|col cols IH]; intros t st Hdf.
  - exists t. cbn. rewrite (con_df_id _ _ Hdf).
    repeat split; try reflexivity. intros u [= <-]. reflexivity.
  - cbn [convertir_columnas]. run.
    destruct (getitem t col) as [s|e] eqn:Hg.
    2:{ exists t. cbn. rewrite (con_df_id _ _ Hdf).
        repeat split; try reflexivity. discriminate. }
    destruct (to_numeric s) as [v|e] eqn:Hv.
    2:{ exists t. cbn. rewrite (con_df_id _ _ Hdf).
        repeat split; try reflexivity. discriminate. }
    assert (Hlen : length v = len t).
    { unfold getitem in Hg.
      destruct (positions t col) as [|j [|k js]]; try discriminate.
      - injection Hg as <-. cbn in Hv. injection Hv as <-.
        rewrite length_map. apply length_iloc_col.
      - injection Hg as <-. discriminate. }
    fold (con_df (setitem t col v) st).
    destruct (IH (setitem t col v) (con_df (setitem t col v) st) eq_refl)
      as (t' & Hs & Hc & Hl & Hu).
    exists t'. rewrite Hs, con_df_con_df, Hc, Hl.
    rewrite setitem_columns, (setitem_len _ _ _ Hlen).
    repeat split; try reflexivity. exact Hu.
Qed.

(** The parsing stage: a failure of [read_csv] leaves the handler alone;
    once [read_csv] has returned, [self.df] is a frame with the stripped
    labels and the rows of the file. *)
Lemma analizar_estado ruta skiprows st :
  match read_csv (fs st) ruta skiprows with
  | Raise e => analizar ruta skiprows st = (Raise e, st)
  | Ok t0 =>
      exists t',
        snd (analizar ruta skiprows st) = con_df t' st
        /\ columns t' = str_strip (columns t0) /\ len t' = len t0
        /\ (forall u, fst (analizar ruta skiprows st) = Ok u -> u = t')
  end.
Proof.
  unfold analizar. run.
  destruct (read_csv (fs st) ruta skiprows) as [t0|e]; [|reflexivity].
  fold (con_df t0 st).
  set (t1 := {| columns := str_strip (columns t0); rows := rows t0 |}).
  fold (con_df t1 (con_df t0 st)). rewrite con_df_con_df.
  unfold convertir_a_numerico.
  destruct (convertir_columnas_estado (columns t1) t1 (con_df t1 st) eq_refl)
    as (t' & Hs & Hc & Hl & Hu).
  exists t'.
  destruct (convertir_columnas (columns t1) t1 (con_df t1 st))
    as [[u|e] st2] eqn:E; cbn [fst snd] in *.
  - subst st2. rewrite (Hu u eq_refl).
    split; [reflexivity|]. split; [exact Hc|]. split; [exact Hl|].
    intros v [= <-]. reflexivity.
  - subst st2. rewrite con_df_con_df.
    split; [reflexivity|]. split; [exact Hc|]. split; [exact Hl|].
    discriminate.
Qed.

(** [cargar_csv] by cases on where it stops. *)
Lemma cargar_csv_casos ruta st :
  match fst (detectar_lineas_encabezado ruta st) with
  | Raise e => cargar_csv ruta st = (Raise e, con_archivo ruta st)
  | Ok skiprows =>
      match analizar ruta skiprows (con_archivo ruta st) with
      | (Raise e, st1) => cargar_csv ruta st = (Raise (envuelto (str e)), st1)
      | (Ok t, st1) =>
          match fst (validar_datos st1) with
          | Raise e => cargar_csv ruta st = (Raise (envuelto (str e)), st1)
          | Ok _ => cargar_csv ruta st = (Ok t, st1)
          end
      end
  end.
Proof.
  unfold cargar_csv.
  cbv beta iota delta [bind set_archivo_actual].
  fold (con_archivo ruta st).
  rewrite detectar_lineas_encabezado_con_archivo.
  destruct (fst (detectar_lineas_encabezado ruta st)) as [k|e];
    [|reflexivity].
  unfold try_except, analizar.
  cbv beta iota delta [bind].
  destruct (get_fs (con_archivo ruta st)) as [[d|e] s1]; [|reflexivity].
  destruct (lift (read_csv d ruta k) s1) as [[t0|e] s2]; [|reflexivity].
  destruct (set_df t0 s2) as [[[]|e] s3]; [|reflexivity].
  destruct (set_df _ s3) as [[[]|e] s4]; [|reflexivity].
  destruct (convertir_a_numerico _ s4) as [[t|e] s5]; [|reflexivity].
  destruct (set_df t s5) as [[[]|e] s6]; [|reflexivity].
  unfold ret at 1. cbv beta iota.
  pose proof (validar_datos_fs s6) as Hv.
  destruct (validar_datos s6) as [[[]|e] s7]; cbn [fst snd] in *; subst s7;
    reflexivity.
Qed.

Lemma analizar_ok_df ruta skiprows st t st' :
  analizar ruta skiprows st = (Ok t, st') -> df (self st') = Some t.
Proof.
  intros H. pose proof (analizar_estado ruta skiprows st) as A.
  destruct (read_csv (fs st) ruta skiprows) as [t0|e].
  - destruct A as (t' & Hs & _ & _ & Hu). rewrite H in Hs, Hu.
    cbn [fst snd] in *. rewrite (Hu t eq_refl). subst st'. reflexivity.
  - rewrite H in A. discriminate A.
Qed.

Lemma cargar_csv_fs ruta st : fs (snd (cargar_csv ruta st)) = fs st.
Proof.
  pose proof (cargar_csv_casos ruta st) as C.
  destruct (fst (detectar_lineas_encabezado ruta st)) as [k|e].
  2:{ rewrite C. reflexivity. }
  pose proof (analizar_estado ruta k (con_archivo ruta st)) as A.
  assert (F : fs (snd (analizar ruta k (con_archivo ruta st))) = fs st).
  { destruct (read_csv _ ruta k) as [t0|e].
    - destruct A as (t' & -> & _). reflexivity.
    - rewrite A. reflexivity. }
  destruct (analizar ruta k (con_archivo ruta st)) as [[t|e] st1];
    cbn [snd] in F.
  - destruct (fst (validar_datos st1)); rewrite C; exact F.
  - rewrite C. exact F.
Qed.

(** A failure of the header detector leaves [cargar_csv] as it is: the
    detector is called before the [try], so its exception keeps its class
    and carries no prefix. *)
Lemma cargar_csv_fallo_deteccion ruta st e :
  fst (detectar_lineas_encabezado ruta st) = Raise e ->
  fst (cargar_csv ruta st) = Raise e.
Proof.
  intros H. pose proof (cargar_csv_casos ruta st) as C.
  rewrite H in C. rewrite C. reflexivity.
Qed.

(** The sibling path: a failure of [read_csv] is wrapped, with its message
    kept after the prefix. *)
Lemma cargar_csv_fallo_lectura ruta st skiprows e :
  fst (detectar_lineas_encabezado ruta st) = Ok skiprows ->
  read_csv (fs st) ruta skiprows = Raise e ->
  fst (cargar_csv ruta st) = Raise (envuelto (str e)).
Proof.
  intros H R. pose proof (cargar_csv_casos ruta st) as C.
  rewrite H in C.
  pose proof (analizar_estado ruta skiprows (con_archivo ruta st)) as A.
  change (fs (con_archivo ruta st)) with (fs st) in A.
  rewrite R in A. rewrite A in C. rewrite C. reflexivity.
Qed.

(** C4 at its failing input. Loading a path that is not on the disk raises
    the [FileNotFoundError] of the detector's [open], and loading a file
    whose bytes do not decode raises the [UnicodeDecodeError] of the
    detector's read: each with its own class and message, without the
    prefix of the loader. The failure is not wrapped. *)
Theorem cargar_csv_archivo_inexistente :
  let no_decodifica :=
    Exn UnicodeDecodeError
        "'utf-8' codec can't decode byte 0xb5 in position 9: invalid start byte"
  in
  let st := {| self := __init__;
               fs := {[ "osc.csv" := text ["t,ch1"; "0.0,1.5"];
                        "latin1.csv" := File [] (Some no_decodifica) ]} |} in
  fst (cargar_csv "falta.csv" st)
  = Raise (Exn FileNotFoundError
             "[Errno 2] No such file or directory: 'falta.csv'")
  /\ fst (cargar_csv "falta.csv" st)
     <> Raise (envuelto "[Errno 2] No such file or directory: 'falta.csv'")
  /\ fst (cargar_csv "latin1.csv" st) = Raise no_decodifica
  /\ fst (cargar_csv "latin1.csv" st) <> Raise (envuelto (str no_decodifica)).
Proof.
  cbv zeta. split; [vm_compute; reflexivity|].
  split; [vm_compute; discriminate|].
  split; [vm_compute; reflexivity|].
  vm_compute. discriminate.
Qed.

(** ** Rejection of a parsed table *)

Lemma rechazada_dec t :
  (length (columns t) <? 2)%nat = false ->
  (len t =? 0)%nat = false ->
  rechazada t <-> (celdas t < 2 * faltantes t)%nat.
Proof.
  intros H2 H0. apply Nat.ltb_ge in H2. apply Nat.eqb_neq in H0.
  unfold rechazada. lia.
Qed.

Lemma decimas_porcentaje t p :
  celdas t <> 0%nat -> (p == porcentaje t)%Q ->
  (2 * Z.abs (decimas p * Z.of_nat (celdas t)
              - 1000 * Z.of_nat (faltantes t))
   <= Z.of_nat (celdas t))%Z.
Proof.
  intros Hc Hpe. pose proof (decimas_cerca p) as D.
  unfold Qeq, porcentaje in Hpe. cbn [Qnum Qden] in Hpe.
  assert (Hn : Z.pos (Pos.of_nat (celdas t)) = Z.of_nat (celdas t)).
  { destruct (celdas t) as [|c]; [congruence|].
    rewrite <- Pos.of_nat_succ, Zpos_P_of_succ_nat. lia. }
  rewrite Hn, Nat2Z.inj_mul in Hpe.
  change (Z.of_nat 100) with 100%Z in Hpe.
  set (k := Z.of_nat (faltantes t)) in *.
  set (n := Z.of_nat (celdas t)) in *.
  set (num := Qnum p) in *. set (den := Z.pos (Qden p)) in *.
  set (d := decimas p) in *.
  assert (Hden : (0 < den)%Z) by (subst den; lia).
  assert (Hpos : (0 < n)%Z) by (subst n; lia).
  clearbody k n num den d. clear - D Hpe Hden Hpos.
  assert (A : (2 * Z.abs (d * den * n - 10 * num * n) <= den * n)%Z).
  { replace (d * den * n - 10 * num * n)%Z
      with ((d * den - 10 * num) * n)%Z by ring.
    rewrite Z.abs_mul, (Z.abs_eq n) by lia. nia. }
  replace (10 * num * n)%Z with (1000 * k * den)%Z in A by lia.
  assert (B : (2 * Z.abs ((d * n - 1000 * k) * den) <= n * den)%Z).
  { replace ((d * n - 1000 * k) * den)%Z
      with (d * den * n - 1000 * k * den)%Z by ring. lia. }
  rewrite Z.abs_mul, (Z.abs_eq den) in B by lia. nia.
Qed.

(** C2. For every parsed table, [cargar_csv] raises if and only if the
    table has fewer than two columns, no row, or strictly more than half
    of its cells missing; otherwise it returns the table, in particular at
    exactly half. When it is the missing cells that reject the table, the
    message reports their percentage: it prints a number with one decimal
    that is within half a tenth of the exact percentage
    [100 * faltantes / celdas]. *)
Theorem cargar_csv_rechazo ruta st t :
  tabla_analizada ruta st t ->
  (is_raise (fst (cargar_csv ruta st)) = true <-> rechazada t)
  /\ (~ rechazada t -> fst (cargar_csv ruta st) = Ok t)
  /\ ((2 <= length (columns t))%nat -> (1 <= len t)%nat ->
      celdas t = (2 * faltantes t)%nat ->
      fst (cargar_csv ruta st) = Ok t)
  /\ ((2 <= length (columns t))%nat -> (1 <= len t)%nat ->
      (celdas t < 2 * faltantes t)%nat ->
      exists d : Z,
        fst (cargar_csv ruta st)
        = Raise (envuelto
                   ("El archivo tiene demasiados valores inválidos ("
                      ++ (pretty (d / 10)%Z ++ "." ++ pretty (d mod 10)%Z)
                      ++ "%)")%string)
        /\ (2 * Z.abs (d * Z.of_nat (celdas t)
                       - 1000 * Z.of_nat (faltantes t))
            <= Z.of_nat (celdas t))%Z).
Proof.
  intros (k & st' & Hd & Ha).
  pose proof (cargar_csv_casos ruta st) as C. rewrite Hd, Ha in C.
  pose proof (analizar_ok_df _ _ _ _ _ Ha) as Hdf.
  rewrite (validar_datos_some _ _ Hdf) in C.
  assert (Main :
    (rechazada t -> is_raise (fst (cargar_csv ruta st)) = true)
    /\ (~ rechazada t -> fst (cargar_csv ruta st) = Ok t)
    /\ ((2 <= length (columns t))%nat -> (1 <= len t)%nat ->
        (celdas t < 2 * faltantes t)%nat ->
        exists p,
          (p == porcentaje t)%Q
          /\ fst (cargar_csv ruta st)
             = Raise (envuelto (mensaje_invalidos p)))).
  { destruct (length (columns t) <? 2)%nat eqn:H2.
    { rewrite C. apply Nat.ltb_lt in H2.
      split; [reflexivity|]. split; [intros N; exfalso; apply N; left; lia|].
      intros; lia. }
    destruct (len t =? 0)%nat eqn:H0.
    { rewrite C. apply Nat.eqb_eq in H0.
      split; [reflexivity|].
      split; [intros N; exfalso; apply N; right; left; exact H0|].
      intros; lia. }
    pose proof (rechazada_dec t H2 H0) as R.
    assert (Hc : celdas t <> 0%nat).
    { apply Nat.ltb_ge in H2. apply Nat.eqb_neq in H0. unfold celdas. nia. }
    destruct (porcentaje_nan_some t Hc) as (p & Hp & Hpe).
    rewrite Hp in C.
    pose proof (Qgtb_porcentaje t p Hc Hpe) as G.
    destruct (Qgtb p 50) eqn:E; rewrite C; cbn [fst is_raise].
    - split; [reflexivity|]. split.
      + intros N. exfalso. apply N, R, G. reflexivity.
      + intros _ _ _. exists p. split; [exact Hpe|reflexivity].
    - assert (N : ~ (celdas t < 2 * faltantes t)%nat).
      { intros L. apply G in L. discriminate L. }
      split; [intros L; apply R in L; contradiction|].
      split; [reflexivity|]. intros _ _ L. contradiction. }
  destruct Main as (M1 & M2 & M3).
  split; [split; [|exact M1]|].
  { intros Hr. destruct (Nat.lt_ge_cases (length (columns t)) 2) as [L|L];
      [left; exact L|].
    destruct (Nat.eq_dec (len t) 0) as [Z0|Z0]; [right; left; exact Z0|].
    destruct (Nat.lt_ge_cases (celdas t) (2 * faltantes t)) as [L2|L2];
      [right; right; exact L2|].
    rewrite M2 in Hr; [discriminate Hr|]. unfold rechazada. lia. }
  split; [exact M2|]. split.
  - intros H2 H1 He. apply M2. unfold rechazada. lia.
  - intros H2 H1 Hl. destruct (M3 H2 H1 Hl) as (p & Hpe & Hr).
    exists (decimas p). split; [exact Hr|].
    apply decimas_porcentaje; [unfold celdas; nia|exact Hpe].
Qed.

Lemma cargar_csv_rechazo_witness :
  let st := {| self := __init__;
               fs := {[ "osc.csv" := text ["t,ch1"; "0.5,x"; "y,2.5"] ]} |} in
  fst (cargar_csv "osc.csv" st)
  = Ok {| columns := ["t"; "ch1"];
          rows := [[VNum 0.5; NaN]; [NaN; VNum 2.5]] |}.
Proof.
  intros st.
  refine (proj1 (proj2 (proj2 (cargar_csv_rechazo "osc.csv" st _ _))) _ _ _).
  - exists 0%Z. eexists. split; vm_compute; reflexivity.
  - cbn. lia.
  - cbn. lia.
  - vm_compute. reflexivity.
Defined.

(** ** Labels and positions *)

Lemma existsb_eqb_In (c : string) cols :
  existsb (String.eqb c) cols = true <-> In c cols.
Proof.
  rewrite existsb_exists. split.
  - intros (x & Hx & E). apply String.eqb_eq in E. subst x. exact Hx.
  - intros H. exists c. split; [exact H|apply String.eqb_refl].
Qed.

Lemma positions_from_nil j cols col :
  positions_from j cols col = [] <-> ~ In col cols.
Proof.
  revert j. induction cols as [|c cols IH]; intros j; cbn [positions_from In].
  - tauto.
  - destruct (String.eqb c col) eqn:E.
    + apply String.eqb_eq in E. split; [discriminate|]. intros N.
      exfalso. apply N. left. exact E.
    + apply String.eqb_neq in E. rewrite IH. tauto.
Qed.

Lemma positions_from_notin j cols col :
  ~ In col cols -> positions_from j cols col = [].
Proof. apply positions_from_nil. Qed.

(** A label that occurs once has one position. *)
Lemma positions_from_NoDup j cols k col :
  NoDup cols -> nth_error cols k = Some col ->
  positions_from j cols col = [(j + k)%nat].
Proof.
  intros Hn. revert j k. induction Hn as [|c cols Hc Hn IH]; intros j k H.
  - destruct k; discriminate H.
  - cbn [positions_from]. destruct k as [|k]; cbn in H.
    + injection H as ->. rewrite String.eqb_refl.
      rewrite (positions_from_notin _ _ _ Hc). f_equal. lia.
    + destruct (String.eqb c col) eqn:E.
      * apply String.eqb_eq in E. subst c. exfalso. apply Hc.
        apply nth_error_In in H. exact H.
      * rewrite (IH (S j) k H). f_equal. lia.
Qed.

(** Conversely, labels with one position each are distinct. *)
Lemma positions_from_singletons j cols :
  (forall c, In c cols -> exists k, positions_from j cols c = [k]) ->
  NoDup cols.
Proof.
  revert j. induction cols as [|c cols IH]; intros j H; constructor.
  - intros Hin. destruct (H c (or_introl eq_refl)) as (k & Hk).
    cbn [positions_from] in Hk. rewrite String.eqb_refl in Hk.
    injection Hk as _ Hk. apply positions_from_nil in Hk. contradiction.
  - apply (IH (S j)). intros d Hd.
    destruct (H d (or_intror Hd)) as (k & Hk).
    cbn [positions_from] in Hk.
    destruct (String.eqb c d); [|exists k; exact Hk].
    injection Hk as _ Hk. apply positions_from_nil in Hk. contradiction.
Qed.

Lemma label_positions_NoDup t labels :
  NoDup (columns t) ->
  (forall l, In l labels -> In l (columns t)) ->
  exists js,
    label_positions t labels = Ok js
    /\ map (nth_error (columns t)) js = map Some labels.
Proof.
  intros Hn. induction labels as [|l labels IH]; intros Hin.
  - exists []. split; reflexivity.
  - destruct IH as (js & Hjs & Hm); [intros; apply Hin; right; assumption|].
    destruct (In_nth_error _ _ (Hin l (or_introl eq_refl))) as (k & Hk).
    exists (k :: js). cbn [label_positions]. unfold positions.
    rewrite (positions_from_NoDup 0 _ _ _ Hn Hk), Hjs. cbn.
    split; [reflexivity|]. rewrite Hk, Hm. reflexivity.
Qed.

Lemma label_positions_raise t labels e :
  label_positions t labels = Raise e ->
  exists l, In l labels /\ ~ In l (columns t) /\ e = Exn KeyError l.
Proof.
  induction labels as [|l labels IH]; cbn [label_positions]; [discriminate|].
  destruct (positions t l) as [|j js] eqn:P.
  - intros [= <-]. exists l. split; [left; reflexivity|].
    split; [|reflexivity]. apply positions_from_nil in P. exact P.
  - destruct (label_positions t labels) as [ks|e'] eqn:L; [discriminate|].
    intros [= <-]. destruct (IH eq_refl) as (l' & Hl & Hn & He).
    exists l'. split; [right; exact Hl|]. split; assumption.
Qed.

Lemma label_positions_ok t labels :
  (forall l, In l labels -> In l (columns t)) ->
  exists js, label_positions t labels = Ok js.
Proof.
  intros H. destruct (label_positions t labels) as [js|e] eqn:L;
    [exists js; reflexivity|].
  destruct (label_positions_raise _ _ _ L) as (l & Hl & Hn & _).
  exfalso. apply Hn, H, Hl.
Qed.

(** ** The export *)

Lemma take_columns t js labels :
  map (nth_error (columns t)) js = map Some labels ->
  columns (take t js) = labels.
Proof.
  cbn [take columns]. revert labels.
  induction js as [|j js IH]; intros [|l labels] H; try discriminate.
  - reflexivity.
  - cbn in H. injection H as Hj H. cbn. rewrite (IH _ H).
    rewrite (nth_error_nth _ _ EmptyString Hj). reflexivity.
Qed.

Lemma take_iloc_col t js i k :
  nth_error js i = Some k ->
  iloc_col (take t js) i = iloc_col t k.
Proof.
  intros H. unfold iloc_col, take. cbn [rows]. rewrite map_map.
  apply map_ext. intros r.
  assert (Hi : nth_error (map (fun j => nth j r NaN) js) i
               = Some (nth k r NaN)).
  { rewrite nth_error_map, H. reflexivity. }
  apply (nth_error_nth _ _ NaN Hi).
Qed.

Lemma exportar_sin_datos columnas ruta st :
  df (self st) = None ->
  exportar_datos_filtrados columnas ruta st
  = (Raise (Exn Exception "No hay datos para exportar"), st).
Proof.
  intros H. unfold exportar_datos_filtrados. run. rewrite H. reflexivity.
Qed.

(** The export on a handler that holds a table with a first column. *)
Lemma exportar_con_datos columnas ruta st t c0 cs :
  df (self st) = Some t -> columns t = c0 :: cs ->
  exportar_datos_filtrados columnas ruta st
  = match getitem_list t (if existsb (String.eqb c0) columnas then columnas
                          else c0 :: columnas) with
    | Ok sub =>
        (Ok tt, {| self := self st; fs := <[ruta := to_csv sub]> (fs st) |})
    | Raise e => (Raise e, st)
    end.
Proof.
  intros Hdf Hc. unfold exportar_datos_filtrados. run. rewrite Hdf, Hc.
  cbn [primera].
  destruct (existsb (String.eqb c0) columnas); cbn [negb];
    destruct (getitem_list t _); reflexivity.
Qed.

(** C6. Without a table the export raises at once and leaves the disk as
    it was. With a table, for every request that omits the table's first
    column and names columns of the table, the export writes a file whose
    first column is the table's first column: its label opens the header
    line and its values open the rows. A request that names a column the
    table lacks raises [KeyError] and writes nothing. *)
Theorem exportar_incluye_primera columnas ruta st :
  (df (self st) = None ->
   exportar_datos_filtrados columnas ruta st
   = (Raise (Exn Exception "No hay datos para exportar"), st))
  /\ (forall t c0 cs,
        df (self st) = Some t -> columns t = c0 :: cs ->
        ~ In c0 columnas ->
        (forall l, In l columnas -> In l (columns t)) ->
        exists sub resto,
          exportar_datos_filtrados columnas ruta st
          = (Ok tt, {| self := self st;
                       fs := <[ruta := to_csv sub]> (fs st) |})
          /\ columns sub = c0 :: resto
          /\ iloc_col sub 0 = iloc_col t 0
          /\ lines (to_csv sub)
             = csv_line (quote c0 :: map quote resto)
                 :: map (fun r => csv_line (map field r)) (rows sub))
  /\ (forall t c0 cs l,
        df (self st) = Some t -> columns t = c0 :: cs ->
        In l columnas -> ~ In l (columns t) ->
        exists e,
          exportar_datos_filtrados columnas ruta st = (Raise e, st)
          /\ cls_of e = KeyError).
Proof.
  split; [apply exportar_sin_datos|]. split.
  - intros t c0 cs Hdf Hc Hn Hin.
    rewrite (exportar_con_datos _ _ _ _ _ _ Hdf Hc).
    destruct (existsb (String.eqb c0) columnas) eqn:E;
      [apply existsb_eqb_In in E; contradiction|].
    unfold getitem_list. cbn [label_positions]. unfold positions at 1.
    rewrite Hc. cbn [positions_from]. rewrite String.eqb_refl.
    destruct (label_positions_ok t columnas Hin) as (ks & Hks).
    rewrite Hks. cbn [app].
    set (js := positions_from 1 cs c0 ++ ks).
    exists (take t (0%nat :: js)).
    exists (map (fun j => nth j (columns t) EmptyString) js).
    split; [reflexivity|]. split; [cbn; rewrite Hc; reflexivity|].
    split; [apply take_iloc_col; reflexivity|].
    cbn. rewrite Hc. reflexivity.
  - intros t c0 cs l Hdf Hc Hl Hn.
    rewrite (exportar_con_datos _ _ _ _ _ _ Hdf Hc).
    assert (R : forall labels, In l labels ->
                exists e, getitem_list t labels = Raise e
                          /\ cls_of e = KeyError).
    { intros labels Hlab. unfold getitem_list.
      destruct (label_positions t labels) as [js|e] eqn:L.
      - exfalso. revert js L.
        induction labels as [|a labels IH]; [destruct Hlab|].
        intros js. cbn [label_positions].
        destruct (positions t a) as [|j0 js0] eqn:P; [discriminate|].
        destruct Hlab as [->|Hlab].
        + unfold positions in P.
          rewrite (positions_from_notin 0 _ _ Hn) in P. discriminate P.
        + destruct (label_positions t labels) as [ks|e]; [|discriminate].
          intros _. apply (IH Hlab ks eq_refl).
      - exists e. split; [reflexivity|].
        destruct (label_positions_raise _ _ _ L) as (? & _ & _ & ->).
        reflexivity. }
    destruct (existsb (String.eqb c0) columnas).
    + destruct (R columnas Hl) as (e & -> & He). exists e. auto.
    + destruct (R (c0 :: columnas) (or_intror Hl)) as (e & -> & He).
      exists e. auto.
Qed.

Lemma exportar_incluye_primera_witness :
  let t := {| columns := ["t"; "ch1"; "ch2"];
              rows := [[VNum 0; VNum 1.5; NaN];
                       [VNum 0.5; VNum 2.5; VNum 4]] |} in
  let st := {| self := {| df := Some t; archivo_actual := None |};
               fs := ∅ |} in
  exists sub resto,
    exportar_datos_filtrados ["ch2"] "salida.csv" st
    = (Ok tt, {| self := self st;
                 fs := <["salida.csv" := to_csv sub]> (fs st) |})
    /\ columns sub = "t" :: resto
    /\ iloc_col sub 0 = iloc_col t 0
    /\ lines (to_csv sub)
       = csv_line (quote "t" :: map quote resto)
           :: map (fun r => csv_line (map field r)) (rows sub).
Proof.
  intros t st.
  refine (proj1 (proj2 (exportar_incluye_primera ["ch2"] "salida.csv" st))
            t "t" ["ch1"; "ch2"] eq_refl eq_refl _ _).
  - cbn. intros [H|[]]. discriminate H.
  - cbn. intros l [<-|[]]. auto.
Defined.

(** C10. When the request already names the table's first column, the
    export writes the requested columns in the requested order, each with
    the values it has in the table: the first column stays where the
    request put it, and when that is not the front it is not the first
    column written. *)
Theorem exportar_respeta_orden columnas ruta st t c0 cs :
  df (self st) = Some t -> columns t = c0 :: cs -> NoDup (columns t) ->
  In c0 columnas ->
  (forall l, In l columnas -> In l (columns t)) ->
  exists sub,
    exportar_datos_filtrados columnas ruta st
    = (Ok tt, {| self := self st; fs := <[ruta := to_csv sub]> (fs st) |})
    /\ columns sub = columnas
    /\ hd EmptyString (lines (to_csv sub)) = csv_line (map quote columnas)
    /\ (forall i k l,
          nth_error columnas i = Some l -> nth_error (columns t) k = Some l ->
          iloc_col sub i = iloc_col t k)
    /\ (hd_error columnas <> Some c0 -> hd_error (columns sub) <> Some c0).
Proof.
  intros Hdf Hc Hn H0 Hin.
  rewrite (exportar_con_datos _ _ _ _ _ _ Hdf Hc).
  apply existsb_eqb_In in H0. rewrite H0.
  destruct (label_positions_NoDup t columnas Hn Hin) as (js & Hjs & Hm).
  unfold getitem_list. rewrite Hjs. exists (take t js).
  pose proof (take_columns _ _ _ Hm) as Hcols.
  split; [reflexivity|]. split; [exact Hcols|].
  split; [cbn [to_csv text lines hd]; rewrite Hcols; reflexivity|].
  split; [|rewrite Hcols; auto].
  intros i k l Hi Hk.
  assert (Hji : nth_error (map (nth_error (columns t)) js) i = Some (Some l)).
  { rewrite Hm, nth_error_map, Hi. reflexivity. }
  rewrite nth_error_map in Hji.
  destruct (nth_error js i) as [k'|] eqn:Hk'; [|discriminate].
  cbn in Hji. injection Hji as Hji.
  assert (k' = k).
  { apply (proj1 (NoDup_nth_error (columns t)) Hn).
    - apply nth_error_Some. congruence.
    - congruence. }
  subst k'. apply take_iloc_col. exact Hk'.
Qed.

Lemma exportar_respeta_orden_witness :
  let t := {| columns := ["t"; "ch1"; "ch2"];
              rows := [[VNum 0; VNum 1.5; NaN];
                       [VNum 0.5; VNum 2.5; VNum 4]] |} in
  let st := {| self := {| df := Some t; archivo_actual := None |};
               fs := ∅ |} in
  exists sub,
    exportar_datos_filtrados ["ch2"; "t"] "salida.csv" st
    = (Ok tt, {| self := self st;
                 fs := <["salida.csv" := to_csv sub]> (fs st) |})
    /\ columns sub = ["ch2"; "t"].
Proof.
  intros t st.
  destruct (exportar_respeta_orden ["ch2"; "t"] "salida.csv" st t "t"
              ["ch1"; "ch2"] eq_refl eq_refl) as (sub & H1 & H2 & _).
  - repeat constructor; cbn; intuition discriminate.
  - cbn. auto.
  - cbn. intros l [<-|[<-|[]]]; auto.
  - exists sub. split; assumption.
Defined.

(** ** Strings *)

Lemma lstrip_head s c r : lstrip s = String c r -> is_space c = false.
Proof.
  induction s as [|d s IH]; cbn [lstrip]; [discriminate|].
  destruct (is_space d) eqn:E; [exact IH|]. intros [= <- _]. exact E.
Qed.

Lemma lstrip_fixed s :
  match s with String c _ => is_space c = false | EmptyString => True end ->
  lstrip s = s.
Proof. destruct s as [|c r]; cbn [lstrip]; [reflexivity|]. intros ->. reflexivity. Qed.

Lemma lstrip_lstrip s : lstrip (lstrip s) = lstrip s.
Proof.
  apply lstrip_fixed. destruct (lstrip s) as [|c r] eqn:E; [exact I|].
  apply (lstrip_head _ _ _ E).
Qed.

Lemma rstrip_rstrip s : rstrip (rstrip s) = rstrip s.
Proof.
  induction s as [|c r IH]; [reflexivity|]. cbn [rstrip].
  destruct (rstrip r) as [|d r'] eqn:E.
  - destruct (is_space c) eqn:Ec; [reflexivity|].
    cbn [rstrip]. rewrite Ec. reflexivity.
  - cbn [rstrip]. cbn [rstrip] in IH. rewrite IH. reflexivity.
Qed.

Lemma rstrip_head c r d r' :
  rstrip (String c r) = String d r' -> d = c.
Proof.
  cbn [rstrip]. destruct (rstrip r); [destruct (is_space c)|];
    intros [= <- _]; reflexivity.
Qed.

Lemma lstrip_rstrip_lstrip s : lstrip (rstrip (lstrip s)) = rstrip (lstrip s).
Proof.
  apply lstrip_fixed.
  destruct (lstrip s) as [|c r] eqn:E; [exact I|].
  destruct (rstrip (String c r)) as [|d r'] eqn:R; [exact I|].
  rewrite (rstrip_head _ _ _ _ R). apply (lstrip_head _ _ _ E).
Qed.

Lemma strip_strip s : strip (strip s) = strip s.
Proof.
  unfold strip. rewrite lstrip_rstrip_lstrip. apply rstrip_rstrip.
Qed.

Lemma float_strip s : Py.float (strip s) = Py.float s.
Proof. unfold Py.float. rewrite strip_strip. reflexivity. Qed.

Lemma is_space_comma c : Ascii.eqb c comma = true -> is_space c = false.
Proof. intros H. apply Ascii.eqb_eq in H. subst c. reflexivity. Qed.

Lemma split_cons c r :
  split comma (String c r)
  = if Ascii.eqb c comma then EmptyString :: split comma r
    else String c (hd EmptyString (split comma r)) :: tl (split comma r).
Proof.
  unfold split; fold split. destruct (Ascii.eqb c comma); [reflexivity|].
  destruct (split comma r); reflexivity.
Qed.

Lemma antes_cons c r :
  antes (String c r)
  = if Ascii.eqb c comma then EmptyString else String c (antes r).
Proof.
  unfold antes. rewrite split_cons.
  destruct (Ascii.eqb c comma); reflexivity.
Qed.

Lemma antes_lstrip s : antes (lstrip s) = lstrip (antes s).
Proof.
  induction s as [|c r IH]; [reflexivity|].
  cbn [lstrip]. destruct (is_space c) eqn:E.
  - rewrite IH, antes_cons.
    destruct (Ascii.eqb c comma) eqn:Ec;
      [rewrite (is_space_comma _ Ec) in E; discriminate E|].
    cbn [lstrip]. rewrite E. reflexivity.
  - rewrite antes_cons. destruct (Ascii.eqb c comma); [reflexivity|].
    cbn [lstrip]. rewrite E. reflexivity.
Qed.

Lemma rstrip_antes_rstrip s : rstrip (antes (rstrip s)) = rstrip (antes s).
Proof.
  induction s as [|c r IH]; [reflexivity|].
  rewrite (antes_cons c r). cbn [rstrip].
  destruct (Ascii.eqb c comma) eqn:Ec.
  - destruct (rstrip r); [rewrite (is_space_comma _ Ec)|];
      rewrite antes_cons, Ec; reflexivity.
  - destruct (rstrip r) as [|d r'] eqn:R.
    + change (antes EmptyString) with EmptyString in IH.
      cbn [rstrip] in IH. cbn [rstrip]. rewrite <- IH.
      destruct (is_space c) eqn:E; [reflexivity|].
      rewrite antes_cons, Ec. cbn [rstrip]. rewrite E. 
      reflexivity.
    + rewrite antes_cons, Ec. cbn [rstrip]. rewrite IH. reflexivity.
Qed.

(** The field the detector tests is the stripped text before the first
    comma of the line as written. *)
Lemma campo_inicial_antes s : campo_inicial s = strip (antes s).
Proof.
  unfold campo_inicial. fold (antes (strip s)). unfold strip.
  rewrite <- antes_lstrip, lstrip_rstrip_lstrip, rstrip_antes_rstrip.
  rewrite antes_lstrip. reflexivity.
Qed.

Lemma split_no_comma f : contains comma f = false -> split comma f = [f].
Proof.
  induction f as [|c r IH]; [reflexivity|]. cbn [contains].
  intros H. apply orb_false_iff in H as [Hc Hr].
  rewrite split_cons, Hc, (IH Hr). reflexivity.
Qed.

Lemma split_app_comma f r :
  contains comma f = false ->
  split comma (f ++ String comma r) = f :: split comma r.
Proof.
  induction f as [|c f IH]; cbn [contains].
  - intros _. change (split comma (String comma r) = [EmptyString] ++ split comma r).
    rewrite split_cons. reflexivity.
  - intros H. apply orb_false_iff in H as [Hc Hr].
    change (split comma (String c (f ++ String comma r))
            = String c f :: split comma r).
    rewrite split_cons, Hc, (IH Hr). reflexivity.
Qed.

Lemma join_cons f g fs :
  join "," (f :: g :: fs) = (f ++ String comma (join "," (g :: fs)))%string.
Proof. reflexivity. Qed.

Lemma split_join fields :
  fields <> [] ->
  Forall (fun f => contains comma f = false) fields ->
  split comma (join "," fields) = fields.
Proof.
  intros Hne H. induction H as [|f fs Hf Hfs IH]; [congruence|].
  destruct fs as [|g fs].
  - apply split_no_comma. exact Hf.
  - rewrite join_cons, (split_app_comma _ _ Hf), IH; [reflexivity|discriminate].
Qed.

Lemma antes_join f fs :
  contains comma f = false -> antes (join "," (f :: fs)) = f.
Proof.
  intros Hf. unfold antes. destruct fs as [|g fs].
  - change (join "," [f]) with f. rewrite (split_no_comma _ Hf). reflexivity.
  - rewrite join_cons, (split_app_comma _ _ Hf). reflexivity.
Qed.

(** ** A float literal has no comma *)

Lemma space_not_comma c : is_space c = true -> Ascii.eqb c comma = false.
Proof.
  intros H. destruct (Ascii.eqb c comma) eqn:E; [|reflexivity].
  rewrite (is_space_comma _ E) in H. discriminate H.
Qed.

Lemma contains_lstrip s : contains comma (lstrip s) = contains comma s.
Proof.
  induction s as [|c r IH]; [reflexivity|]. cbn [lstrip contains].
  destruct (is_space c) eqn:E; [|reflexivity].
  rewrite (space_not_comma _ E). exact IH.
Qed.

Lemma contains_rstrip s : contains comma (rstrip s) = contains comma s.
Proof.
  induction s as [|c r IH]; [reflexivity|]. cbn [rstrip contains].
  destruct (rstrip r) as [|d r'].
  - rewrite <- IH. destruct (is_space c) eqn:E.
    + rewrite (space_not_comma _ E). reflexivity.
    + reflexivity.
  - rewrite <- IH. reflexivity.
Qed.

Lemma contains_strip s : contains comma (strip s) = contains comma s.
Proof. unfold strip. rewrite contains_rstrip. apply contains_lstrip. Qed.

Lemma lower_comma c : Ascii.eqb (lower c) comma = Ascii.eqb c comma.
Proof. destruct c as [[] [] [] [] [] [] [] []]; reflexivity. Qed.

Lemma contains_lowercase s : contains comma (lowercase s) = contains comma s.
Proof.
  induction s as [|c r IH]; [reflexivity|]. cbn [lowercase contains].
  rewrite lower_comma, IH. reflexivity.
Qed.

Lemma take_sign_contains s :
  contains comma s = contains comma (snd (take_sign s)).
Proof.
  destruct s as [|c r]; [reflexivity|].
  destruct c as [[] [] [] [] [] [] [] []]; reflexivity.
Qed.

Lemma digit_not_comma c : is_digit c = true -> Ascii.eqb c comma = false.
Proof.
  intros H. destruct (Ascii.eqb c comma) eqn:E; [|reflexivity].
  apply Ascii.eqb_eq in E. subst c. discriminate H.
Qed.

Lemma digit_run_no_comma b s ds :
  digit_run b s = Some ds -> contains comma s = false.
Proof.
  revert b ds. induction s as [|c r IH]; intros b ds; [reflexivity|].
  cbn [digit_run contains]. destruct (is_digit c) eqn:D.
  - rewrite (digit_not_comma _ D).
    destruct (digit_run true r) as [xs|] eqn:R; [|discriminate].
    intros _. apply (IH _ _ R).
  - destruct (Ascii.eqb c "_") eqn:U; cbn [andb]; [|discriminate].
    destruct b; [|discriminate]. apply Ascii.eqb_eq in U. subst c.
    intros R. apply (IH _ _ R).
Qed.

Lemma break_contains p s :
  (forall c, p c = true -> Ascii.eqb c comma = false) ->
  contains comma s
  = contains comma (fst (break p s))
    || match snd (break p s) with
       | Some r => contains comma r
       | None => false
       end.
Proof.
  intros Hp. induction s as [|c r IH]; [reflexivity|].
  cbn [break contains]. destruct (p c) eqn:E.
  - rewrite (Hp _ E). reflexivity.
  - destruct (break p r) as [a b]. cbn [fst snd contains] in *.
    rewrite IH. apply orb_assoc.
Qed.

Lemma digitpart_no_comma s ds :
  digitpart s = Some ds -> contains comma s = false.
Proof. apply digit_run_no_comma. Qed.

Lemma parse_mantissa_no_comma s x :
  parse_mantissa s = Some x -> contains comma s = false.
Proof.
  unfold parse_mantissa.
  rewrite (break_contains (Ascii.eqb ".") s).
  2:{ intros c H. apply Ascii.eqb_eq in H. subst c. reflexivity. }
  destruct (break (Ascii.eqb ".") s) as [ip [fp|]]; cbn [fst snd].
  - destruct ip as [|a ip], fp as [|b fp].
    + discriminate.
    + destruct (digitpart (String b fp)) eqn:F; [|discriminate].
      intros _. rewrite (digitpart_no_comma _ _ F). reflexivity.
    + destruct (digitpart (String a ip)) eqn:I; [|discriminate].
      intros _. rewrite (digitpart_no_comma _ _ I). reflexivity.
    + destruct (digitpart (String a ip)) eqn:I; [|discriminate].
      destruct (digitpart (String b fp)) eqn:F; [|discriminate].
      intros _. rewrite (digitpart_no_comma _ _ I), (digitpart_no_comma _ _ F).
      reflexivity.
  - destruct (digitpart ip) eqn:I; [|discriminate].
    intros _. rewrite (digitpart_no_comma _ _ I). reflexivity.
Qed.

Lemma parse_exponent_no_comma s x :
  parse_exponent s = Some x ->
  match s with Some r => contains comma r | None => false end = false.
Proof.
  destruct s as [t|]; [|reflexivity]. cbn [parse_exponent].
  rewrite (take_sign_contains t). destruct (take_sign t) as [neg u].
  cbn [snd]. destruct (digitpart u) eqn:D; [|discriminate].
  intros _. apply (digitpart_no_comma _ _ D).
Qed.

Lemma parse_decimal_no_comma neg s d :
  parse_decimal neg s = Some d -> contains comma s = false.
Proof.
  unfold parse_decimal.
  rewrite (break_contains (fun c => Ascii.eqb (lower c) "e") s).
  2:{ intros c H. rewrite <- lower_comma. apply Ascii.eqb_eq in H.
      rewrite H. reflexivity. }
  destruct (break _ s) as [m e]. cbn [fst snd].
  destruct (parse_mantissa m) as [[i f]|] eqn:M; [|discriminate].
  destruct (parse_exponent e) as [x|] eqn:X; [|discriminate].
  intros _. rewrite (parse_mantissa_no_comma _ _ M).
  apply (parse_exponent_no_comma _ _ X).
Qed.

Lemma float_no_comma s x : Py.float s = Some x -> contains comma s = false.
Proof.
  unfold Py.float. rewrite <- contains_strip, (take_sign_contains (strip s)).
  destruct (take_sign (strip s)) as [neg body]. cbn [snd].
  destruct (String.eqb (lowercase body) "inf"
            || String.eqb (lowercase body) "infinity") eqn:I.
  { intros _. rewrite <- contains_lowercase.
    apply orb_true_iff in I as [I|I]; apply String.eqb_eq in I;
      rewrite I; reflexivity. }
  destruct (String.eqb (lowercase body) "nan") eqn:N.
  { intros _. rewrite <- contains_lowercase.
    apply String.eqb_eq in N. rewrite N. reflexivity. }
  destruct (parse_decimal neg body) as [d|] eqn:P; [|discriminate].
  intros _. apply (parse_decimal_no_comma _ _ _ P).
Qed.

(** ** NaN *)

Lemma SFeqb_refl f : f <> S754_nan -> SFeqb f f = true.
Proof.
  intros H. unfold SFeqb, SFcompare.
  destruct f as [[]|[]| |[] m e]; try reflexivity; try congruence;
    rewrite Z.compare_refl, Pos.compare_cont_refl; reflexivity.
Qed.

(** There is one NaN. *)
Lemma is_nan_nan x : PrimFloat.is_nan x = true -> x = nan.
Proof.
  unfold PrimFloat.is_nan. rewrite FloatAxioms.eqb_spec. intros H.
  apply negb_true_iff in H.
  destruct (Prim2SF x) eqn:E;
    try (rewrite SFeqb_refl in H; [discriminate H|discriminate]).
  apply Prim2SF_inj. rewrite E. reflexivity.
Qed.

(** ** What [read_csv] returns *)

Lemma fit_length width index r v :
  fit width index r = Ok v -> length v = width.
Proof.
  unfold fit. destruct (width <? length (drop index (snd r)))%nat eqn:E;
    [discriminate|].
  apply Nat.ltb_ge in E. intros [= <-].
  rewrite length_app, length_map, repeat_length. lia.
Qed.

Lemma fit_all_length width index rs vs :
  fit_all width index rs = Ok vs -> Forall (fun v => length v = width) vs.
Proof.
  revert vs. induction rs as [|r rs IH]; intros vs; cbn [fit_all].
  - intros [= <-]. constructor.
  - destruct (fit width index r) as [v|e] eqn:F; [|discriminate].
    destruct (fit_all width index rs) as [ws|e]; [|discriminate].
    intros [= <-]. constructor; [apply (fit_length _ _ _ _ F)|].
    apply IH. reflexivity.
Qed.

Lemma length_mangle seen names : length (mangle seen names) = length names.
Proof.
  revert seen. induction names as [|c r IH]; intros seen; cbn; [reflexivity|].
  rewrite IH. reflexivity.
Qed.

Lemma length_unnamed_from i header :
  length (unnamed_from i header) = length header.
Proof.
  revert i. induction header as [|c r IH]; intros i; cbn; [reflexivity|].
  rewrite IH. reflexivity.
Qed.

Lemma read_csv_rectangular d ruta skiprows t :
  read_csv d ruta skiprows = Ok t -> rectangular t.
Proof.
  unfold read_csv. destruct (open_read d ruta) as [f|e]; [|discriminate].
  destruct (fault f); [discriminate|].
  destruct (records (Z.to_nat skiprows) (lines f)) as [|h body];
    [discriminate|].
  destruct (fit_all _ _ body) as [rs|e] eqn:F; [|discriminate].
  intros [= <-]. unfold rectangular. cbn [columns rows].
  unfold unnamed. rewrite length_mangle, length_unnamed_from.
  apply (fit_all_length _ _ _ _ F).
Qed.

(** ** What the conversion returns *)

Lemma zip_with_insert_coerce k (rs : list (list value)) :
  zip_with (fun r v => <[k := v]> r) rs
           (map coerce (map (fun r => nth k r NaN) rs))
  = map (fun r => <[k := coerce (nth k r NaN)]> r) rs.
Proof.
  induction rs as [|r rs IH]; cbn; [reflexivity|]. rewrite IH. reflexivity.
Qed.

Lemma setitem_coerce t col k :
  positions t col = [k] ->
  setitem t col (map coerce (iloc_col t k))
  = {| columns := columns t;
       rows := map (fun r => <[k := coerce (nth k r NaN)]> r) (rows t) |}.
Proof.
  intros H. unfold setitem, iloc_col. rewrite H, zip_with_insert_coerce.
  reflexivity.
Qed.

Lemma coerce_from_insert k (r : list value) :
  (k < length r)%nat ->
  coerce_from (S k) (<[k := coerce (nth k r NaN)]> r) = coerce_from k r.
Proof.
  revert k. induction r as [|a r IH]; intros k Hk; cbn in Hk; [lia|].
  destruct k as [|k].
  - reflexivity.
  - unfold coerce_from in *. cbn. f_equal. apply IH. lia.
Qed.

Lemma coerce_from_all (r : list value) : coerce_from (length r) r = r.
Proof.
  unfold coerce_from. rewrite firstn_all, skipn_all. cbn.
  apply app_nil_r.
Qed.

Lemma frame_eta t : {| columns := columns t; rows := rows t |} = t.
Proof. destruct t. reflexivity. Qed.

(** With distinct labels every column is converted, from the first not yet
    converted to the last. *)
Lemma convertir_columnas_ok pre cols t st :
  columns t = pre ++ cols -> NoDup (columns t) -> rectangular t ->
  fst (convertir_columnas cols t st)
  = Ok {| columns := columns t;
          rows := map (coerce_from (length pre)) (rows t) |}.
Proof.
  revert pre t st. induction cols as [|col cols IH]; intros pre t st Hc Hn Hr.
  - cbn. f_equal. rewrite <- (frame_eta t) at 1. f_equal.
    rewrite app_nil_r in Hc. rewrite <- (map_id (rows t)) at 1.
    apply map_ext_Forall. eapply Forall_impl; [|exact Hr].
    intros r Hlen. cbn in Hlen. rewrite <- Hc, <- Hlen.
    symmetry. apply coerce_from_all.
  - assert (Hk : positions t col = [length pre]).
    { unfold positions.
      rewrite (positions_from_NoDup 0 _ (length pre) col Hn); [reflexivity|].
      rewrite Hc, nth_error_app2, Nat.sub_diag by lia. reflexivity. }
    cbn [convertir_columnas]. run. unfold getitem. rewrite Hk.
    cbn [to_numeric]. rewrite (setitem_coerce _ _ _ Hk).
    set (t' := {| columns := columns t; rows := _ |}).
    rewrite (IH (pre ++ [col]) t').
    + subst t'. cbn [columns rows]. f_equal. f_equal.
      rewrite map_map. apply map_ext_Forall.
      eapply Forall_impl; [|exact Hr]. intros r Hlen. cbn in Hlen.
      rewrite length_app. cbn [length]. rewrite Nat.add_1_r.
      apply coerce_from_insert. rewrite Hlen, Hc, length_app. cbn. lia.
    + subst t'. cbn [columns]. rewrite Hc, <- app_assoc. reflexivity.
    + exact Hn.
    + subst t'. unfold rectangular. cbn [columns rows].
      apply Forall_map. eapply Forall_impl; [|exact Hr].
      intros r Hlen. cbn in Hlen |- *. rewrite length_insert. exact Hlen.
Qed.

(** A conversion that returns has found every label once. *)
Lemma convertir_columnas_inv cols t st u :
  fst (convertir_columnas cols t st) = Ok u ->
  forall c, In c cols -> exists k, positions t c = [k].
Proof.
  revert t st. induction cols as [|col cols IH]; intros t st H c Hin;
    [destruct Hin|].
  cbn [convertir_columnas] in H. revert H. run. unfold getitem.
  destruct (positions t col) as [|j [|j' js]] eqn:P;
    cbn [to_numeric]; try discriminate.
  intros H. destruct Hin as [<-|Hin]; [exists j; exact P|].
  destruct (IH _ _ H c Hin) as (k & Hk). exists k.
  unfold positions in *. rewrite setitem_columns in Hk. exact Hk.
Qed.

Lemma convertir_a_numerico_ok t st u :
  rectangular t ->
  fst (convertir_a_numerico t st) = Ok u ->
  NoDup (columns t)
  /\ u = {| columns := columns t; rows := map (map coerce) (rows t) |}.
Proof.
  intros Hr H. unfold convertir_a_numerico in H.
  assert (Hn : NoDup (columns t)).
  { apply (positions_from_singletons 0).
    apply (convertir_columnas_inv _ _ _ _ H). }
  split; [exact Hn|].
  rewrite (convertir_columnas_ok [] (columns t) t st eq_refl Hn Hr) in H.
  injection H as <-. reflexivity.
Qed.

(** ** Acceptance *)

Lemma validar_datos_ok st t :
  df (self st) = Some t ->
  fst (validar_datos st) = Ok tt <-> ~ rechazada t.
Proof.
  intros Hdf. rewrite (validar_datos_some _ _ Hdf).
  destruct (length (columns t) <? 2)%nat eqn:H2.
  { apply Nat.ltb_lt in H2. split; [discriminate|].
    intros N. exfalso. apply N. left. exact H2. }
  destruct (len t =? 0)%nat eqn:H0.
  { apply Nat.eqb_eq in H0. split; [discriminate|].
    intros N. exfalso. apply N. right. left. exact H0. }
  rewrite (rechazada_dec t H2 H0).
  assert (Hc : celdas t <> 0%nat).
  { apply Nat.ltb_ge in H2. apply Nat.eqb_neq in H0. unfold celdas. nia. }
  destruct (porcentaje_nan_some t Hc) as (p & -> & Hpe).
  rewrite <- (Qgtb_porcentaje t p Hc Hpe).
  destruct (Qgtb p 50); split; congruence.
Qed.

(** The parsing stage, when it returns. *)
Lemma analizar_ok ruta skiprows st t st' :
  analizar ruta skiprows st = (Ok t, st') ->
  exists t0,
    read_csv (fs st) ruta skiprows = Ok t0
    /\ NoDup (str_strip (columns t0))
    /\ t = {| columns := str_strip (columns t0);
              rows := map (map coerce) (rows t0) |}
    /\ st' = con_df t st.
Proof.
  intros H. pose proof (analizar_estado ruta skiprows st) as A.
  destruct (read_csv (fs st) ruta skiprows) as [t0|e] eqn:R;
    [|rewrite H in A; discriminate A].
  destruct A as (t' & Hs & _ & _ & Hu). rewrite H in Hs, Hu.
  cbn [fst snd] in Hs, Hu. pose proof (Hu t eq_refl) as <-.
  exists t0. split; [reflexivity|].
  revert H. unfold analizar. run. rewrite R.
  set (t1 := {| columns := str_strip (columns t0); rows := rows t0 |}).
  intros H.
  assert (Hr1 : rectangular t1).
  { pose proof (read_csv_rectangular _ _ _ _ R) as Hr.
    unfold rectangular in *. subst t1. cbn [columns rows].
    unfold str_strip. rewrite length_map. exact Hr. }
  match type of H with
  | context [convertir_a_numerico t1 ?s] =>
      destruct (convertir_a_numerico t1 s) as [[u|e] s'] eqn:C;
      [|discriminate H];
      pose proof (convertir_a_numerico_ok t1 s u Hr1) as K;
      rewrite C in K; destruct (K eq_refl) as (Hn & ->)
  end.
  injection H as <- _. split; [exact Hn|]. split; [reflexivity|exact Hs].
Qed.

(** What a successful load leaves and returns: the table is held, its
    labels are stripped and distinct, its rows are as wide as the labels
    and hold floats only, and it is not one the validator rejects. *)
Lemma cargar_csv_ok ruta st t st' :
  cargar_csv ruta st = (Ok t, st') ->
  st' = con_df t (con_archivo ruta st)
  /\ NoDup (columns t) /\ rectangular t /\ ~ rechazada t
  /\ Forall (fun l => strip l = l) (columns t)
  /\ Forall (Forall (fun v => exists x, v = VNum x)) (rows t).
Proof.
  intros H. pose proof (cargar_csv_casos ruta st) as C.
  destruct (fst (detectar_lineas_encabezado ruta st)) as [k|e];
    [|rewrite H in C; discriminate C].
  destruct (analizar ruta k (con_archivo ruta st)) as [[u|e] st1] eqn:A;
    [|rewrite H in C; discriminate C].
  pose proof (analizar_ok_df _ _ _ _ _ A) as Hdf.
  pose proof (validar_datos_ok st1 u Hdf) as V.
  destruct (fst (validar_datos st1)) as [[]|e];
    [|rewrite H in C; discriminate C].
  rewrite H in C. injection C as -> ->.
  destruct (analizar_ok _ _ _ _ _ A) as (t0 & R & Hn & -> & ->).
  split; [reflexivity|]. split; [exact Hn|].
  pose proof (read_csv_rectangular _ _ _ _ R) as Hr.
  split; [|split; [apply V; reflexivity|split]].
  - unfold rectangular in *. cbn [columns rows].
    apply Forall_map. eapply Forall_impl; [|exact Hr].
    intros r Hlen. cbn in Hlen |- *. unfold str_strip.
    rewrite !length_map. exact Hlen.
  - cbn [columns]. unfold str_strip. apply Forall_map.
    apply Forall_forall. intros l _. apply strip_strip.
  - cbn [rows]. apply Forall_map. apply Forall_forall. intros r _.
    apply Forall_map. apply Forall_forall. intros v _.
    destruct v as [s|x]; cbn [coerce]; eexists; reflexivity.
Qed.

(** ** The statistics *)

Lemma floats_dropna s ys :
  floats s = Some ys ->
  floats (dropna s) = Some (filter (fun x => negb (PrimFloat.is_nan x)) ys).
Proof.
  revert ys. induction s as [|v s IH]; intros ys H; cbn in H.
  - injection H as <-. reflexivity.
  - destruct v as [w|x]; [discriminate|].
    destruct (floats s) as [xs|]; [|discriminate]. injection H as <-.
    unfold dropna in *. cbn [filter isna].
    destruct (negb (PrimFloat.is_nan x)); cbn [floats];
      rewrite (IH xs eq_refl); reflexivity.
Qed.

Lemma positions_In t col : positions t col <> [] <-> In col (columns t).
Proof.
  unfold positions. rewrite positions_from_nil.
  destruct (in_dec string_dec col (columns t)); tauto.
Qed.

Lemma floats_numeric s :
  Forall (fun v => exists x, v = VNum x) s -> exists ys, floats s = Some ys.
Proof.
  induction 1 as [|v s [x ->] _ [ys IH]]; [exists []; reflexivity|].
  exists (x :: ys). cbn [floats]. rewrite IH. reflexivity.
Qed.

Lemma iloc_col_numeric t j :
  Forall (Forall (fun v => exists x, v = VNum x)) (rows t) ->
  Forall (fun v => exists x, v = VNum x) (iloc_col t j).
Proof.
  intros H. unfold iloc_col. apply Forall_map.
  eapply Forall_impl; [|exact H]. intros r Hr. cbn beta.
  destruct (nth_in_or_default j r NaN) as [Hin | ->].
  - rewrite Forall_forall in Hr. apply Hr, Hin.
  - exists nan. reflexivity.
Qed.

(** The minimum and the maximum are values of the Series. *)
Lemma s_min_In l : l <> [] -> In (s_min l) l.
Proof.
  destruct l as [|x r]; [congruence|]. intros _. cbn [s_min].
  assert (G : forall a, In (fold_left
                              (fun a b => if PrimFloat.ltb b a then b else a)
                              r a) (a :: r)).
  { induction r as [|y r IH]; intros a; cbn [fold_left]; [left; reflexivity|].
    destruct (IH (if PrimFloat.ltb y a then y else a)) as [<-|H].
    - destruct (PrimFloat.ltb y a); cbn; auto.
    - right. right. exact H. }
  apply G.
Qed.

Lemma s_max_In l : l <> [] -> In (s_max l) l.
Proof.
  destruct l as [|x r]; [congruence|]. intros _. cbn [s_max].
  assert (G : forall a, In (fold_left
                              (fun a b => if PrimFloat.ltb a b then b else a)
                              r a) (a :: r)).
  { induction r as [|y r IH]; intros a; cbn [fold_left]; [left; reflexivity|].
    destruct (IH (if PrimFloat.ltb a y then y else a)) as [<-|H].
    - destruct (PrimFloat.ltb a y); cbn; auto.
    - right. right. exact H. }
  apply G.
Qed.

(** ** Export of the whole table *)

Lemma label_positions_all pre cols t :
  columns t = pre ++ cols -> NoDup (columns t) ->
  label_positions t cols = Ok (seq (length pre) (length cols)).
Proof.
  revert pre. induction cols as [|c cols IH]; intros pre Hc Hn;
    [reflexivity|].
  cbn [label_positions]. unfold positions.
  rewrite (positions_from_NoDup 0 _ (length pre) c Hn).
  2:{ rewrite Hc, nth_error_app2, Nat.sub_diag by lia. reflexivity. }
  rewrite (IH (pre ++ [c])); [|rewrite Hc, <- app_assoc; reflexivity|exact Hn].
  rewrite length_app. cbn. rewrite Nat.add_1_r. reflexivity.
Qed.

Lemma map_nth_seq {A} (d : A) pre l :
  map (fun j => nth j (pre ++ l) d) (seq (length pre) (length l)) = l.
Proof.
  revert pre. induction l as [|a l IH]; intros pre; [reflexivity|].
  cbn [length seq map]. rewrite app_nth2, Nat.sub_diag by lia. cbn [nth].
  f_equal. specialize (IH (pre ++ [a])).
  rewrite length_app, <- app_assoc in IH. cbn in IH.
  rewrite Nat.add_1_r in IH. exact IH.
Qed.

Lemma take_all t :
  rectangular t -> take t (seq 0 (length (columns t))) = t.
Proof.
  intros Hr. rewrite <- (frame_eta t) at 3. unfold take. f_equal.
  - apply (map_nth_seq EmptyString []).
  - rewrite <- (map_id (rows t)) at 2. apply map_ext_Forall.
    eapply Forall_impl; [|exact Hr]. intros r Hlen. cbn in Hlen.
    rewrite <- Hlen. apply (map_nth_seq NaN []).
Qed.

Lemma exportar_todo ruta st t :
  df (self st) = Some t -> columns t <> [] ->
  NoDup (columns t) -> rectangular t ->
  exportar_datos_filtrados (columns t) ruta st
  = (Ok tt, {| self := self st; fs := <[ruta := to_csv t]> (fs st) |}).
Proof.
  intros Hdf Hne Hn Hr.
  assert (exists c0 cs, columns t = c0 :: cs) as (c0 & cs & Hc).
  { destruct (columns t) as [|c0 cs]; [congruence|eauto]. }
  rewrite (exportar_con_datos _ _ _ _ _ _ Hdf Hc).
  assert (E : existsb (String.eqb c0) (columns t) = true).
  { rewrite Hc. cbn [existsb]. rewrite String.eqb_refl. reflexivity. }
  rewrite E. unfold getitem_list.
  rewrite (label_positions_all [] (columns t) t eq_refl Hn).
  cbn [length]. rewrite (take_all t Hr). reflexivity.
Qed.

(** ** The file [to_csv] writes, read again *)

Lemma csv_line_join fields :
  (2 <= length fields)%nat -> csv_line fields = join "," fields.
Proof.
  destruct fields as [|f [|g fs]]; cbn [length]; try lia.
  intros _. unfold csv_line. destruct f; reflexivity.
Qed.

Lemma quote_escribible l : escribible l -> quote l = l.
Proof. intros [_ H]. unfold quote. rewrite H. reflexivity. Qed.

Lemma escribible_no_comma l : escribible l -> contains comma l = false.
Proof.
  intros [_ H]. unfold needs_quote in H.
  apply orb_false_iff in H as [H _]. apply orb_false_iff in H as [H _].
  apply orb_false_iff in H as [H _]. exact H.
Qed.

Lemma to_double_float s x : to_double s = Some x -> Py.float s = Some x.
Proof. unfold to_double. destruct (alguno ajeno s); congruence. Qed.

Lemma field_no_comma v : celda_legible v -> contains comma (field v) = false.
Proof.
  intros [[x ->] H]. cbn [field].
  destruct (PrimFloat.is_nan x) eqn:N; [reflexivity|].
  apply (float_no_comma _ x), to_double_float. apply H; [reflexivity|exact N].
Qed.

Lemma coerce_cell_field v : celda_legible v -> coerce (cell (field v)) = v.
Proof.
  intros [[x ->] H]. cbn [field].
  destruct (PrimFloat.is_nan x) eqn:N.
  - rewrite (is_nan_nan _ N). reflexivity.
  - specialize (H x eq_refl N). unfold cell.
    destruct (String.eqb (Py.repr x) EmptyString) eqn:E.
    + apply String.eqb_eq in E. rewrite E in H. discriminate H.
    + cbn [coerce]. rewrite H. reflexivity.
Qed.

Lemma is_blank_two fields :
  (2 <= length fields)%nat -> is_blank fields = false.
Proof. destruct fields as [|f [|g fs]]; cbn [length]; try lia. reflexivity. Qed.

Lemma records_from_join i fields ls :
  (2 <= length fields)%nat ->
  Forall (fun f => contains comma f = false) fields ->
  records_from i (join "," fields :: ls)
  = (i, fields) :: records_from (S i) ls.
Proof.
  intros H2 Hc. cbn [records_from]. rewrite (split_join fields).
  - rewrite (is_blank_two _ H2). reflexivity.
  - destruct fields; [cbn in H2; lia|discriminate].
  - exact Hc.
Qed.

Lemma fit_all_rows width i (rs : list (list value)) :
  (2 <= width)%nat ->
  Forall (fun r => length r = width) rs ->
  Forall (Forall celda_legible) rs ->
  fit_all width 0
    (records_from i (map (fun r => csv_line (map field r)) rs))
  = Ok (map (fun r => map cell (map field r)) rs).
Proof.
  intros H2 Hw Hl. revert i.
  induction rs as [|r rs IH]; intros i; [reflexivity|].
  inversion Hw as [|? ? Hr Hw']. inversion Hl as [|? ? Hc Hl']. subst.
  cbn [map]. rewrite csv_line_join by (rewrite length_map; lia).
  rewrite records_from_join.
  2:{ rewrite length_map. lia. }
  2:{ apply Forall_map. eapply Forall_impl; [|exact Hc].
      intros v Hv. apply field_no_comma. exact Hv. }
  cbn [fit_all]. unfold fit. cbn [snd]. rewrite skipn_O.
  rewrite length_map, Nat.ltb_irrefl, Nat.sub_diag. cbn [repeat].
  rewrite app_nil_r, (IH Hw' Hl').
  reflexivity.
Qed.

Lemma unnamed_from_id i cols :
  Forall (fun l => l <> EmptyString) cols -> unnamed_from i cols = cols.
Proof.
  intros H. revert i. induction H as [|c cols Hc _ IH]; intros i;
    [reflexivity|].
  cbn [unnamed_from]. rewrite IH.
  destruct (String.eqb c EmptyString) eqn:E; [|reflexivity].
  apply String.eqb_eq in E. contradiction.
Qed.

Lemma mangle_id seen cols :
  NoDup cols -> (forall c, In c cols -> ~ In c seen) ->
  mangle seen cols = cols.
Proof.
  intros Hn. revert seen. induction Hn as [|c cols Hc Hn IH]; intros seen Hs;
    [reflexivity|].
  cbn [mangle].
  assert (F : filter (String.eqb c) seen = []).
  { induction seen as [|s seen IHs]; [reflexivity|]. cbn [filter].
    destruct (String.eqb c s) eqn:E.
    - apply String.eqb_eq in E. subst s. exfalso.
      apply (Hs c (or_introl eq_refl)). left. reflexivity.
    - apply IHs. intros d Hd Hin. apply (Hs d Hd). right. exact Hin. }
  rewrite F. cbn [length Nat.eqb]. f_equal. apply IH.
  intros d Hd [<-|Hin]; [contradiction|].
  apply (Hs d (or_intror Hd) Hin).
Qed.

Lemma map_id_Forall {A} (f : A -> A) l :
  Forall (fun x => f x = x) l -> map f l = l.
Proof.
  intros H. rewrite <- (map_id l) at 2. apply map_ext_Forall. exact H.
Qed.

Lemma primer_registro_sin_indice width i (rs : list (list value)) :
  (2 <= width)%nat ->
  Forall (fun r => length r = width) rs ->
  Forall (Forall celda_legible) rs ->
  match records_from i (map (fun r => csv_line (map field r)) rs) with
  | r0 :: _ => (length (snd r0) - width)%nat
  | [] => 0%nat
  end = 0%nat.
Proof.
  intros H2 Hw Hl. destruct rs as [|r rs]; [reflexivity|].
  inversion Hw as [|? ? Hr Hw']. inversion Hl as [|? ? Hc Hl']. subst.
  cbn [map]. rewrite csv_line_join by (rewrite length_map; lia).
  rewrite records_from_join.
  - cbn [snd]. rewrite length_map. lia.
  - rewrite length_map. lia.
  - apply Forall_map. eapply Forall_impl; [|exact Hc].
    intros v Hv. apply field_no_comma. exact Hv.
Qed.

(** Reading what [to_csv] wrote gives the labels back and every cell as
    the text of its field. *)
Lemma read_csv_to_csv d ruta t :
  (2 <= length (columns t))%nat ->
  NoDup (columns t) -> rectangular t ->
  Forall escribible (columns t) ->
  Forall (Forall celda_legible) (rows t) ->
  read_csv (<[ruta := to_csv t]> d) ruta 0
  = Ok {| columns := columns t;
          rows := map (fun r => map cell (map field r)) (rows t) |}.
Proof.
  intros H2 Hn Hr He Hl. unfold read_csv, open_read.
  rewrite lookup_insert_eq. cbn [fault to_csv text lines].
  unfold records. cbn [Z.to_nat]. rewrite skipn_O.
  rewrite (map_id_Forall quote) by
    (eapply Forall_impl; [|exact He]; apply quote_escribible).
  rewrite (csv_line_join _ H2), records_from_join;
    [|exact H2
     |eapply Forall_impl; [|exact He]; apply escribible_no_comma].
  cbn [snd]. rewrite (primer_registro_sin_indice _ _ _ H2 Hr Hl).
  rewrite (fit_all_rows _ _ _ H2 Hr Hl).
  unfold unnamed. rewrite unnamed_from_id.
  2:{ eapply Forall_impl; [|exact He]. intros l [Hl0 _]. exact Hl0. }
  rewrite (mangle_id [] _ Hn); [reflexivity|]. intros c _ [].
Qed.

Lemma analizar_run ruta skiprows st t0 :
  read_csv (fs st) ruta skiprows = Ok t0 ->
  NoDup (str_strip (columns t0)) -> rectangular t0 ->
  let t := {| columns := str_strip (columns t0);
              rows := map (map coerce) (rows t0) |} in
  analizar ruta skiprows st = (Ok t, con_df t st).
Proof.
  intros R Hn Hr t.
  pose proof (analizar_estado ruta skiprows st) as A. rewrite R in A.
  destruct A as (t' & Hs & _ & _ & Hu).
  assert (F : fst (analizar ruta skiprows st) = Ok t).
  { unfold analizar. run. rewrite R.
    set (t1 := {| columns := str_strip (columns t0); rows := rows t0 |}).
    assert (Hr1 : rectangular t1).
    { unfold rectangular in *. subst t1. cbn [columns rows].
      unfold str_strip. rewrite length_map. exact Hr. }
    match goal with
    | |- context [convertir_a_numerico t1 ?s] =>
        pose proof (convertir_columnas_ok [] (columns t1) t1 s eq_refl Hn Hr1)
          as K;
        fold (convertir_a_numerico t1) in K;
        destruct (convertir_a_numerico t1 s) as [[u|e] s']
    end; cbn [fst] in K; [|discriminate K].
    injection K as ->. reflexivity. }
  rewrite (surjective_pairing (analizar ruta skiprows st)), F, Hs.
  rewrite <- (Hu t F). reflexivity.
Qed.

(** C1, as amended. A load that fails has still recorded the requested path
    in [archivo_actual], and leaves the disk alone. The table held is the
    one held before when the failure comes from the header detection
    (whose exception is raised as it is) or from [read_csv] (whose
    exception is wrapped); once [read_csv] has returned, [self.df] holds
    the newly parsed table, with its stripped labels and as many rows,
    whatever fails afterwards, and when the stripped labels are distinct
    it is the table with every cell converted, the one the validation
    rejected. *)
Theorem cargar_csv_fallo_estado ruta st e :
  fst (cargar_csv ruta st) = Raise e ->
  archivo_actual (self (snd (cargar_csv ruta st))) = Some ruta
  /\ fs (snd (cargar_csv ruta st)) = fs st
  /\ match fst (detectar_lineas_encabezado ruta st) with
     | Raise e0 =>
         e = e0 /\ df (self (snd (cargar_csv ruta st))) = df (self st)
     | Ok skiprows =>
         match read_csv (fs st) ruta skiprows with
         | Raise e1 =>
             e = envuelto (str e1)
             /\ df (self (snd (cargar_csv ruta st))) = df (self st)
         | Ok t0 =>
             exists t',
               df (self (snd (cargar_csv ruta st))) = Some t'
               /\ columns t' = str_strip (columns t0)
               /\ len t' = len t0
               /\ (NoDup (str_strip (columns t0)) ->
                   t' = {| columns := str_strip (columns t0);
                           rows := map (map coerce) (rows t0) |})
         end
     end.
Proof.
  intros He. split; [|split; [apply cargar_csv_fs|]];
    pose proof (cargar_csv_casos ruta st) as C;
    destruct (fst (detectar_lineas_encabezado ruta st)) as [k|e0];
    try (rewrite C; reflexivity);
    try (rewrite C in He |- *; injection He as <-; split; reflexivity);
    pose proof (analizar_estado ruta k (con_archivo ruta st)) as A;
    change (fs (con_archivo ruta st)) with (fs st) in A;
    destruct (read_csv (fs st) ruta k) as [t0|e1] eqn:R.
  - destruct A as (t' & Hs & _).
    destruct (analizar ruta k (con_archivo ruta st)) as [[t|e1] st1];
      cbn [snd] in Hs; subst st1;
      [destruct (fst (validar_datos _))|]; rewrite C; reflexivity.
  - rewrite A in C. rewrite C. reflexivity.
  - destruct A as (t' & Hs & Hc & Hl & _). exists t'.
    assert (Hx : NoDup (str_strip (columns t0)) ->
                 t' = {| columns := str_strip (columns t0);
                         rows := map (map coerce) (rows t0) |}).
    { intros Hn.
      pose proof (analizar_run ruta k (con_archivo ruta st) t0 R Hn
                    (read_csv_rectangular _ _ _ _ R)) as Run.
      cbv zeta in Run. rewrite Run in Hs. cbn [snd] in Hs.
      unfold con_df in Hs. injection Hs as <-. reflexivity. }
    destruct (analizar ruta k (con_archivo ruta st)) as [[t|e1] st1];
      cbn [snd] in Hs; subst st1;
      [destruct (fst (validar_datos _))|]; rewrite C; auto.
  - rewrite A in C. rewrite C in He |- *. injection He as <-.
    split; reflexivity.
Qed.

Lemma cargar_csv_fallo_estado_witness :
  let st := {| self := {| df := None; archivo_actual := Some "ok.csv" |};
               fs := {[ "mala.csv" := text ["t"; "0.0"; "0.1"] ]} |} in
  archivo_actual (self (snd (cargar_csv "mala.csv" st))) = Some "mala.csv".
Proof.
  intros st.
  refine (proj1 (cargar_csv_fallo_estado "mala.csv" st
                   (envuelto mensaje_columnas) _)).
  vm_compute. reflexivity.
Defined.

(** C1, as stated, fails: after a first file is loaded, loading a file
    with a single column raises, and both attributes have changed. *)
Lemma cargar_csv_fallo_counterexample :
  let d : disk := {[ "ok.csv" := text ["t,ch1"; "0.0,1.5"; "0.5,2.5"];
                     "mala.csv" := text ["t"; "0.0"; "0.5"] ]} in
  let st := snd (cargar_csv "ok.csv" {| self := __init__; fs := d |}) in
  self st = {| df := Some {| columns := ["t"; "ch1"];
                             rows := [[VNum 0; VNum 1.5];
                                      [VNum 0.5; VNum 2.5]] |};
               archivo_actual := Some "ok.csv" |}
  /\ fst (cargar_csv "mala.csv" st) = Raise (envuelto mensaje_columnas)
  /\ self (snd (cargar_csv "mala.csv" st))
     = {| df := Some {| columns := ["t"];
                        rows := [[VNum 0]; [VNum 0.5]] |};
          archivo_actual := Some "mala.csv" |}
  /\ self (snd (cargar_csv "mala.csv" st)) <> self st.
Proof.
  cbv zeta. split; [vm_compute; reflexivity|].
  split; [vm_compute; reflexivity|].
  split; [vm_compute; reflexivity|].
  vm_compute. discriminate.
Qed.

(** ** The detector on the file [to_csv] writes *)

Lemma buscar_datos_salta i linea resto :
  Py.float (campo_inicial linea) = None ->
  buscar_datos i (linea :: resto) = buscar_datos (i + 1) resto.
Proof.
  intros H. cbn [buscar_datos].
  destruct (String.eqb (strip linea) EmptyString); [reflexivity|].
  unfold campo_inicial in H. rewrite H. reflexivity.
Qed.

Lemma campo_inicial_join f fs :
  contains comma f = false -> campo_inicial (join "," (f :: fs)) = strip f.
Proof.
  intros H. rewrite campo_inicial_antes, (antes_join _ _ H). reflexivity.
Qed.

Lemma buscar_datos_to_csv t :
  (2 <= length (columns t))%nat -> rectangular t ->
  Forall escribible (columns t) ->
  Forall (fun l => strip l = l) (columns t) ->
  Forall (Forall celda_legible) (rows t) ->
  Py.float (hd EmptyString (columns t)) <> None \/ primera_celda_presente t ->
  buscar_datos 0 (lines (to_csv t)) = Some 0%Z.
Proof.
  intros H2 Hr He Hs Hl Hp. cbn [to_csv text lines]. unfold rectangular in Hr.
  rewrite (map_id_Forall quote) by
    (eapply Forall_impl; [|exact He]; apply quote_escribible).
  rewrite (csv_line_join _ H2).
  destruct (columns t) as [|c0 cs] eqn:Hc; [cbn in H2; lia|].
  inversion He as [|? ? He0 _]. inversion Hs as [|? ? Hs0 _]. subst.
  pose proof (campo_inicial_join c0 cs (escribible_no_comma _ He0)) as Hci.
  rewrite Hs0 in Hci. cbn [hd] in Hp.
  destruct (Py.float c0) as [y|] eqn:F.
  { rewrite (buscar_datos_numerica 0 _ _ y); [reflexivity|].
    rewrite Hci. exact F. }
  rewrite buscar_datos_salta by (rewrite Hci; exact F).
  destruct Hp as [Hp|(x & resto & filas & Hrows & Hx)]; [congruence|].
  rewrite Hrows in Hl, Hr |- *. inversion Hl as [|? ? Hl0 _]. subst.
  inversion Hr as [|? ? Hr0 _]. subst. cbn [map].
  rewrite csv_line_join
    by (cbn [length] in *; rewrite length_map; lia).
  cbn [field]. rewrite Hx.
  inversion Hl0 as [|? ? [_ Hx0] _]. subst.
  specialize (Hx0 x eq_refl Hx). apply to_double_float in Hx0.
  rewrite (buscar_datos_numerica (0 + 1) _ _ x); [reflexivity|].
  rewrite campo_inicial_join by apply (float_no_comma _ _ Hx0).
  rewrite float_strip. exact Hx0.
Qed.

(** The round trip where the detector finds the data. Take a table
    returned by a successful load whose labels are written as they are
    (not empty, no comma, quote or line break), whose values are read back
    from their [repr], and which has a value in the first cell of its
    first row or a first label that reads as a number. Exporting all its
    columns and loading the file written returns the same table. *)
Lemma exportar_cargar_ida_y_vuelta ruta0 st0 t st ruta :
  cargar_csv ruta0 st0 = (Ok t, st) ->
  Forall escribible (columns t) ->
  legible t ->
  Py.float (hd EmptyString (columns t)) <> None \/ primera_celda_presente t ->
  exists st1,
    exportar_datos_filtrados (columns t) ruta st = (Ok tt, st1)
    /\ fs st1 !! ruta = Some (to_csv t)
    /\ cargar_csv ruta st1
       = (Ok t, {| self := {| df := Some t; archivo_actual := Some ruta |};
                   fs := fs st1 |}).
Proof.
  intros Hload He Hleg Hp.
  destruct (cargar_csv_ok _ _ _ _ Hload) as (-> & Hn & Hr & Hv & Hs & Hnum).
  assert (H2 : (2 <= length (columns t))%nat).
  { unfold rechazada in Hv. lia. }
  assert (Hl : Forall (Forall celda_legible) (rows t)).
  { unfold legible in Hleg. rewrite Forall_forall in Hleg, Hnum |- *.
    intros r Hin. specialize (Hleg r Hin). specialize (Hnum r Hin).
    rewrite Forall_forall in Hleg, Hnum |- *. intros v Hv'.
    split; [apply Hnum, Hv'|apply Hleg, Hv']. }
  set (st := con_df t (con_archivo ruta0 st0)).
  set (st1 := {| self := self st; fs := <[ruta := to_csv t]> (fs st) |}).
  exists st1. split.
  { apply exportar_todo; try assumption; [reflexivity|].
    intros E. rewrite E in H2. cbn in H2. lia. }
  split; [apply lookup_insert_eq|].
  pose proof (cargar_csv_casos ruta st1) as C.
  assert (D : fst (detectar_lineas_encabezado ruta st1) = Ok 0%Z).
  { rewrite (detectar_texto ruta st1 (lines (to_csv t))).
    - rewrite (buscar_datos_to_csv t H2 Hr He Hs Hl Hp). reflexivity.
    - apply lookup_insert_eq. }
  rewrite D in C.
  pose proof (read_csv_to_csv (fs st) ruta t H2 Hn Hr He Hl) as R.
  set (t0 := {| columns := columns t;
                rows := map (fun r => map cell (map field r)) (rows t) |})
    in R.
  assert (Hstrip : str_strip (columns t0) = columns t).
  { apply (map_id_Forall strip). exact Hs. }
  assert (A : analizar ruta 0 (con_archivo ruta st1)
              = (Ok t, con_df t (con_archivo ruta st1))).
  { assert (T : {| columns := str_strip (columns t0);
                   rows := map (map coerce) (rows t0) |} = t).
    { rewrite Hstrip.
      transitivity {| columns := columns t; rows := rows t |};
        [|apply frame_eta].
      f_equal. subst t0. cbn [rows]. rewrite map_map.
      apply map_id_Forall. eapply Forall_impl; [|exact Hl].
      intros r Hrow. cbn beta. rewrite !map_map. apply map_id_Forall.
      eapply Forall_impl; [|exact Hrow]. intros v. apply coerce_cell_field. }
    assert (Hr0 : rectangular t0).
    { unfold rectangular in *. subst t0. cbn [columns rows].
      apply Forall_map. eapply Forall_impl; [|exact Hr].
      intros r Hlen. cbn beta in *. rewrite !length_map. exact Hlen. }
    assert (Hn0 : NoDup (str_strip (columns t0)))
      by (rewrite Hstrip; exact Hn).
    pose proof (analizar_run ruta 0 (con_archivo ruta st1) t0 R Hn0 Hr0)
      as A.
    cbv zeta in A. rewrite T in A. exact A. }
  rewrite A in C.
  rewrite (proj2 (validar_datos_ok (con_df t (con_archivo ruta st1)) t
                    eq_refl) Hv) in C.
  rewrite C. reflexivity.
Qed.

Lemma exportar_cargar_ejemplo :
  let st0 := {| self := __init__;
                fs := {[ "osc.csv" :=
                           text ["t,ch1"; "0.5,1.5"; "1.0,2.5"] ]} |} in
  let t := {| columns := ["t"; "ch1"];
              rows := [[VNum 0.5; VNum 1.5]; [VNum 1; VNum 2.5]] |} in
  exists st1,
    exportar_datos_filtrados (columns t) "copia.csv"
      (snd (cargar_csv "osc.csv" st0)) = (Ok tt, st1)
    /\ fs st1 !! "copia.csv" = Some (to_csv t)
    /\ cargar_csv "copia.csv" st1
       = (Ok t, {| self := {| df := Some t;
                              archivo_actual := Some "copia.csv" |};
                   fs := fs st1 |}).
Proof.
  intros st0 t.
  refine (exportar_cargar_ida_y_vuelta "osc.csv" st0 t
            (snd (cargar_csv "osc.csv" st0)) "copia.csv" _ _ _ _).
  - vm_compute. reflexivity.
  - repeat constructor; discriminate.
  - repeat constructor; intros x [= <-] _; vm_compute; reflexivity.
  - right. exists 0.5%float, [VNum 1.5], [[VNum 1; VNum 2.5]].
    split; reflexivity.
Defined.


(** ** Further properties of the header detector *)

Lemma detectar_archivo ruta st f :
  fs st !! ruta = Some f ->
  detectar_lineas_encabezado ruta st
  = match buscar_datos 0 (lines f) with
    | Some n => (Ok n, st)
    | None =>
        match fault f with
        | Some e => (Raise e, st)
        | None => (Ok 1%Z, st)
        end
    end.
Proof.
  intros Hf. unfold detectar_lineas_encabezado, open_read. run.
  rewrite Hf. destruct (buscar_datos 0 (lines f)); [reflexivity|].
  destruct (fault f); reflexivity.
Qed.

Lemma buscar_datos_preambulo i pre resto :
  Forall (fun l => Py.float (campo_inicial l) = None) pre ->
  buscar_datos i (pre ++ resto)
  = buscar_datos (i + Z.of_nat (length pre)) resto.
Proof.
  intros H. revert i. induction H as [|l pre Hl _ IH]; intros i.
  - cbn [app length]. f_equal. cbn. lia.
  - cbn [app length]. rewrite (buscar_datos_salta _ _ _ Hl), IH.
    f_equal. lia.
Qed.

(** X1. In a file that reads without fault, when the first line whose
    leading field parses as a float comes after [k] lines that have none
    (preamble, header, blank lines alike), the detector returns
    [max(0, k - 1)], so that the line just before the data becomes the
    header; the lines after the first data line do not matter. *)
Theorem detectar_tras_preambulo ruta st pre linea resto x :
  fs st !! ruta = Some (text (pre ++ linea :: resto)) ->
  Forall (fun l => Py.float (campo_inicial l) = None) pre ->
  Py.float (campo_inicial linea) = Some x ->
  detectar_lineas_encabezado ruta st
  = (Ok (Z.max 0 (Z.of_nat (length pre) - 1)), st).
Proof.
  intros Hf Hpre Hx. rewrite (detectar_archivo _ _ _ Hf). cbn [lines text].
  rewrite (buscar_datos_preambulo _ _ _ Hpre).
  rewrite (buscar_datos_numerica _ _ _ _ Hx). reflexivity.
Qed.

Lemma detectar_tras_preambulo_witness :
  let st := {| self := __init__;
               fs := {[ "osc.csv" :=
                          text ["Modelo: X"; ""; "Tiempo(s),Canal 1(V)";
                                "0.0,1.5"; "0.5,2.5"] ]} |} in
  detectar_lineas_encabezado "osc.csv" st = (Ok 2%Z, st).
Proof.
  intros st.
  refine (detectar_tras_preambulo "osc.csv" st
            ["Modelo: X"; ""; "Tiempo(s),Canal 1(V)"] "0.0,1.5" ["0.5,2.5"]
            0%float _ _ _).
  - reflexivity.
  - repeat constructor.
  - vm_compute. reflexivity.
Defined.

Lemma buscar_datos_cotas i ls n :
  (0 <= i)%Z -> buscar_datos i ls = Some n ->
  (0 <= n)%Z /\ (n + 2 <= Z.max 2 (i + Z.of_nat (length ls)))%Z.
Proof.
  revert i. induction ls as [|l ls IH]; intros i Hi; [discriminate|].
  cbn [buscar_datos length].
  assert (Rec : buscar_datos (i + 1) ls = Some n ->
                (0 <= n)%Z
                /\ (n + 2 <= Z.max 2 (i + Z.of_nat (S (length ls))))%Z).
  { intros H. destruct (IH (i + 1)%Z ltac:(lia) H). lia. }
  destruct (String.eqb (strip l) EmptyString); [exact Rec|].
  destruct (Py.float _); [|exact Rec]. intros [= <-]. lia.
Qed.

(** X2. On a readable file the detector always returns, never changes the
    handler or the disk, and its answer is at least 0 and at most the
    larger of 1 and the number of lines minus 2: when it is not the default
    it leaves a header line and a data line to read. *)
Theorem detectar_cotas ruta st ls :
  fs st !! ruta = Some (text ls) ->
  exists n,
    detectar_lineas_encabezado ruta st = (Ok n, st)
    /\ (0 <= n <= Z.max 1 (Z.of_nat (length ls) - 2))%Z.
Proof.
  intros Hf. rewrite (detectar_archivo _ _ _ Hf). cbn [lines fault text].
  destruct (buscar_datos 0 ls) as [n|] eqn:B.
  - exists n. split; [reflexivity|].
    destruct (buscar_datos_cotas 0 ls n ltac:(lia) B). lia.
  - exists 1%Z. split; [reflexivity|]. lia.
Qed.

Lemma detectar_cotas_witness :
  let st := {| self := __init__;
               fs := {[ "osc.csv" := text ["t,ch1"; "0.0,1.5"; "0.5,2.5"] ]} |}
  in
  exists n,
    detectar_lineas_encabezado "osc.csv" st = (Ok n, st)
    /\ (0 <= n <= Z.max 1 (Z.of_nat 3 - 2))%Z.
Proof.
  intros st.
  exact (detectar_cotas "osc.csv" st ["t,ch1"; "0.0,1.5"; "0.5,2.5"] eq_refl).
Defined.

(** X3. The detector raises only what opening or reading the file raises,
    as it is, and whenever it raises it has changed neither the handler
    nor the disk. A path that is not on the disk gives the
    [FileNotFoundError] of [open], whose message ends with the [repr] of
    the path; a file that fails before yielding any line with a numeric
    leading field gives its fault. Conversely, when the detector raises,
    the path is not on the disk or the file has exactly that fault. *)
Theorem detectar_fallo ruta st :
  (fs st !! ruta = None ->
   detectar_lineas_encabezado ruta st
   = (Raise (Exn FileNotFoundError
               ("[Errno 2] No such file or directory: " ++ repr_str ruta)
               %string),
      st))
  /\ (forall ls e,
        fs st !! ruta = Some (File ls (Some e)) ->
        Forall (fun l => Py.float (campo_inicial l) = None) ls ->
        detectar_lineas_encabezado ruta st = (Raise e, st))
  /\ (forall e,
        fst (detectar_lineas_encabezado ruta st) = Raise e ->
        snd (detectar_lineas_encabezado ruta st) = st
        /\ (fs st !! ruta = None
            \/ exists ls, fs st !! ruta = Some (File ls (Some e)))).
Proof.
  split; [|split].
  - intros Hf. unfold detectar_lineas_encabezado, open_read. run.
    rewrite Hf. reflexivity.
  - intros ls e Hf Hn. rewrite (detectar_archivo _ _ _ Hf). cbn [lines fault].
    rewrite (buscar_datos_ninguna _ _ Hn). reflexivity.
  - intros e H. destruct (fs st !! ruta) as [[ls f]|] eqn:Hf.
    + rewrite (detectar_archivo _ _ _ Hf) in H |- *.
      cbn [lines fault] in H |- *.
      destruct (buscar_datos 0 ls); [discriminate H|].
      destruct f as [e'|]; [|discriminate H]. cbn in H. injection H as ->.
      split; [reflexivity|]. right. exists ls. reflexivity.
    + split; [|left; reflexivity].
      unfold detectar_lineas_encabezado, open_read. run. rewrite Hf.
      reflexivity.
Qed.

Lemma detectar_fallo_witness :
  let e := Exn PermissionError "[Errno 13] Permission denied: 'osc.csv'" in
  let st := {| self := {| df := None; archivo_actual := Some "ok.csv" |};
               fs := {[ "osc.csv" := File [] (Some e) ]} |} in
  snd (detectar_lineas_encabezado "osc.csv" st) = st
  /\ (fs st !! "osc.csv" = None
      \/ exists ls, fs st !! "osc.csv" = Some (File ls (Some e))).
Proof.
  intros e st.
  refine (proj2 (proj2 (detectar_fallo "osc.csv" st)) e _).
  vm_compute. reflexivity.
Defined.

(** ** Further properties of the loader *)

Lemma read_csv_fault d ruta k ls e :
  d !! ruta = Some (File ls (Some e)) -> read_csv d ruta k = Raise e.
Proof. intros H. unfold read_csv, open_read. rewrite H. reflexivity. Qed.

Lemma records_from_blancas i ls :
  Forall en_blanco ls -> records_from i ls = [].
Proof.
  intros H. revert i. induction H as [|l ls Hl _ IH]; intros i;
    [reflexivity|].
  cbn [records_from].
  assert (Hc : contains comma l = false).
  { rewrite <- contains_strip. unfold en_blanco in Hl. rewrite Hl.
    reflexivity. }
  rewrite (split_no_comma _ Hc). cbn [is_blank].
  unfold en_blanco in Hl. rewrite Hl. cbn [String.eqb]. apply IH.
Qed.

Lemma Forall_drop {A} (P : A -> Prop) n (l : list A) :
  Forall P l -> Forall P (drop n l).
Proof.
  intros H. apply Forall_forall. intros x Hx.
  rewrite Forall_forall in H. apply H.
  rewrite <- (firstn_skipn n l). apply in_or_app. right. exact Hx.
Qed.

(** X4. A file that has no line, or only blank lines, reads without fault
    and yet does not load. The detector answers its default, [read_csv]
    finds no header line and raises inside the [try], and [cargar_csv]
    raises an [Exception] whose message is the prefix of the loader
    followed by the message of [read_csv]; the path has been recorded and
    the table held is the one held before. *)
Theorem cargar_csv_sin_registros ruta st ls :
  fs st !! ruta = Some (text ls) ->
  Forall en_blanco ls ->
  detectar_lineas_encabezado ruta st = (Ok 1%Z, st)
  /\ cargar_csv ruta st
     = (Raise (Exn Exception
                 "Error al cargar el archivo: No columns to parse from file"),
        {| self := {| df := df (self st); archivo_actual := Some ruta |};
           fs := fs st |}).
Proof.
  intros Hf Hb.
  assert (D : detectar_lineas_encabezado ruta st = (Ok 1%Z, st)).
  { rewrite (detectar_texto _ _ _ Hf).
    rewrite <- (app_nil_r ls), (buscar_datos_blancas 0 ls [] Hb).
    reflexivity. }
  split; [exact D|].
  pose proof (cargar_csv_casos ruta st) as C. rewrite D in C. cbn [fst] in C.
  pose proof (analizar_estado ruta 1 (con_archivo ruta st)) as A.
  change (fs (con_archivo ruta st)) with (fs st) in A.
  assert (R : read_csv (fs st) ruta 1
              = Raise (Exn EmptyDataError "No columns to parse from file")).
  { unfold read_csv, open_read. rewrite Hf. cbn [fault text lines].
    unfold records. rewrite (records_from_blancas _ _ (Forall_drop _ _ _ Hb)).
    reflexivity. }
  rewrite R in A. rewrite A in C. exact C.
Qed.

Lemma cargar_csv_sin_registros_witness :
  let st := {| self := __init__; fs := {[ "osc.csv" := text [""; "  "] ]} |}
  in
  fst (cargar_csv "osc.csv" st)
  = Raise (Exn Exception
             "Error al cargar el archivo: No columns to parse from file").
Proof.
  intros st.
  destruct (cargar_csv_sin_registros "osc.csv" st [""; "  "]) as (_ & H).
  - reflexivity.
  - repeat constructor.
  - rewrite H. reflexivity.
Defined.

(** X5. What a successful load guarantees. The handler holds the table
    returned and the path loaded, the disk is as it was, and the table has
    at least two columns with distinct labels free of surrounding
    whitespace, at least one row, every row as wide as the labels, no
    text left in any cell, and at most half of its cells missing. *)
Theorem cargar_csv_exito ruta st t st' :
  cargar_csv ruta st = (Ok t, st') ->
  self st' = {| df := Some t; archivo_actual := Some ruta |}
  /\ fs st' = fs st
  /\ (2 <= length (columns t))%nat /\ (1 <= len t)%nat
  /\ NoDup (columns t)
  /\ Forall (fun l => strip l = l) (columns t)
  /\ Forall (fun r => length r = length (columns t)) (rows t)
  /\ Forall (Forall (fun v => forall s, v <> VStr s)) (rows t)
  /\ (2 * faltantes t <= celdas t)%nat.
Proof.
  intros H.
  destruct (cargar_csv_ok _ _ _ _ H) as (-> & Hn & Hr & Hv & Hs & Hnum).
  unfold rechazada in Hv.
  assert (Ht : Forall (Forall (fun v => forall s, v <> VStr s)) (rows t)).
  { eapply Forall_impl; [|exact Hnum]. intros r Hrow.
    eapply Forall_impl; [|exact Hrow]. intros v [x ->] s. discriminate. }
  repeat split; try assumption; try reflexivity; lia.
Qed.

Lemma cargar_csv_exito_witness :
  let st := {| self := __init__;
               fs := {[ "osc.csv" := text ["t, ch1 "; "0.5,x"; "1.0,2.5"] ]} |}
  in
  let t := {| columns := ["t"; "ch1"];
              rows := [[VNum 0.5; NaN]; [VNum 1; VNum 2.5]] |} in
  self (snd (cargar_csv "osc.csv" st))
  = {| df := Some t; archivo_actual := Some "osc.csv" |}.
Proof.
  intros st t.
  refine (proj1 (cargar_csv_exito "osc.csv" st t
                   (snd (cargar_csv "osc.csv" st)) _)).
  vm_compute. reflexivity.
Defined.

Lemma convertir_columnas_fst cols t st st' :
  fst (convertir_columnas cols t st) = fst (convertir_columnas cols t st').
Proof.
  revert t st st'. induction cols as [|col cols IH]; intros t st st';
    [reflexivity|].
  cbn [convertir_columnas]. run.
  destruct (getitem t col) as [s|e]; [|reflexivity].
  destruct (to_numeric s) as [v|e]; [|reflexivity].
  apply IH.
Qed.

Lemma analizar_fst ruta k st st' :
  fs st = fs st' ->
  fst (analizar ruta k st) = fst (analizar ruta k st').
Proof.
  intros Hfs. unfold analizar. run. rewrite Hfs.
  destruct (read_csv (fs st') ruta k) as [t0|e]; [|reflexivity].
  set (t1 := {| columns := str_strip (columns t0); rows := rows t0 |}).
  match goal with
  | |- context [convertir_a_numerico t1 ?s] => set (sa := s)
  end.
  match goal with
  | |- context [convertir_a_numerico t1 ?s] =>
      lazymatch s with sa => fail | _ => set (sb := s) end
  end.
  pose proof (convertir_columnas_fst (columns t1) t1 sa sb) as K.
  fold (convertir_a_numerico t1) in K.
  destruct (convertir_a_numerico t1 sa) as [[u|e] s1];
    destruct (convertir_a_numerico t1 sb) as [[u'|e'] s1'];
    cbn [fst] in K; try discriminate K; injection K as ->; reflexivity.
Qed.

Lemma detectar_fst_fs ruta st st' :
  fs st = fs st' ->
  fst (detectar_lineas_encabezado ruta st)
  = fst (detectar_lineas_encabezado ruta st').
Proof.
  intros H. unfold detectar_lineas_encabezado. run. rewrite H.
  destruct (open_read (fs st') ruta) as [f|e]; [|reflexivity].
  destruct (buscar_datos 0 (lines f)); [reflexivity|].
  destruct (fault f); reflexivity.
Qed.

(** X6. A load keeps no memory of the handler: what [cargar_csv] returns or
    raises depends on the path and the disk only, not on the table or the
    path held before, and after a successful load the handler is the same
    whatever it held. *)
Theorem cargar_csv_sin_memoria ruta st st' :
  fs st = fs st' ->
  fst (cargar_csv ruta st) = fst (cargar_csv ruta st')
  /\ (forall t, fst (cargar_csv ruta st) = Ok t ->
                snd (cargar_csv ruta st) = snd (cargar_csv ruta st')).
Proof.
  intros Hfs.
  pose proof (cargar_csv_casos ruta st) as C.
  pose proof (cargar_csv_casos ruta st') as C'.
  rewrite <- (detectar_fst_fs ruta st st' Hfs) in C'.
  destruct (fst (detectar_lineas_encabezado ruta st)) as [k|e].
  2:{ rewrite C, C'. split; [reflexivity|discriminate]. }
  assert (Hfs' : fs (con_archivo ruta st) = fs (con_archivo ruta st'))
    by exact Hfs.
  pose proof (analizar_fst ruta k _ _ Hfs') as F.
  destruct (analizar ruta k (con_archivo ruta st)) as [[t|e] s1] eqn:A;
    destruct (analizar ruta k (con_archivo ruta st')) as [[t'|e'] s1'] eqn:A';
    cbn [fst] in F; try discriminate F.
  - injection F as <-.
    destruct (analizar_ok _ _ _ _ _ A) as (_ & _ & _ & _ & ->).
    destruct (analizar_ok _ _ _ _ _ A') as (_ & _ & _ & _ & ->).
    rewrite (validar_datos_some (con_df t (con_archivo ruta st)) t eq_refl)
      in C.
    rewrite (validar_datos_some (con_df t (con_archivo ruta st')) t eq_refl)
      in C'.
    assert (E : con_df t (con_archivo ruta st)
                = con_df t (con_archivo ruta st')).
    { unfold con_df, con_archivo. cbn. rewrite Hfs. reflexivity. }
    destruct (if (length (columns t) <? 2)%nat then _ else _) as [[]|e];
      rewrite C, C'; cbn [fst snd]; (split; [reflexivity|]);
      [intros _ _; exact E|discriminate].
  - injection F as <-. rewrite C, C'. split; [reflexivity|discriminate].
Qed.

Lemma cargar_csv_sin_memoria_witness :
  let d : gmap string file :=
    {[ "osc.csv" := text ["t,ch1"; "0.5,1.5"; "1.0,2.5"] ]} in
  let t := {| columns := ["viejo"]; rows := [] |} in
  fst (cargar_csv "osc.csv" {| self := __init__; fs := d |})
  = fst (cargar_csv "osc.csv"
           {| self := {| df := Some t; archivo_actual := Some "otro.csv" |};
              fs := d |}).
Proof.
  intros d t.
  exact (proj1 (cargar_csv_sin_memoria "osc.csv" _ _ eq_refl)).
Defined.

(** ** The file behind a loaded table *)

Lemma records_from_In i ls j campos :
  In (j, campos) (records_from i ls) ->
  exists l, In l ls /\ campos = split comma l.
Proof.
  revert i. induction ls as [|l ls IH]; intros i; cbn [records_from];
    [intros []|].
  intros H.
  assert (R : In (j, campos) (records_from (S i) ls) ->
              exists l0, In l0 (l :: ls) /\ campos = split comma l0).
  { intros H'. destruct (IH _ H') as (l0 & Hl0 & E). exists l0.
    split; [right; exact Hl0|exact E]. }
  destruct (is_blank (split comma l)); [exact (R H)|].
  destruct H as [[= <- <-]|H]; [|exact (R H)].
  exists l. split; [left; reflexivity|reflexivity].
Qed.

Lemma records_from_length i ls :
  (length (records_from i ls) <= length ls)%nat.
Proof.
  revert i. induction ls as [|l ls IH]; intros i; cbn [records_from length];
    [lia|].
  specialize (IH (S i)). destruct (is_blank (split comma l)); cbn [length]; lia.
Qed.

Lemma fit_all_count width index rs vs :
  fit_all width index rs = Ok vs -> length vs = length rs.
Proof.
  revert vs. induction rs as [|r rs IH]; intros vs; cbn [fit_all].
  - intros [= <-]. reflexivity.
  - destruct (fit width index r); [|discriminate].
    destruct (fit_all width index rs) as [ws|]; [|discriminate].
    intros [= <-]. cbn [length]. rewrite (IH ws eq_refl). reflexivity.
Qed.

Lemma read_csv_ok_archivo d ruta k t0 :
  read_csv d ruta k = Ok t0 ->
  exists f,
    d !! ruta = Some f /\ fault f = None
    /\ (S (len t0) <= length (lines f))%nat
    /\ exists l, In l (lines f)
                 /\ length (columns t0) = length (split comma l).
Proof.
  intros H. unfold read_csv, open_read in H.
  destruct (d !! ruta) as [f|]; [|discriminate H]. exists f.
  destruct (fault f); [discriminate H|].
  destruct (records (Z.to_nat k) (lines f)) as [|[i h] body] eqn:R;
    [discriminate H|].
  destruct (fit_all _ _ body) as [rs|] eqn:F; [|discriminate H].
  injection H as <-. split; [reflexivity|]. split; [reflexivity|].
  unfold records in R. split.
  - unfold len. cbn [rows]. rewrite (fit_all_count _ _ _ _ F).
    pose proof (records_from_length (S (Z.to_nat k))
                  (drop (Z.to_nat k) (lines f))) as L.
    rewrite R in L. cbn [length] in L. rewrite length_skipn in L. lia.
  - assert (Hin : In (i, h) (records_from (S (Z.to_nat k))
                                (drop (Z.to_nat k) (lines f))))
      by (rewrite R; left; reflexivity).
    destruct (records_from_In _ _ _ _ Hin) as (l & Hl & ->).
    exists l. split.
    + rewrite <- (firstn_skipn (Z.to_nat k) (lines f)).
      apply in_or_app. right. exact Hl.
    + cbn [columns snd]. unfold unnamed.
      rewrite length_mangle, length_unnamed_from. reflexivity.
Qed.

Lemma cargar_csv_ok_archivo ruta st t st' :
  cargar_csv ruta st = (Ok t, st') ->
  exists f,
    fs st !! ruta = Some f /\ fault f = None
    /\ (S (len t) <= length (lines f))%nat
    /\ exists l, In l (lines f)
                 /\ length (columns t) = length (split comma l).
Proof.
  intros H. pose proof (cargar_csv_casos ruta st) as C.
  destruct (fst (detectar_lineas_encabezado ruta st)) as [k|e];
    [|rewrite H in C; discriminate C].
  destruct (analizar ruta k (con_archivo ruta st)) as [[u|e] st1] eqn:A;
    [|rewrite H in C; discriminate C].
  assert (u = t).
  { destruct (fst (validar_datos st1)); rewrite H in C; congruence. }
  subst u. destruct (analizar_ok _ _ _ _ _ A) as (t0 & R & _ & -> & _).
  change (fs (con_archivo ruta st)) with (fs st) in R.
  destruct (read_csv_ok_archivo _ _ _ _ R) as (f & Hf & Hfault & Hlen & l & Hl & Hc).
  exists f. split; [exact Hf|]. split; [exact Hfault|]. split.
  - unfold len in *. cbn [rows]. rewrite length_map. exact Hlen.
  - exists l. split; [exact Hl|]. cbn [columns]. unfold str_strip.
    rewrite length_map. exact Hc.
Qed.

(** X7. A file in which no line has a comma is never loaded: whatever its
    lines hold, [cargar_csv] raises. *)
Theorem cargar_csv_sin_comas ruta st f :
  fs st !! ruta = Some f ->
  Forall (fun l => contains comma l = false) (lines f) ->
  is_raise (fst (cargar_csv ruta st)) = true.
Proof.
  intros Hf Hc.
  destruct (cargar_csv ruta st) as [[t|e] st'] eqn:H; [|reflexivity].
  exfalso.
  destruct (cargar_csv_ok_archivo _ _ _ _ H) as (f' & Hf' & _ & _ & l & Hl & E).
  rewrite Hf in Hf'. injection Hf' as <-.
  rewrite Forall_forall in Hc. rewrite (split_no_comma _ (Hc l Hl)) in E.
  destruct (cargar_csv_ok _ _ _ _ H) as (_ & _ & _ & Hv & _).
  apply Hv. left. rewrite E. cbn. lia.
Qed.

Lemma cargar_csv_sin_comas_witness :
  is_raise (fst (cargar_csv "osc.csv"
                   {| self := __init__;
                      fs := {[ "osc.csv" := text ["t"; "0.5"; "1.0"] ]} |}))
  = true.
Proof.
  refine (cargar_csv_sin_comas "osc.csv" _ (text ["t"; "0.5"; "1.0"]) _ _).
  - reflexivity.
  - repeat constructor.
Defined.

(** X8. Behind every loaded table there is a file that was read to its end
    without fault and that has more lines than the table has rows: no row
    is made up, and one line at least went to the header. *)
Theorem cargar_csv_exito_archivo ruta st t st' :
  cargar_csv ruta st = (Ok t, st') ->
  exists f,
    fs st !! ruta = Some f /\ fault f = None
    /\ (len t < length (lines f))%nat.
Proof.
  intros H.
  destruct (cargar_csv_ok_archivo _ _ _ _ H) as (f & Hf & Hfault & Hlen & _).
  exists f. split; [exact Hf|]. split; [exact Hfault|]. lia.
Qed.

Lemma cargar_csv_exito_archivo_witness :
  let st := {| self := __init__;
               fs := {[ "osc.csv" := text ["t,ch1"; "0.5,1.5"; "1.0,2.5"] ]} |}
  in
  exists f,
    fs st !! "osc.csv" = Some f /\ fault f = None
    /\ (2 < length (lines f))%nat.
Proof.
  intros st.
  refine (cargar_csv_exito_archivo "osc.csv" st
            {| columns := ["t"; "ch1"];
               rows := [[VNum 0.5; VNum 1.5]; [VNum 1; VNum 2.5]] |}
            (snd (cargar_csv "osc.csv" st)) _).
  vm_compute. reflexivity.
Defined.

(** ** Further properties of the conversion *)





Lemma map_coerce_numeric r :
  Forall (fun v => exists x, v = VNum x) r -> map coerce r = r.
Proof.
  intros H. apply map_id_Forall. eapply Forall_impl; [|exact H].
  intros v [x ->]. reflexivity.
Qed.

(** X10. Converting a loaded table again changes nothing: the conversion
    returns the same table and leaves the handler as it is. *)
Theorem convertir_a_numerico_idempotente ruta st0 t st :
  cargar_csv ruta st0 = (Ok t, st) ->
  convertir_a_numerico t st = (Ok t, st).
Proof.
  intros H.
  destruct (cargar_csv_ok _ _ _ _ H) as (-> & Hn & Hr & _ & _ & Hnum).
  set (st := con_df t (con_archivo ruta st0)).
  assert (F : fst (convertir_a_numerico t st) = Ok t).
  { unfold convertir_a_numerico.
    rewrite (convertir_columnas_ok [] (columns t) t st eq_refl Hn Hr).
    f_equal. rewrite <- (frame_eta t) at 3. f_equal.
    apply map_id_Forall. eapply Forall_impl; [|exact Hnum].
    intros r. apply map_coerce_numeric. }
  destruct (convertir_columnas_estado (columns t) t st eq_refl)
    as (t' & Hs & _ & _ & Hu).
  fold (convertir_a_numerico t st) in Hs, Hu.
  rewrite (surjective_pairing (convertir_a_numerico t st)), F, Hs.
  rewrite <- (Hu t F). reflexivity.
Qed.

Lemma convertir_a_numerico_idempotente_witness :
  let st0 := {| self := __init__;
                fs := {[ "osc.csv" := text ["t,ch1"; "0.5,x"; "1.0,2.5"] ]} |}
  in
  let t := {| columns := ["t"; "ch1"];
              rows := [[VNum 0.5; NaN]; [VNum 1; VNum 2.5]] |} in
  convertir_a_numerico t (snd (cargar_csv "osc.csv" st0))
  = (Ok t, snd (cargar_csv "osc.csv" st0)).
Proof.
  intros st0 t.
  refine (convertir_a_numerico_idempotente "osc.csv" st0 t _ _).
  vm_compute. reflexivity.
Defined.

(** ** Further properties of the validator *)

Lemma sum_cota (l : list nat) b :
  Forall (fun n => n <= b)%nat l -> (Pd.sum l <= length l * b)%nat.
Proof.
  induction 1 as [|n l Hn _ IH]; cbn [Pd.sum fold_right length]; [lia|].
  fold (Pd.sum l). lia.
Qed.

Lemma faltantes_cota t : (faltantes t <= celdas t)%nat.
Proof.
  unfold faltantes, celdas, isna_sum.
  set (f := fun j => length (filter isna (iloc_col t j))).
  assert (H : Forall (fun n => n <= len t)%nat
                     (map f (seq 0 (length (columns t))))).
  { apply Forall_map. apply Forall_forall. intros j _. subst f. cbn beta.
    rewrite <- (length_iloc_col t j). apply filter_length_le. }
  pose proof (sum_cota _ _ H) as S.
  rewrite length_map, length_seq in S. lia.
Qed.

(** X11. The missing cells never outnumber the cells, and when the
    validator rejects a table for its missing cells the percentage it
    prints lies between 50.0 and 100.0. *)
Theorem validar_datos_porcentaje st t :
  df (self st) = Some t ->
  (2 <= length (columns t))%nat -> (1 <= len t)%nat ->
  (celdas t < 2 * faltantes t)%nat ->
  (faltantes t <= celdas t)%nat
  /\ exists p,
       fst (validar_datos st) = Raise (Exn Exception (mensaje_invalidos p))
       /\ (500 <= decimas p <= 1000)%Z.
Proof.
  intros Hdf H2 H1 Hm. pose proof (faltantes_cota t) as Hk.
  split; [exact Hk|].
  assert (Hc : celdas t <> 0%nat) by (unfold celdas; nia).
  destruct (porcentaje_nan_some t Hc) as (p & Hp & Hpe).
  exists p. split.
  - rewrite (validar_datos_some _ _ Hdf).
    destruct (length (columns t) <? 2)%nat eqn:E2;
      [apply Nat.ltb_lt in E2; lia|].
    destruct (len t =? 0)%nat eqn:E0; [apply Nat.eqb_eq in E0; lia|].
    rewrite Hp, (proj2 (Qgtb_porcentaje t p Hc Hpe) Hm). reflexivity.
  - pose proof (decimas_cerca p) as D.
    unfold Qeq, porcentaje in Hpe. cbn [Qnum Qden] in Hpe.
    set (k := Z.of_nat (faltantes t)) in *.
    set (n := Z.pos (Pos.of_nat (celdas t))) in *.
    assert (Hn : n = Z.of_nat (celdas t)).
    { subst n. destruct (celdas t) as [|c]; [congruence|].
      rewrite <- Pos.of_nat_succ, Zpos_P_of_succ_nat. lia. }
    rewrite Nat2Z.inj_mul in Hpe. fold k in Hpe.
    change (Z.of_nat 100) with 100%Z in Hpe.
    set (num := Qnum p) in *. set (den := Z.pos (Qden p)) in *.
    set (d := decimas p) in *.
    assert (Hden : (0 < den)%Z) by (subst den; lia).
    assert (Hkn : (n < 2 * k)%Z /\ (k <= n)%Z /\ (0 < n)%Z) by lia.
    clearbody k n num den d. clear - D Hpe Hden Hkn.
    destruct Hkn as (Hlt & Hle & Hpos).
    assert (A : (2 * Z.abs (d * den * n - 10 * num * n) <= den * n)%Z).
    { replace (d * den * n - 10 * num * n)%Z
        with ((d * den - 10 * num) * n)%Z by ring.
      rewrite Z.abs_mul, (Z.abs_eq n) by lia. nia. }
    replace (10 * num * n)%Z with (1000 * k * den)%Z in A by lia.
    assert (B : (2 * Z.abs ((d * n - 1000 * k) * den) <= n * den)%Z).
    { replace ((d * n - 1000 * k) * den)%Z
        with (d * den * n - 1000 * k * den)%Z by ring. lia. }
    rewrite Z.abs_mul, (Z.abs_eq den) in B by lia.
    assert (C : (2 * Z.abs (d * n - 1000 * k) <= n)%Z) by nia.
    split; nia.
Qed.

Lemma validar_datos_porcentaje_witness :
  let t := {| columns := ["t"; "ch1"; "ch2"];
              rows := [[VNum 0.5; NaN; NaN]] |} in
  exists p,
    fst (validar_datos {| self := {| df := Some t; archivo_actual := None |};
                          fs := ∅ |})
    = Raise (Exn Exception (mensaje_invalidos p))
    /\ (500 <= decimas p <= 1000)%Z.
Proof.
  intros t.
  refine (proj2 (validar_datos_porcentaje
                   {| self := {| df := Some t; archivo_actual := None |};
                      fs := ∅ |} t eq_refl _ _ _));
    vm_compute; lia.
Defined.

(** ** Further properties of the export *)

(** X12. The export never changes the handler, and on the disk it touches
    the output path only; when it raises it has written nothing. *)
Theorem exportar_solo_escribe columnas ruta st :
  self (snd (exportar_datos_filtrados columnas ruta st)) = self st
  /\ (forall p, p <> ruta ->
                fs (snd (exportar_datos_filtrados columnas ruta st)) !! p
                = fs st !! p)
  /\ (forall e, fst (exportar_datos_filtrados columnas ruta st) = Raise e ->
                snd (exportar_datos_filtrados columnas ruta st) = st).
Proof.
  unfold exportar_datos_filtrados. run.
  destruct (df (self st)) as [t|].
  2:{ repeat split; reflexivity. }
  destruct (primera (columns t)) as [c0|e0].
  2:{ repeat split; reflexivity. }
  destruct (getitem_list t _) as [sub|e1].
  2:{ repeat split; reflexivity. }
  cbn [fst snd self fs]. split; [reflexivity|]. split.
  - intros p Hp. apply lookup_insert_ne. congruence.
  - discriminate.
Qed.

Lemma exportar_solo_escribe_witness :
  let t := {| columns := ["t"; "ch1"]; rows := [[VNum 0.5; VNum 1.5]] |} in
  let st := {| self := {| df := Some t; archivo_actual := None |};
               fs := {[ "otro.csv" := text ["x,y"] ]} |} in
  fs (snd (exportar_datos_filtrados ["ch1"] "sal.csv" st)) !! "otro.csv"
  = Some (text ["x,y"]).
Proof.
  intros t st.
  rewrite (proj1 (proj2 (exportar_solo_escribe ["ch1"] "sal.csv" st))
             "otro.csv" ltac:(discriminate)).
  vm_compute. reflexivity.
Defined.

(** ** What [repr] and [to_csv] write *)

Lemma contains_app c a b :
  contains c (a ++ b)%string = contains c a || contains c b.
Proof.
  induction a as [|d r IH]; [reflexivity|].
  change (String d r ++ b)%string with (String d (r ++ b)%string).
  cbn [contains]. rewrite IH. apply orb_assoc.
Qed.

Lemma zeros_no_comma n : contains comma (zeros n) = false.
Proof. induction n as [|n IH]; [reflexivity|]. exact IH. Qed.

Lemma substring_no_comma n m s :
  contains comma s = false -> contains comma (String.substring n m s) = false.
Proof.
  revert n m. induction s as [|c r IH]; intros n m H.
  - destruct n, m; reflexivity.
  - cbn [contains] in H. apply orb_false_iff in H as [Hc Hr].
    destruct n as [|n]; destruct m as [|m]; cbn [String.substring contains];
      try reflexivity.
    + rewrite Hc. apply (IH 0%nat m Hr).
    + apply (IH n 0%nat Hr).
    + apply (IH n (S m) Hr).
Qed.

Lemma pretty_N_char_no_comma x : Ascii.eqb (pretty_N_char x) comma = false.
Proof. unfold pretty_N_char. repeat case_match; reflexivity. Qed.

Lemma pretty_N_go_no_comma x s :
  contains comma s = false -> contains comma (pretty_N_go x s) = false.
Proof.
  revert s. induction (N.lt_wf_0 x) as [x _ IH]. intros s H.
  destruct (N.eq_dec x 0) as [->|Hx]; [exact H|].
  rewrite pretty_N_go_step by lia. apply IH.
  - apply N.div_lt; lia.
  - cbn [contains]. rewrite pretty_N_char_no_comma. exact H.
Qed.

Lemma pretty_Z_no_comma (z : Z) : contains comma (pretty z) = false.
Proof.
  assert (P : forall n : N, contains comma (pretty n) = false).
  { intros n. unfold pretty, pretty_N. case_decide; [reflexivity|].
    apply pretty_N_go_no_comma. reflexivity. }
  destruct z as [|p|p].
  - reflexivity.
  - apply (P (N.pos p)).
  - change (pretty (Z.neg p)) with (String "-" (pretty (N.pos p))).
    cbn [contains]. apply (P (N.pos p)).
Qed.

Lemma layout_no_comma ds k :
  contains comma ds = false -> contains comma (layout ds k) = false.
Proof.
  intros H. unfold layout.
  destruct ((-4 <? k)%Z && (k <=? 16)%Z).
  - destruct (k <=? 0)%Z; [|destruct (_ <=? k)%Z];
      rewrite ?contains_app, ?zeros_no_comma, ?H; try reflexivity.
    unfold substring_from. rewrite !substring_no_comma by exact H.
    reflexivity.
  - cbv zeta. rewrite !contains_app.
    assert (M : contains comma
                  match ds with
                  | String c EmptyString => String c EmptyString
                  | String c r => String c ("." ++ r)
                  | EmptyString => EmptyString
                  end = false).
    { destruct ds as [|c [|d r]]; [reflexivity|exact H|].
      cbn [contains] in H |- *. apply orb_false_iff in H as [-> H].
      cbn [String.append contains orb]. exact H. }
    rewrite M. cbn [contains orb].
    destruct (_ <? 0)%Z; destruct (_ <? 10)%Z;
      rewrite ?contains_app, ?pretty_Z_no_comma; reflexivity.
Qed.

Lemma repr_no_comma x : contains comma (Py.repr x) = false.
Proof.
  unfold Py.repr. destruct (PrimFloat.is_nan x); [reflexivity|].
  cbv zeta. destruct (magnitude x) as [[n d]|].
  - destruct (shortest 16 1 x n d) as [D k].
    rewrite contains_app, (layout_no_comma _ _ (pretty_Z_no_comma D)).
    destruct (PrimFloat.get_sign x); reflexivity.
  - rewrite contains_app.
    destruct (PrimFloat.get_sign x); destruct (PrimFloat.is_infinity x);
      reflexivity.
Qed.

Lemma field_numeric_no_comma v :
  (exists x, v = VNum x) -> contains comma (field v) = false.
Proof.
  intros [x ->]. cbn [field]. destruct (PrimFloat.is_nan x); [reflexivity|].
  apply repr_no_comma.
Qed.

Lemma csv_line_campos fields :
  fields <> [] ->
  Forall (fun f => contains comma f = false) fields ->
  length (split comma (csv_line fields)) = length fields.
Proof.
  intros Hne H. destruct fields as [|f [|g fs]]; [congruence| |].
  - destruct f as [|c r]; [reflexivity|].
    change (csv_line [String c r]) with (String c r).
    rewrite (split_no_comma _ (Forall_inv H)). reflexivity.
  - rewrite csv_line_join by (cbn; lia).
    rewrite (split_join _ Hne H). reflexivity.
Qed.

Lemma take_numeric t js :
  Forall (Forall (fun v => exists x, v = VNum x)) (rows t) ->
  Forall (Forall (fun v => exists x, v = VNum x)) (rows (take t js)).
Proof.
  intros H. cbn [take rows]. apply Forall_map.
  eapply Forall_impl; [|exact H]. intros r Hr. cbn beta.
  apply Forall_map. apply Forall_forall. intros j _. cbn beta.
  destruct (nth_in_or_default j r NaN) as [Hin | ->].
  - rewrite Forall_forall in Hr. apply Hr, Hin.
  - eexists. reflexivity.
Qed.

Lemma to_csv_campos sub :
  columns sub <> [] ->
  Forall escribible (columns sub) ->
  rectangular sub ->
  Forall (Forall (fun v => exists x, v = VNum x)) (rows sub) ->
  Forall (fun l => length (split comma l) = length (columns sub))
         (lines (to_csv sub)).
Proof.
  intros Hne He Hr Hnum. cbn [to_csv text lines]. constructor.
  - rewrite csv_line_campos, length_map; [reflexivity| |].
    + destruct (columns sub); [congruence|discriminate].
    + apply Forall_map. eapply Forall_impl; [|exact He].
      intros l Hl. cbn beta. rewrite (quote_escribible _ Hl).
      apply escribible_no_comma, Hl.
  - apply Forall_map. unfold rectangular in Hr.
    rewrite Forall_forall in Hr, Hnum. apply Forall_forall. intros r Hin.
    cbn beta. rewrite csv_line_campos, length_map; [apply Hr, Hin| |].
    + specialize (Hr r Hin). destruct r; [|discriminate].
      destruct (columns sub); [congruence|discriminate].
    + apply Forall_map. eapply Forall_impl; [|exact (Hnum r Hin)].
      intros v. apply field_numeric_no_comma.
Qed.

Lemma take_rectangular t js : rectangular (take t js).
Proof.
  unfold rectangular. cbn [take rows columns]. apply Forall_map.
  apply Forall_forall. intros r _. cbn beta. rewrite !length_map.
  reflexivity.
Qed.

Lemma exportar_seleccion columnas ruta st t c0 cs :
  df (self st) = Some t -> columns t = c0 :: cs -> NoDup (columns t) ->
  (forall c, In c columnas -> In c (columns t)) ->
  let sel := if existsb (String.eqb c0) columnas then columnas
             else c0 :: columnas in
  exists js,
    exportar_datos_filtrados columnas ruta st
    = (Ok tt, {| self := self st;
                 fs := <[ruta := to_csv (take t js)]> (fs st) |})
    /\ columns (take t js) = sel.
Proof.
  intros Hdf Hc Hn Hin sel.
  rewrite (exportar_con_datos _ _ _ _ _ _ Hdf Hc). fold sel.
  assert (Hsel : forall c, In c sel -> In c (columns t)).
  { subst sel. destruct (existsb _ columnas); [exact Hin|].
    intros c [<-|H]; [rewrite Hc; left; reflexivity|apply Hin, H]. }
  destruct (label_positions_NoDup t sel Hn Hsel) as (js & Hjs & Hm).
  unfold getitem_list. rewrite Hjs. exists js.
  split; [reflexivity|apply (take_columns _ _ _ Hm)].
Qed.

(** X13. The file the export writes from a table of floats with distinct,
    plainly written labels is a well-formed table: it has no fault, one
    line for the header and one for every row of the table, and every line
    has exactly as many comma-separated fields as there are columns
    written (the requested ones, with the first column of the table put in
    front when the request left it out). *)
Theorem exportar_forma columnas ruta st t c0 cs :
  df (self st) = Some t -> columns t = c0 :: cs -> NoDup (columns t) ->
  Forall escribible (columns t) ->
  Forall (Forall (fun v => exists x, v = VNum x)) (rows t) ->
  (forall c, In c columnas -> In c (columns t)) ->
  exists f,
    exportar_datos_filtrados columnas ruta st
    = (Ok tt, {| self := self st; fs := <[ruta := f]> (fs st) |})
    /\ fault f = None
    /\ length (lines f) = S (len t)
    /\ Forall (fun l =>
                 length (split comma l)
                 = length (if existsb (String.eqb c0) columnas then columnas
                           else c0 :: columnas))
              (lines f).
Proof.
  intros Hdf Hc Hn He Hnum Hin.
  destruct (exportar_seleccion columnas ruta st t c0 cs Hdf Hc Hn Hin)
    as (js & Hx & Hcols).
  exists (to_csv (take t js)). split; [exact Hx|]. split; [reflexivity|].
  split.
  - cbn [to_csv text lines take rows length]. rewrite !length_map.
    reflexivity.
  - rewrite <- Hcols. apply to_csv_campos.
    + rewrite Hcols. destruct (existsb (String.eqb c0) columnas) eqn:E;
        [|discriminate].
      destruct columnas; [discriminate E|discriminate].
    + rewrite Hcols. apply Forall_forall. intros c Hc'.
      rewrite Forall_forall in He. apply He.
      destruct (existsb (String.eqb c0) columnas); [apply Hin, Hc'|].
      destruct Hc' as [<-|Hc']; [rewrite Hc; left; reflexivity|apply Hin, Hc'].
    + apply take_rectangular.
    + apply take_numeric, Hnum.
Qed.

Lemma exportar_forma_witness :
  let t := {| columns := ["t"; "ch1"; "ch2"];
              rows := [[VNum 0.5; VNum 1.5; NaN]; [VNum 1; NaN; VNum 2.5]] |}
  in
  let st := {| self := {| df := Some t; archivo_actual := None |};
               fs := ∅ |} in
  exists f,
    exportar_datos_filtrados ["ch2"] "sal.csv" st
    = (Ok tt, {| self := self st; fs := <["sal.csv" := f]> (fs st) |})
    /\ fault f = None
    /\ length (lines f) = 3%nat
    /\ Forall (fun l => length (split comma l) = 2%nat) (lines f).
Proof.
  intros t st.
  refine (exportar_forma ["ch2"] "sal.csv" st t "t" ["ch1"; "ch2"]
            eq_refl eq_refl _ _ _ _).
  - repeat constructor; cbn; intuition discriminate.
  - repeat constructor; discriminate.
  - repeat constructor; eexists; reflexivity.
  - cbn. intros c [<-|[]]. auto.
Defined.

(** X14. Take a loaded table whose first label is written as it is (not
    empty, no comma, quote or line break). Exporting it with no channel
    requested, or with its first column alone, succeeds and writes the
    first column alone: a header line that is the first label and one
    line per row, each line a single field. That file is not one the
    loader accepts: loading it back raises. *)
Theorem exportar_sin_canales_no_recarga ruta0 st0 t st columnas ruta :
  cargar_csv ruta0 st0 = (Ok t, st) ->
  escribible (hd EmptyString (columns t)) ->
  columnas = [] \/ columnas = [hd EmptyString (columns t)] ->
  exists f,
    exportar_datos_filtrados columnas ruta st
    = (Ok tt, {| self := self st; fs := <[ruta := f]> (fs st) |})
    /\ fault f = None
    /\ hd EmptyString (lines f) = hd EmptyString (columns t)
    /\ length (lines f) = S (len t)
    /\ Forall (fun l => length (split comma l) = 1%nat) (lines f)
    /\ is_raise
         (fst (cargar_csv ruta
                 {| self := self st; fs := <[ruta := f]> (fs st) |}))
       = true.
Proof.
  intros H He Hcs.
  destruct (cargar_csv_ok _ _ _ _ H) as (Hst & Hn & _ & Hv & _ & Hnum).
  assert (Hdf : df (self st) = Some t) by (rewrite Hst; reflexivity).
  destruct (columns t) as [|c0 cs] eqn:Hc.
  { exfalso. apply Hv. left. rewrite Hc. cbn. lia. }
  cbn [hd] in He, Hcs |- *. rewrite <- Hc in Hn.
  assert (Hin : forall c, In c columnas -> In c (columns t)).
  { destruct Hcs as [-> | ->]; [intros c []|].
    intros c [<-|[]]. rewrite Hc. left. reflexivity. }
  destruct (exportar_seleccion columnas ruta st t c0 cs Hdf Hc Hn Hin)
    as (js & Hx & Hcols).
  assert (Hsel : columns (take t js) = [c0]).
  { rewrite Hcols. destruct Hcs as [-> | ->]; [reflexivity|].
    cbn [existsb]. rewrite String.eqb_refl. reflexivity. }
  assert (F : Forall (fun l => length (split comma l) = 1%nat)
                     (lines (to_csv (take t js)))).
  { change 1%nat with (length [c0]). rewrite <- Hsel. apply to_csv_campos.
    - rewrite Hsel. discriminate.
    - rewrite Hsel. constructor; [exact He|constructor].
    - apply take_rectangular.
    - apply take_numeric, Hnum. }
  exists (to_csv (take t js)). split; [exact Hx|]. split; [reflexivity|].
  split.
  { cbn [to_csv text lines hd]. rewrite Hsel. cbn [map].
    rewrite (quote_escribible _ He). destruct He as [Hne _].
    destruct c0; [congruence|reflexivity]. }
  split.
  { cbn [to_csv text lines take rows length]. rewrite !length_map.
    reflexivity. }
  split; [exact F|].
  set (st1 := {| self := self st;
                 fs := <[ruta := to_csv (take t js)]> (fs st) |}).
  destruct (cargar_csv ruta st1) as [[u|e] st2] eqn:L; [|reflexivity].
  exfalso.
  destruct (cargar_csv_ok_archivo _ _ _ _ L)
    as (f & Hf & _ & _ & l & Hl & E).
  subst st1. cbn [fs] in Hf. rewrite lookup_insert_eq in Hf.
  injection Hf as <-.
  rewrite Forall_forall in F. rewrite (F l Hl) in E.
  destruct (cargar_csv_ok _ _ _ _ L) as (_ & _ & _ & Hv' & _).
  apply Hv'. left. rewrite E. cbn. lia.
Qed.

Lemma exportar_sin_canales_no_recarga_witness :
  let st0 := {| self := __init__;
                fs := {[ "osc.csv" := text ["t,ch1"; "0.5,1.5"; "1.0,2.5"] ]} |}
  in
  let st := snd (cargar_csv "osc.csv" st0) in
  exists f,
    exportar_datos_filtrados [] "sal.csv" st
    = (Ok tt, {| self := self st; fs := <["sal.csv" := f]> (fs st) |})
    /\ fault f = None
    /\ hd EmptyString (lines f) = "t"
    /\ length (lines f) = 3%nat
    /\ Forall (fun l => length (split comma l) = 1%nat) (lines f)
    /\ is_raise
         (fst (cargar_csv "sal.csv"
                 {| self := self st; fs := <["sal.csv" := f]> (fs st) |}))
       = true.
Proof.
  intros st0 st.
  refine (exportar_sin_canales_no_recarga "osc.csv" st0
            {| columns := ["t"; "ch1"];
               rows := [[VNum 0.5; VNum 1.5]; [VNum 1; VNum 2.5]] |}
            st [] "sal.csv" _ _ _).
  - vm_compute. reflexivity.
  - split; [discriminate|reflexivity].
  - left. reflexivity.
Defined.

(** ** Order of the floats and the extremes of a column *)

Ltac comparar :=
  repeat match goal with
         | |- context [Z.compare ?a ?b] => destruct (Z.compare_spec a b)
         | H : context [Z.compare ?a ?b] |- _ => destruct (Z.compare_spec a b)
         | |- context [Pos.compare_cont Eq ?a ?b] =>
             change (Pos.compare_cont Eq a b) with (Pos.compare a b);
             destruct (Pos.compare_spec a b)
         | H : context [Pos.compare_cont Eq ?a ?b] |- _ =>
             change (Pos.compare_cont Eq a b) with (Pos.compare a b) in H;
             destruct (Pos.compare_spec a b)
         end;
  cbn [CompOpp] in *; try discriminate; try reflexivity; try lia.

Lemma SFleb_trans a b c :
  SFleb a b = true -> SFleb b c = true -> SFleb a c = true.
Proof.
  unfold SFleb, SFcompare.
  destruct a as [sa|sa| |sa ma ea]; destruct b as [sb|sb| |sb mb eb];
    destruct c as [sc|sc| |sc mc ec];
    try discriminate; try reflexivity;
    repeat match goal with s : bool |- _ => destruct s end;
    try discriminate; try reflexivity; intros Hab Hbc; comparar.
Qed.

Lemma SFleb_total a b :
  a <> S754_nan -> b <> S754_nan -> SFltb b a = false -> SFleb a b = true.
Proof.
  unfold SFleb, SFltb, SFcompare.
  destruct a as [sa|sa| |sa ma ea]; destruct b as [sb|sb| |sb mb eb];
    try congruence; try reflexivity; intros _ _;
    repeat match goal with s : bool |- _ => destruct s end;
    try discriminate; try reflexivity; intros Hba; comparar.
Qed.

Lemma SFltb_leb a b : SFltb a b = true -> SFleb a b = true.
Proof.
  unfold SFleb, SFltb. destruct (SFcompare a b) as [[]|]; congruence.
Qed.

Lemma SFleb_refl a : a <> S754_nan -> SFleb a a = true.
Proof.
  unfold SFleb, SFcompare.
  destruct a as [sa|sa| |sa ma ea]; try congruence; try reflexivity;
    intros _; destruct sa; try reflexivity;
    rewrite Z.compare_refl;
    change (Pos.compare_cont Eq ma ma) with (Pos.compare ma ma);
    rewrite Pos.compare_refl; reflexivity.
Qed.

Lemma presente_no_nan x : PrimFloat.is_nan x = false -> Prim2SF x <> S754_nan.
Proof.
  unfold PrimFloat.is_nan. rewrite eqb_spec. intros H E. rewrite E in H.
  discriminate H.
Qed.

Lemma leb_trans x y z :
  PrimFloat.leb x y = true -> PrimFloat.leb y z = true ->
  PrimFloat.leb x z = true.
Proof. rewrite !leb_spec. apply SFleb_trans. Qed.

Lemma leb_refl x : PrimFloat.is_nan x = false -> PrimFloat.leb x x = true.
Proof. intros H. rewrite leb_spec. apply SFleb_refl, presente_no_nan, H. Qed.

Lemma ltb_leb x y : PrimFloat.ltb x y = true -> PrimFloat.leb x y = true.
Proof. rewrite ltb_spec, leb_spec. apply SFltb_leb. Qed.

Lemma leb_total x y :
  PrimFloat.is_nan x = false -> PrimFloat.is_nan y = false ->
  PrimFloat.ltb y x = false -> PrimFloat.leb x y = true.
Proof.
  intros Hx Hy. rewrite ltb_spec, leb_spec.
  apply SFleb_total; apply presente_no_nan; assumption.
Qed.

Lemma s_min_cota l :
  Forall (fun x => PrimFloat.is_nan x = false) l ->
  Forall (fun x => PrimFloat.leb (s_min l) x = true) l.
Proof.
  destruct l as [|a r]; [constructor|]. cbn [s_min].
  revert a. induction r as [|y r IH]; intros a H.
  - cbn [fold_left]. constructor; [|constructor].
    apply leb_refl, (Forall_inv H).
  - pose proof (Forall_inv H) as Ha.
    pose proof (Forall_inv (Forall_inv_tail H)) as Hy.
    pose proof (Forall_inv_tail (Forall_inv_tail H)) as Hr.
    cbn [fold_left]. set (a' := if PrimFloat.ltb y a then y else a).
    assert (Ha' : PrimFloat.is_nan a' = false)
      by (subst a'; destruct (PrimFloat.ltb y a); assumption).
    specialize (IH a' (Forall_cons _ _ _ Ha' Hr)).
    pose proof (Forall_inv IH) as Hm. pose proof (Forall_inv_tail IH) as Hrest.
    assert (La : PrimFloat.leb a' a = true).
    { subst a'. destruct (PrimFloat.ltb y a) eqn:E;
        [apply ltb_leb, E|apply leb_refl, Ha]. }
    assert (Ly : PrimFloat.leb a' y = true).
    { subst a'. destruct (PrimFloat.ltb y a) eqn:E;
        [apply leb_refl, Hy|apply (leb_total _ _ Ha Hy E)]. }
    constructor; [exact (leb_trans _ _ _ Hm La)|].
    constructor; [exact (leb_trans _ _ _ Hm Ly)|exact Hrest].
Qed.

Lemma s_max_cota l :
  Forall (fun x => PrimFloat.is_nan x = false) l ->
  Forall (fun x => PrimFloat.leb x (s_max l) = true) l.
Proof.
  destruct l as [|a r]; [constructor|]. cbn [s_max].
  revert a. induction r as [|y r IH]; intros a H.
  - cbn [fold_left]. constructor; [|constructor].
    apply leb_refl, (Forall_inv H).
  - pose proof (Forall_inv H) as Ha.
    pose proof (Forall_inv (Forall_inv_tail H)) as Hy.
    pose proof (Forall_inv_tail (Forall_inv_tail H)) as Hr.
    cbn [fold_left]. set (a' := if PrimFloat.ltb a y then y else a).
    assert (Ha' : PrimFloat.is_nan a' = false)
      by (subst a'; destruct (PrimFloat.ltb a y); assumption).
    specialize (IH a' (Forall_cons _ _ _ Ha' Hr)).
    pose proof (Forall_inv IH) as Hm. pose proof (Forall_inv_tail IH) as Hrest.
    assert (La : PrimFloat.leb a a' = true).
    { subst a'. destruct (PrimFloat.ltb a y) eqn:E;
        [apply ltb_leb, E|apply leb_refl, Ha]. }
    assert (Ly : PrimFloat.leb y a' = true).
    { subst a'. destruct (PrimFloat.ltb a y) eqn:E;
        [apply leb_refl, Hy|apply (leb_total _ _ Hy Ha E)]. }
    constructor; [exact (leb_trans _ _ _ La Hm)|].
    constructor; [exact (leb_trans _ _ _ Ly Hm)|exact Hrest].
Qed.

Lemma presentes_no_nan ys :
  Forall (fun x => PrimFloat.is_nan x = false)
         (filter (fun x => negb (PrimFloat.is_nan x)) ys).
Proof.
  apply Forall_forall. intros x Hx. apply filter_In in Hx as [_ Hx].
  apply negb_true_iff, Hx.
Qed.

Lemma estadisticas_columna columna st t j ys :
  df (self st) = Some t -> positions t columna = [j] ->
  floats (iloc_col t j) = Some ys ->
  obtener_estadisticas columna st
  = (Ok (Some (Escalar
                 (reducir (filter (fun x => negb (PrimFloat.is_nan x)) ys)))),
     st).
Proof.
  intros Hdf Hp Hys. unfold obtener_estadisticas. run. rewrite Hdf.
  assert (E : existsb (String.eqb columna) (columns t) = true).
  { apply existsb_eqb_In, positions_In. rewrite Hp. discriminate. }
  rewrite E. cbn [negb]. unfold getitem. rewrite Hp.
  unfold numericos. rewrite (floats_dropna _ _ Hys). reflexivity.
Qed.

(** X15. On a numeric column with at least one value present, the minimum
    and the maximum that [obtener_estadisticas] returns are values of the
    column, no value present is below the minimum and none is above the
    maximum; a missing value is never returned as an extreme. *)
Theorem obtener_estadisticas_extremos columna st t j ys x0 :
  df (self st) = Some t -> positions t columna = [j] ->
  floats (iloc_col t j) = Some ys ->
  In x0 ys -> PrimFloat.is_nan x0 = false ->
  exists e,
    obtener_estadisticas columna st = (Ok (Some (Escalar e)), st)
    /\ In (minimo e) ys /\ In (maximo e) ys
    /\ PrimFloat.is_nan (minimo e) = false
    /\ PrimFloat.is_nan (maximo e) = false
    /\ forall x, In x ys -> PrimFloat.is_nan x = false ->
                 PrimFloat.leb (minimo e) x = true
                 /\ PrimFloat.leb x (maximo e) = true.
Proof.
  intros Hdf Hp Hys H0 N0.
  set (datos := filter (fun x => negb (PrimFloat.is_nan x)) ys).
  exists (reducir datos).
  split; [apply (estadisticas_columna _ _ _ _ _ Hdf Hp Hys)|].
  cbn [reducir minimo maximo].
  assert (Hne : datos <> []).
  { intros E. assert (Hin : In x0 datos).
    { apply filter_In. split; [exact H0|]. rewrite N0. reflexivity. }
    rewrite E in Hin. destruct Hin. }
  pose proof (presentes_no_nan ys) as Hp'. fold datos in Hp'.
  rewrite Forall_forall in Hp'.
  pose proof (s_min_In datos Hne) as Imin.
  pose proof (s_max_In datos Hne) as Imax.
  repeat split.
  - apply filter_In in Imin. apply Imin.
  - apply filter_In in Imax. apply Imax.
  - apply Hp', Imin.
  - apply Hp', Imax.
  - pose proof (s_min_cota datos (presentes_no_nan ys)) as B.
    rewrite Forall_forall in B. apply B. apply filter_In.
    split; [assumption|]. apply negb_true_iff. assumption.
  - pose proof (s_max_cota datos (presentes_no_nan ys)) as B.
    rewrite Forall_forall in B. apply B. apply filter_In.
    split; [assumption|]. apply negb_true_iff. assumption.
Qed.

Lemma obtener_estadisticas_extremos_witness :
  let t := {| columns := ["t"; "ch1"];
              rows := [[VNum 0; VNum 1.5]; [VNum 1; NaN];
                       [VNum 2; VNum (-0.5)]] |} in
  let st := {| self := {| df := Some t; archivo_actual := None |};
               fs := ∅ |} in
  exists e,
    obtener_estadisticas "ch1" st = (Ok (Some (Escalar e)), st)
    /\ In (minimo e) [1.5; nan; -0.5]%float
    /\ In (maximo e) [1.5; nan; -0.5]%float
    /\ PrimFloat.is_nan (minimo e) = false
    /\ PrimFloat.is_nan (maximo e) = false
    /\ forall x, In x [1.5; nan; -0.5]%float -> PrimFloat.is_nan x = false ->
                 PrimFloat.leb (minimo e) x = true
                 /\ PrimFloat.leb x (maximo e) = true.
Proof.
  intros t st.
  refine (obtener_estadisticas_extremos "ch1" st t 1%nat
            [1.5; nan; -0.5]%float 1.5%float
            eq_refl eq_refl eq_refl _ eq_refl).
  left. reflexivity.
Defined.

(** X16. The statistics of a column in which every value is missing are
    all NaN, and the standard deviation of a column with a single value
    present is NaN as well; neither case raises. *)
Theorem obtener_estadisticas_sin_valores columna st t j ys :
  df (self st) = Some t -> positions t columna = [j] ->
  floats (iloc_col t j) = Some ys ->
  exists e,
    obtener_estadisticas columna st = (Ok (Some (Escalar e)), st)
    /\ (Forall (fun x => PrimFloat.is_nan x = true) ys ->
        PrimFloat.is_nan (minimo e) = true
        /\ PrimFloat.is_nan (maximo e) = true
        /\ PrimFloat.is_nan (promedio e) = true
        /\ PrimFloat.is_nan (std e) = true
        /\ PrimFloat.is_nan (mediana e) = true
        /\ PrimFloat.is_nan (vpp e) = true)
    /\ (length (filter (fun x => negb (PrimFloat.is_nan x)) ys) = 1%nat ->
        PrimFloat.is_nan (std e) = true).
Proof.
  intros Hdf Hp Hys.
  set (datos := filter (fun x => negb (PrimFloat.is_nan x)) ys).
  exists (reducir datos).
  split; [apply (estadisticas_columna _ _ _ _ _ Hdf Hp Hys)|]. split.
  - intros Hall. assert (E : datos = []).
    { subst datos. clear Hys.
      induction Hall as [|x r Hx _ IH]; [reflexivity|].
      cbn [filter]. rewrite Hx. exact IH. }
    rewrite E. vm_compute. repeat split; reflexivity.
  - intros H1. destruct datos as [|x [|y r]]; try discriminate H1.
    reflexivity.
Qed.

Lemma obtener_estadisticas_sin_valores_witness :
  let t := {| columns := ["t"; "ch1"];
              rows := [[VNum 0; NaN]; [VNum 1; NaN]] |} in
  let st := {| self := {| df := Some t; archivo_actual := None |};
               fs := ∅ |} in
  exists e,
    obtener_estadisticas "ch1" st = (Ok (Some (Escalar e)), st)
    /\ PrimFloat.is_nan (minimo e) = true
    /\ PrimFloat.is_nan (promedio e) = true
    /\ PrimFloat.is_nan (vpp e) = true.
Proof.
  intros t st.
  destruct (obtener_estadisticas_sin_valores "ch1" st t 1%nat [nan; nan]%float
              eq_refl eq_refl eq_refl) as (e & H & Hall & _).
  exists e. split; [exact H|].
  destruct Hall as (A & _ & B & _ & _ & C); [repeat constructor|].
  repeat split; assumption.
Defined.

(** ** The statistics of a column *)











(** ** The plotter *)

Lemma color_en_mod i :
  color_en (i mod length colores)
  = Ok (nth (i mod 10) colores EmptyString).
Proof.
  unfold color_en. change (length colores) with 10%nat.
  pose proof (Nat.mod_upper_bound i 10 ltac:(lia)) as B.
  destruct (nth_error colores (i mod 10)) as [c|] eqn:E.
  - f_equal. symmetry. apply nth_error_nth. exact E.
  - apply nth_error_None in E. change (length colores) with 10%nat in E. lia.
Qed.

Lemma getitem_raise t col e :
  getitem t col = Raise e -> ~ In col (columns t) /\ e = Exn KeyError col.
Proof.
  unfold getitem. destruct (positions t col) as [|j [|k js]] eqn:P;
    try discriminate.
  intros [= <-]. split; [|reflexivity]. apply positions_from_nil in P.
  exact P.
Qed.

Lemma getitem_In t col : In col (columns t) -> exists s, getitem t col = Ok s.
Proof.
  intros H. destruct (getitem t col) as [s|e] eqn:G; [exists s; reflexivity|].
  exfalso. apply (proj1 (getitem_raise _ _ _ G)), H.
Qed.

(** The loop draws the channels in order, each on top of what the axes
    hold, and stops at the first channel that is no column. *)
Lemma graficar_desde_spec canales : forall i t tiempo ax,
  exists nuevos,
    snd (graficar_desde i canales t tiempo ax)
    = {| trazos := trazos ax ++ nuevos; title := title ax;
         xlabel := xlabel ax; ylabel := ylabel ax; grid := grid ax;
         legend := legend ax |}
    /\ (forall n tr,
          nth_error nuevos n = Some tr ->
          exists canal,
            nth_error canales n = Some canal /\ xdata tr = tiempo
            /\ getitem t canal = Ok (ydata tr)
            /\ label tr = Some ("Canal " ++ canal)%string
            /\ color tr = nth ((i + n) mod 10) colores EmptyString)
    /\ match fst (graficar_desde i canales t tiempo ax) with
       | Ok _ => length nuevos = length canales
       | Raise e =>
           exists canal,
             nth_error canales (length nuevos) = Some canal
             /\ ~ In canal (columns t) /\ e = Exn KeyError canal
       end.
Proof.
  induction canales as [|canal resto IH]; intros i t tiempo ax.
  - exists []. cbn [graficar_desde fst snd]. rewrite app_nil_r.
    split; [destruct ax; reflexivity|].
    split; [intros [|n] tr; discriminate|reflexivity].
  - cbn [graficar_desde]. rewrite color_en_mod.
    destruct (getitem t canal) as [v|e] eqn:G.
    + set (tr0 := {| xdata := tiempo; ydata := v;
                     label := Some ("Canal " ++ canal)%string;
                     color := nth (i mod 10) colores EmptyString |}).
      destruct (IH (S i) t tiempo (plot tr0 ax)) as (nuevos & Hs & Hn & Hf).
      exists (tr0 :: nuevos). split; [|split].
      * rewrite Hs. cbn [plot trazos title xlabel ylabel grid legend].
        rewrite <- app_assoc. reflexivity.
      * intros [|n] tr H.
        -- injection H as <-. exists canal. rewrite Nat.add_0_r.
           repeat split. exact G.
        -- destruct (Hn n tr H) as (c & Hc & Hx & Hy & Hl & Hcol).
           exists c. replace (i + S n)%nat with (S i + n)%nat by lia.
           repeat split; assumption.
      * destruct (fst (graficar_desde (S i) resto t tiempo (plot tr0 ax)))
          as [[]|e].
        -- cbn [length]. rewrite Hf. reflexivity.
        -- exact Hf.
    + exists []. cbn [fst snd]. rewrite app_nil_r.
      split; [destruct ax; reflexivity|].
      split; [intros [|n] tr; discriminate|].
      destruct (getitem_raise _ _ _ G) as (Hn & ->).
      exists canal. repeat split. exact Hn.
Qed.

Lemma graficar_desde_ok canales i t tiempo ax :
  (forall c, In c canales -> In c (columns t)) ->
  fst (graficar_desde i canales t tiempo ax) = Ok tt.
Proof.
  intros Hin.
  destruct (graficar_desde_spec canales i t tiempo ax) as (nuevos & _ & _ & F).
  destruct (fst (graficar_desde i canales t tiempo ax)) as [[]|e];
    [reflexivity|].
  destruct F as (canal & Hc & Hn & _). exfalso. apply Hn, Hin.
  apply (nth_error_In _ _ Hc).
Qed.

(** The axes after a drawing that meets no missing channel. *)
Lemma graficar_canales_dibujo ax t c0 cs canales :
  columns t = c0 :: cs ->
  (forall c, In c canales -> In c (columns t)) ->
  exists tiempo ax',
    getitem t c0 = Ok tiempo
    /\ graficar_canales ax t canales = (Ok tt, ax')
    /\ length (trazos ax') = length canales
    /\ (forall n canal,
          nth_error canales n = Some canal ->
          exists voltaje,
            getitem t canal = Ok voltaje
            /\ nth_error (trazos ax') n
               = Some {| xdata := tiempo; ydata := voltaje;
                         label := Some ("Canal " ++ canal)%string;
                         color := nth (n mod 10) colores EmptyString |})
    /\ title ax' = "Señales del Osciloscopio"
    /\ xlabel ax' = "Tiempo (s)" /\ ylabel ax' = "Voltaje (V)"
    /\ grid ax' = true
    /\ legend ax' = (1 <? length canales)%nat.
Proof.
  intros Hc Hin.
  destruct (getitem_In t c0) as (tiempo & Ht);
    [rewrite Hc; left; reflexivity|].
  destruct (graficar_desde_spec canales 0 t tiempo clear)
    as (nuevos & Hs & Hn & F).
  pose proof (graficar_desde_ok canales 0 t tiempo clear Hin) as Hok.
  rewrite Hok in F.
  destruct (graficar_desde 0 canales t tiempo clear) as [r ax1] eqn:E.
  cbn [fst snd] in Hs, Hok. subst r ax1.
  cbn [clear trazos title xlabel ylabel grid legend app] in E.
  exists tiempo.
  eexists. split; [exact Ht|]. split.
  { unfold graficar_canales. rewrite Hc. cbn [primera]. rewrite Ht.
    cbn [clear] in E |- *. rewrite E. reflexivity. }
  assert (T : forall b : bool,
             trazos (if b
                     then show_legend
                            (configurar_grafico
                               {| trazos := nuevos; title := EmptyString;
                                  xlabel := EmptyString;
                                  ylabel := EmptyString; grid := false;
                                  legend := false |})
                     else configurar_grafico
                            {| trazos := nuevos; title := EmptyString;
                               xlabel := EmptyString; ylabel := EmptyString;
                               grid := false; legend := false |})
             = nuevos) by (intros []; reflexivity).
  split; [rewrite T; exact F|]. split.
  { intros n canal Hcanal. rewrite T.
    assert (Hlt : (n < length nuevos)%nat).
    { rewrite F. apply nth_error_Some. rewrite Hcanal. discriminate. }
    destruct (nth_error nuevos n) as [tr|] eqn:Etr;
      [|apply nth_error_None in Etr; lia].
    destruct (Hn n tr Etr) as (c & Hc' & Hx & Hy & Hl & Hcol).
    rewrite Hcanal in Hc'. injection Hc' as <-.
    exists (ydata tr). split; [exact Hy|].
    destruct tr as [x y l co]. cbn in Hx, Hl, Hcol |- *. subst x l co.
    reflexivity. }
  destruct (1 <? length canales)%nat; repeat split; reflexivity.
Qed.

Lemma colores_distintos i j :
  (i < 10)%nat -> (j < 10)%nat ->
  nth i colores EmptyString = nth j colores EmptyString -> i = j.
Proof.
  intros Hi Hj.
  do 10 (destruct i as [|i]; [do 10 (destruct j as [|j];
                                     [cbn; congruence|]); lia|]).
  lia.
Qed.

Lemma graficar_canales_desde ax t canales :
  graficar_canales ax t canales
  = (Raise (Exn IndexError "index 0 is out of bounds for axis 0 with size 0"),
     clear)
    /\ columns t = []
  \/ (exists c0 e,
        hd_error (columns t) = Some c0 /\ getitem t c0 = Raise e
        /\ graficar_canales ax t canales = (Raise e, clear))
  \/ exists c0 tiempo nuevos,
       hd_error (columns t) = Some c0 /\ getitem t c0 = Ok tiempo
       /\ trazos (snd (graficar_canales ax t canales)) = nuevos
       /\ snd (graficar_desde 0 canales t tiempo clear)
          = {| trazos := nuevos; title := EmptyString;
               xlabel := EmptyString; ylabel := EmptyString; grid := false;
               legend := false |}
       /\ (forall e,
             fst (graficar_desde 0 canales t tiempo clear) = Raise e ->
             graficar_canales ax t canales
             = (Raise e, snd (graficar_desde 0 canales t tiempo clear)))
       /\ (fst (graficar_desde 0 canales t tiempo clear) = Ok tt ->
           fst (graficar_canales ax t canales) = Ok tt).
Proof.
  unfold graficar_canales. destruct (columns t) as [|c0 cs] eqn:Hc.
  { left. split; reflexivity. }
  right. cbn [primera]. destruct (getitem t c0) as [tiempo|e] eqn:G.
  2:{ left. exists c0, e. repeat split. exact G. }
  right.
  destruct (graficar_desde_spec canales 0 t tiempo clear)
    as (nuevos & Hs & _ & _).
  cbn [clear trazos title xlabel ylabel grid legend app] in Hs.
  exists c0, tiempo, nuevos. split; [reflexivity|]. split; [exact G|].
  destruct (graficar_desde 0 canales t tiempo clear) as [[[]|e] ax1] eqn:E;
    cbn [fst snd] in Hs |- *; subst ax1.
  - split; [destruct (1 <? length canales)%nat; reflexivity|].
    split; [reflexivity|]. split; [discriminate|reflexivity].
  - split; [reflexivity|]. split; [reflexivity|].
    split; [intros e' [= <-]; reflexivity|discriminate].
Qed.

(** X18. On a frame of numbers with distinct labels the colours cycle with
    period ten, whatever the request and whether the drawing ends or
    raises: two lines on the axes have the same colour exactly when their
    positions agree modulo ten. So up to ten channels get ten distinct
    colours and the eleventh repeats the first. *)
Theorem graficar_canales_colores ax t canales i j tri trj :
  NoDup (columns t) -> de_flotantes t ->
  nth_error (trazos (snd (graficar_canales ax t canales))) i = Some tri ->
  nth_error (trazos (snd (graficar_canales ax t canales))) j = Some trj ->
  (color tri = color trj <-> i mod 10 = j mod 10).
Proof.
  intros _ _ Hi Hj.
  assert (K : forall n tr,
             nth_error (trazos (snd (graficar_canales ax t canales))) n
             = Some tr ->
             color tr = nth (n mod 10) colores EmptyString).
  { intros n tr H.
    destruct (graficar_canales_desde ax t canales)
      as [[E _]|[(c0 & e & _ & _ & E)|(c0 & tiempo & nuevos & _ & _ & T & S & _)]].
    - rewrite E in H. destruct n; discriminate H.
    - rewrite E in H. destruct n; discriminate H.
    - rewrite T in H.
      destruct (graficar_desde_spec canales 0 t tiempo clear)
        as (nuevos' & Hs & Hn & _).
      rewrite S in Hs. injection Hs as ->.
      destruct (Hn n tr H) as (_ & _ & _ & _ & _ & Hcol). exact Hcol. }
  rewrite (K _ _ Hi), (K _ _ Hj). split.
  - apply colores_distintos; apply Nat.mod_upper_bound; lia.
  - intros ->. reflexivity.
Qed.

Lemma getitem_notin t col :
  ~ In col (columns t) -> getitem t col = Raise (Exn KeyError col).
Proof.
  intros H. unfold getitem, positions.
  rewrite (proj2 (positions_from_nil 0 (columns t) col) H). reflexivity.
Qed.

(** X19. On a frame of numbers with distinct labels, the only way
    [graficar_canales] fails is a requested channel that is no column: it
    then raises the [KeyError] of that channel, the first such channel of
    the request, after clearing the axes and drawing the channels before
    it, and before any title, axis label, grid or legend is set. *)
Theorem graficar_canales_canal_ausente ax t c0 cs canales :
  columns t = c0 :: cs -> NoDup (columns t) -> de_flotantes t ->
  (forall e,
     fst (graficar_canales ax t canales) = Raise e ->
     exists canal, In canal canales /\ ~ In canal (columns t)
                   /\ e = Exn KeyError canal)
  /\ (forall previos canal resto,
        canales = previos ++ canal :: resto ->
        (forall c, In c previos -> In c (columns t)) ->
        ~ In canal (columns t) ->
        exists nuevos,
          graficar_canales ax t canales
          = (Raise (Exn KeyError canal),
             {| trazos := nuevos; title := EmptyString;
                xlabel := EmptyString; ylabel := EmptyString; grid := false;
                legend := false |})
          /\ map label nuevos
             = map (fun c => Some ("Canal " ++ c)%string) previos).
Proof.
  intros Hc _ _.
  destruct (getitem_In t c0) as (tiempo & Ht);
    [rewrite Hc; left; reflexivity|].
  destruct (graficar_desde_spec canales 0 t tiempo clear)
    as (nuevos & Hs & Hn & F).
  cbn [clear trazos title xlabel ylabel grid legend app] in Hs.
  assert (G : graficar_canales ax t canales
              = match graficar_desde 0 canales t tiempo clear with
                | (Raise e, ax1) => (Raise e, ax1)
                | (Ok _, ax1) =>
                    (Ok tt,
                     if (1 <? length canales)%nat
                     then show_legend (configurar_grafico ax1)
                     else configurar_grafico ax1)
                end).
  { unfold graficar_canales. rewrite Hc. cbn [primera]. rewrite Ht.
    reflexivity. }
  destruct (graficar_desde 0 canales t tiempo clear) as [r ax1] eqn:E.
  cbn [fst snd] in Hs, F. subst ax1. split.
  - intros e He. rewrite G in He. destruct r as [[]|e']; [discriminate He|].
    injection He as ->. destruct F as (canal & Hcanal & Hno & ->).
    exists canal. split; [apply (nth_error_In _ _ Hcanal)|].
    split; [exact Hno|reflexivity].
  - intros previos canal resto -> Hprevios Hno. exists nuevos.
    assert (Hle : (length nuevos <= length previos)%nat).
    { destruct (Nat.le_gt_cases (length nuevos) (length previos)) as [L|L];
        [exact L|exfalso].
      destruct (nth_error nuevos (length previos)) as [tr|] eqn:Etr;
        [|apply nth_error_None in Etr; lia].
      destruct (Hn _ _ Etr) as (c & Hc' & _ & Hy & _).
      rewrite nth_error_app2, Nat.sub_diag in Hc' by lia.
      injection Hc' as <-. rewrite (getitem_notin _ _ Hno) in Hy.
      discriminate Hy. }
    destruct r as [[]|e].
    { exfalso. rewrite length_app in F. cbn [length] in F. lia. }
    destruct F as (canal' & Hcanal' & Hno' & ->).
    assert (Hlen : length nuevos = length previos).
    { destruct (Nat.eq_dec (length nuevos) (length previos)) as [L|L];
        [exact L|exfalso].
      rewrite nth_error_app1 in Hcanal' by lia.
      apply Hno', Hprevios, (nth_error_In _ _ Hcanal'). }
    rewrite Hlen, nth_error_app2, Nat.sub_diag in Hcanal' by lia.
    injection Hcanal' as <-. split; [exact G|].
    apply nth_error_ext. intros n. rewrite !nth_error_map.
    destruct (nth_error nuevos n) as [tr|] eqn:Etr.
    + destruct (Hn _ _ Etr) as (c & Hc' & _ & _ & Hl & _).
      assert (Hlt : (n < length previos)%nat).
      { rewrite <- Hlen. apply nth_error_Some. rewrite Etr. discriminate. }
      rewrite nth_error_app1 in Hc' by exact Hlt. rewrite Hc'.
      cbn [option_map]. rewrite Hl. reflexivity.
    + apply nth_error_None in Etr. rewrite Hlen in Etr.
      apply nth_error_None in Etr. rewrite Etr. reflexivity.
Qed.

(** [comparar_canales] by cases on the two channels. *)
Lemma comparar_canales_casos ax t canal1 canal2 :
  (~ In canal1 (columns t) ->
   comparar_canales ax t canal1 canal2 = (Raise (Exn KeyError canal1), clear))
  /\ (In canal1 (columns t) -> ~ In canal2 (columns t) ->
      comparar_canales ax t canal1 canal2
      = (Raise (Exn KeyError canal2), clear))
  /\ (In canal1 (columns t) -> In canal2 (columns t) ->
      exists x y,
        getitem t canal1 = Ok x /\ getitem t canal2 = Ok y
        /\ comparar_canales ax t canal1 canal2
           = (Ok tt,
              {| trazos := [{| xdata := x; ydata := y; label := None;
                               color := "#98D8C8" |}];
                 title := ("Comparación: Canal " ++ canal1
                             ++ " vs Canal " ++ canal2)%string;
                 xlabel := ("Canal " ++ canal1 ++ " (V)")%string;
                 ylabel := ("Canal " ++ canal2 ++ " (V)")%string;
                 grid := true; legend := false |})).
Proof.
  unfold comparar_canales. split; [|split].
  - intros H1. rewrite (getitem_notin _ _ H1). reflexivity.
  - intros H1 H2. destruct (getitem_In _ _ H1) as (x & ->).
    rewrite (getitem_notin _ _ H2). reflexivity.
  - intros H1 H2. destruct (getitem_In _ _ H1) as (x & Hx).
    destruct (getitem_In _ _ H2) as (y & Hy). exists x, y.
    rewrite Hx, Hy. repeat split.
Qed.

Lemma getitem_unico t k c :
  NoDup (columns t) -> nth_error (columns t) k = Some c ->
  getitem t c = Ok (Series (iloc_col t k)).
Proof.
  intros Hn Hk. unfold getitem, positions.
  rewrite (positions_from_NoDup 0 _ _ _ Hn Hk). reflexivity.
Qed.

(** X17. On a frame of numbers with distinct labels and with channels that
    are columns of it, [graficar_canales] never raises and leaves axes
    that hold exactly one line per requested channel, in the order of the
    request: the line of a channel has the first column of the table as
    abscissa and the channel's column as ordinate, is labelled
    ["Canal " ++ canal] and takes the colour at its position modulo ten in
    the palette. The axes get the fixed title and axis labels and the
    grid, and a legend exactly when more than one channel is drawn.
    Nothing of the axes passed in survives. *)
Theorem graficar_canales_trazos ax t c0 cs canales :
  columns t = c0 :: cs -> NoDup (columns t) -> de_flotantes t ->
  (forall c, In c canales -> In c (columns t)) ->
  exists ax',
    graficar_canales ax t canales = (Ok tt, ax')
    /\ length (trazos ax') = length canales
    /\ (forall n canal,
          nth_error canales n = Some canal ->
          exists k,
            nth_error (columns t) k = Some canal
            /\ nth_error (trazos ax') n
               = Some {| xdata := Series (iloc_col t 0);
                         ydata := Series (iloc_col t k);
                         label := Some ("Canal " ++ canal)%string;
                         color := nth (n mod 10) colores EmptyString |})
    /\ title ax' = "Señales del Osciloscopio"
    /\ xlabel ax' = "Tiempo (s)" /\ ylabel ax' = "Voltaje (V)"
    /\ grid ax' = true
    /\ legend ax' = (1 <? length canales)%nat.
Proof.
  intros Hc Hn _ Hin.
  destruct (graficar_canales_dibujo ax t c0 cs canales Hc Hin)
    as (tiempo & ax' & Ht & Hg & Hl & Htr & Hrest).
  assert (H0 : nth_error (columns t) 0 = Some c0) by (rewrite Hc; reflexivity).
  rewrite (getitem_unico t 0 c0 Hn H0) in Ht. injection Ht as <-.
  exists ax'. split; [exact Hg|]. split; [exact Hl|]. split; [|exact Hrest].
  intros n canal Hcanal. destruct (Htr n canal Hcanal) as (v & Hv & Hnth).
  destruct (In_nth_error _ _ (Hin canal (nth_error_In _ _ Hcanal)))
    as (k & Hk).
  exists k. split; [exact Hk|].
  rewrite (getitem_unico t k canal Hn Hk) in Hv. injection Hv as <-.
  exact Hnth.
Qed.

Lemma graficar_canales_trazos_witness :
  let t := {| columns := ["t"; "ch1"; "ch2"];
              rows := [[VNum 0; VNum 1.5; VNum 2]; [VNum 1; NaN; VNum 3]] |}
  in
  exists ax',
    graficar_canales clear t ["ch2"; "ch1"] = (Ok tt, ax')
    /\ length (trazos ax') = 2%nat
    /\ legend ax' = true.
Proof.
  intros t.
  destruct (graficar_canales_trazos clear t "t" ["ch1"; "ch2"] ["ch2"; "ch1"]
              eq_refl)
    as (ax' & H & L & _ & _ & _ & _ & _ & Hl).
  - repeat constructor; cbn; intuition discriminate.
  - repeat constructor; eexists; reflexivity.
  - cbn. intuition.
  - exists ax'. split; [exact H|]. split; [exact L|exact Hl].
Defined.

Lemma graficar_canales_colores_witness :
  let t := {| columns := ["t"; "a"; "b"; "c"; "d"; "e"; "f"; "g"; "h"; "i";
                          "j"; "k"];
              rows := [[VNum 0; VNum 1; VNum 2; VNum 3; VNum 4; VNum 5;
                        VNum 6; VNum 7; VNum 8; VNum 9; VNum 10; VNum 11]] |}
  in
  let tr k v c := {| xdata := Series [VNum 0]; ydata := Series [VNum v];
                     label := Some ("Canal " ++ k)%string; color := c |} in
  color (tr "a" 1%float "#FF6B6B") = color (tr "k" 11%float "#FF6B6B")
  <-> (0 mod 10 = 10 mod 10)%nat.
Proof.
  intros t tr.
  refine (graficar_canales_colores clear t
            ["a"; "b"; "c"; "d"; "e"; "f"; "g"; "h"; "i"; "j"; "k"] 0 10
            (tr "a" 1%float "#FF6B6B") (tr "k" 11%float "#FF6B6B")
            _ _ _ _).
  - repeat constructor; cbn; intuition discriminate.
  - repeat constructor; eexists; reflexivity.
  - reflexivity.
  - reflexivity.
Defined.

Lemma graficar_canales_canal_ausente_witness :
  let t := {| columns := ["t"; "ch1"];
              rows := [[VNum 0; VNum 1.5]; [VNum 1; NaN]] |} in
  exists nuevos,
    graficar_canales clear t ["ch1"; "ch9"; "t"]
    = (Raise (Exn KeyError "ch9"),
       {| trazos := nuevos; title := EmptyString; xlabel := EmptyString;
          ylabel := EmptyString; grid := false; legend := false |})
    /\ map label nuevos = [Some "Canal ch1"].
Proof.
  intros t.
  refine (proj2 (graficar_canales_canal_ausente clear t "t" ["ch1"]
                   ["ch1"; "ch9"; "t"] eq_refl _ _)
            ["ch1"] "ch9" ["t"] eq_refl _ _).
  - repeat constructor; cbn; intuition discriminate.
  - repeat constructor; eexists; reflexivity.
  - cbn. intros c [<-|[]]. auto.
  - cbn. intuition discriminate.
Defined.

(** X20. On a frame of numbers with distinct labels, [comparar_canales]
    raises the [KeyError] of the first of its two channels that is no
    column, and has then only cleared the axes. With two columns it draws
    one line, the column of the first channel against the column of the
    second, in the fifth colour and without a label, titles the axes with
    the two names, turns the grid on and shows no legend. *)
Theorem comparar_canales_spec ax t canal1 canal2 :
  NoDup (columns t) -> de_flotantes t ->
  (~ In canal1 (columns t) ->
   comparar_canales ax t canal1 canal2 = (Raise (Exn KeyError canal1), clear))
  /\ (In canal1 (columns t) -> ~ In canal2 (columns t) ->
      comparar_canales ax t canal1 canal2
      = (Raise (Exn KeyError canal2), clear))
  /\ (forall k1 k2,
        nth_error (columns t) k1 = Some canal1 ->
        nth_error (columns t) k2 = Some canal2 ->
        comparar_canales ax t canal1 canal2
        = (Ok tt,
           {| trazos := [{| xdata := Series (iloc_col t k1);
                            ydata := Series (iloc_col t k2);
                            label := None; color := "#98D8C8" |}];
              title := ("Comparación: Canal " ++ canal1
                          ++ " vs Canal " ++ canal2)%string;
              xlabel := ("Canal " ++ canal1 ++ " (V)")%string;
              ylabel := ("Canal " ++ canal2 ++ " (V)")%string;
              grid := true; legend := false |})).
Proof.
  intros Hn _.
  destruct (comparar_canales_casos ax t canal1 canal2) as (A & B & C).
  split; [exact A|]. split; [exact B|].
  intros k1 k2 H1 H2.
  destruct (C (nth_error_In _ _ H1) (nth_error_In _ _ H2))
    as (x & y & Hx & Hy & E).
  rewrite (getitem_unico t k1 canal1 Hn H1) in Hx. injection Hx as <-.
  rewrite (getitem_unico t k2 canal2 Hn H2) in Hy. injection Hy as <-.
  exact E.
Qed.

Lemma comparar_canales_spec_witness :
  let t := {| columns := ["t"; "ch1"];
              rows := [[VNum 0; VNum 1.5]; [VNum 1; NaN]] |} in
  comparar_canales clear t "ch3" "ch2" = (Raise (Exn KeyError "ch3"), clear).
Proof.
  intros t.
  refine (proj1 (comparar_canales_spec clear t "ch3" "ch2" _ _) _).
  - repeat constructor; cbn; intuition discriminate.
  - repeat constructor; eexists; reflexivity.
  - cbn. intuition discriminate.
Defined.

(** ** The window *)

Lemma graficar_canales_ok ax t c0 cs canales :
  columns t = c0 :: cs ->
  (forall c, In c canales -> In c (columns t)) ->
  exists nuevos,
    graficar_canales ax t canales
    = (Ok tt,
       {| trazos := nuevos; title := "Señales del Osciloscopio";
          xlabel := "Tiempo (s)"; ylabel := "Voltaje (V)"; grid := true;
          legend := (1 <? length canales)%nat |})
    /\ map label nuevos = map (fun c => Some ("Canal " ++ c)%string) canales.
Proof.
  intros Hc Hin.
  destruct (getitem_In t c0) as (tiempo & Ht);
    [rewrite Hc; left; reflexivity|].
  destruct (graficar_desde_spec canales 0 t tiempo clear)
    as (nuevos & Hs & Hn & F).
  rewrite (graficar_desde_ok canales 0 t tiempo clear Hin) in F.
  pose proof (graficar_desde_ok canales 0 t tiempo clear Hin) as Hok.
  destruct (graficar_desde 0 canales t tiempo clear) as [r ax1] eqn:E.
  cbn [fst snd] in Hs, Hok. subst r ax1.
  cbn [clear trazos title xlabel ylabel grid legend app] in E.
  exists nuevos. split.
  - unfold graficar_canales. rewrite Hc. cbn [primera]. rewrite Ht.
    cbn [clear] in E |- *. rewrite E.
    destruct (1 <? length canales)%nat; reflexivity.
  - apply nth_error_ext. intros n. rewrite !nth_error_map.
    destruct (nth_error nuevos n) as [tr|] eqn:Etr.
    + destruct (Hn _ _ Etr) as (c & Hc' & _ & _ & Hl & _).
      rewrite Hc'. cbn [option_map]. rewrite Hl. reflexivity.
    + apply nth_error_None in Etr. rewrite F in Etr.
      apply nth_error_None in Etr. rewrite Etr. reflexivity.
Qed.

Lemma seleccion_todos (cols : list string) :
  map fst (filter (fun cv : string * bool => snd cv)
                  (map (fun c => (c, true)) cols))
  = cols.
Proof.
  induction cols as [|c cols IH]; [reflexivity|].
  cbn [map filter snd fst]. rewrite IH. reflexivity.
Qed.

Lemma cargar_csv_archivo_actual ruta st :
  archivo_actual (self (snd (cargar_csv ruta st))) = Some ruta.
Proof.
  pose proof (cargar_csv_casos ruta st) as C.
  destruct (fst (detectar_lineas_encabezado ruta st)) as [k|e0];
    [|rewrite C; reflexivity].
  pose proof (analizar_estado ruta k (con_archivo ruta st)) as A.
  destruct (read_csv (fs (con_archivo ruta st)) ruta k) as [t0|e1].
  - destruct A as (t' & Hs & _).
    destruct (analizar ruta k (con_archivo ruta st)) as [[t|e1] st1];
      cbn [snd] in Hs; subst st1;
      [destruct (fst (validar_datos _))|]; rewrite C; reflexivity.
  - rewrite A in C. rewrite C. reflexivity.
Qed.

(** X21. A load that succeeds from the window leaves it showing the new
    table: the window and the handler hold the table, there is one checked
    box for every column but the first, the information label names the
    file (the text after the last slash of the path), as many channels as
    there are boxes and the number of rows, the plot button is enabled,
    the axes hold the plot of all the channels, the canvas was drawn once
    more, and exactly one dialog was added, the notice of success. No
    warning and no error is shown: the plot of a loaded table never
    fails. *)
Theorem abrir_archivo_exito archivo d g t st :
  archivo <> EmptyString ->
  cargar_csv archivo {| self := data_handler g; fs := d |} = (Ok t, st) ->
  abrir_archivo archivo d g
  = {| data_handler := {| df := Some t; archivo_actual := Some archivo |};
       gui_df := Some t;
       canal_vars := map (fun c => (c, true)) (tl (columns t));
       btn_graficar := true;
       info_label :=
         ("Archivo: " ++ last (split "/" archivo) EmptyString ++ nl ++ nl
            ++ "Canales: " ++ pretty (Z.of_nat (length (tl (columns t))))
            ++ nl ++ "Puntos: " ++ pretty (len t))%string;
       gui_ax := snd (graficar_canales clear t (tl (columns t)));
       dibujos := S (dibujos g);
       dialogos := dialogos g
                   ++ [Showinfo "Éxito" "Archivo cargado correctamente"] |}
  /\ fst (graficar_canales clear t (tl (columns t))) = Ok tt
  /\ map label (trazos (snd (graficar_canales clear t (tl (columns t)))))
     = map (fun c => Some ("Canal " ++ c)%string) (tl (columns t))
  /\ tl (columns t) <> [].
Proof.
  intros Ha H.
  destruct (cargar_csv_ok _ _ _ _ H) as (Hst & _ & _ & Hv & _).
  destruct (columns t) as [|c0 [|c1 cs]] eqn:Hc;
    try (exfalso; apply Hv; left; rewrite Hc; cbn; lia).
  assert (Hin : forall c, In c (c1 :: cs) -> In c (columns t))
    by (intros c Hin; rewrite Hc; right; exact Hin).
  destruct (graficar_canales_ok clear t c0 (c1 :: cs) (c1 :: cs) Hc Hin)
    as (nuevos & G & L).
  cbn [tl]. rewrite G. cbn [fst snd trazos].
  split; [|split; [reflexivity|split; [exact L|discriminate]]].
  unfold abrir_archivo.
  destruct (String.eqb archivo EmptyString) eqn:E;
    [apply String.eqb_eq in E; contradiction|].
  rewrite H, Hst.
  cbn [crear_checkboxes_canales gui_df self con_df con_archivo].
  rewrite Hc. cbn [tl].
  cbn [actualizar_info_archivo gui_df data_handler canal_vars btn_graficar
         info_label gui_ax dibujos dialogos].
  unfold actualizar_grafico.
  cbn [gui_df data_handler canal_vars btn_graficar info_label gui_ax dibujos
         dialogos].
  rewrite (seleccion_todos (c1 :: cs)).
  cbn [con_ax gui_ax gui_df data_handler canal_vars btn_graficar info_label
         dibujos dialogos].
  rewrite G. unfold con_dialogo.
  cbn [gui_df data_handler canal_vars btn_graficar info_label gui_ax dibujos
         dialogos].
  rewrite Hc. cbn [length].
  replace (Z.of_nat (S (S (length cs))) - 1)%Z
    with (Z.of_nat (S (length cs))) by lia.
  reflexivity.
Qed.

Lemma abrir_archivo_exito_witness :
  let d : gmap string file :=
    {[ "datos/osc.csv" := text ["t,ch1,ch2"; "0.5,1.5,2"; "1.0,2.5,3"] ]} in
  let g := abrir_archivo "datos/osc.csv" d gui_inicial in
  canal_vars g = [("ch1", true); ("ch2", true)]
  /\ btn_graficar g = true
  /\ info_label g
     = ("Archivo: osc.csv" ++ nl ++ nl ++ "Canales: 2" ++ nl ++ "Puntos: 2")
         %string
  /\ dibujos g = 2%nat
  /\ dialogos g = [Showinfo "Éxito" "Archivo cargado correctamente"].
Proof.
  intros d g.
  pose (t := {| columns := ["t"; "ch1"; "ch2"];
                rows := [[VNum 0.5; VNum 1.5; VNum 2];
                         [VNum 1; VNum 2.5; VNum 3]] |}).
  destruct (abrir_archivo_exito "datos/osc.csv" d gui_inicial t
              (snd (cargar_csv "datos/osc.csv"
                      {| self := data_handler gui_inicial; fs := d |})))
    as (E & _).
  - discriminate.
  - vm_compute. reflexivity.
  - subst g. rewrite E. repeat split.
Defined.

(** X22. A load that fails from the window changes nothing the window
    shows: its table, the check boxes, the plot button, the information
    label, the axes and the number of drawings are as before, so that the
    plot button still draws the previous table. Exactly one dialog is
    added, an error whose text is the fixed prefix, a line break and the
    text of the exception. The handler, though, has recorded the new path.
    A cancelled dialog (the empty path) changes nothing at all. *)
Theorem abrir_archivo_fallo archivo d g e st :
  cargar_csv archivo {| self := data_handler g; fs := d |} = (Raise e, st) ->
  abrir_archivo EmptyString d g = g
  /\ (archivo <> EmptyString ->
      abrir_archivo archivo d g
      = {| data_handler := self st; gui_df := gui_df g;
           canal_vars := canal_vars g; btn_graficar := btn_graficar g;
           info_label := info_label g; gui_ax := gui_ax g;
           dibujos := dibujos g;
           dialogos :=
             dialogos g
             ++ [Showerror "Error"
                   ("No se pudo cargar el archivo:" ++ nl ++ str e)%string] |}
      /\ archivo_actual (self st) = Some archivo
      /\ fst (actualizar_grafico (abrir_archivo archivo d g))
         = fst (actualizar_grafico g)
      /\ gui_ax (snd (actualizar_grafico (abrir_archivo archivo d g)))
         = gui_ax (snd (actualizar_grafico g))).
Proof.
  intros H. split; [reflexivity|]. intros Ha.
  assert (E : abrir_archivo archivo d g
              = {| data_handler := self st; gui_df := gui_df g;
                   canal_vars := canal_vars g;
                   btn_graficar := btn_graficar g;
                   info_label := info_label g; gui_ax := gui_ax g;
                   dibujos := dibujos g;
                   dialogos :=
                     dialogos g
                     ++ [Showerror "Error"
                           ("No se pudo cargar el archivo:" ++ nl ++ str e)
                           %string] |}).
  { unfold abrir_archivo.
    destruct (String.eqb archivo EmptyString) eqn:E;
      [apply String.eqb_eq in E; contradiction|].
    rewrite H. reflexivity. }
  split; [exact E|]. split.
  - pose proof (cargar_csv_archivo_actual archivo
                  {| self := data_handler g; fs := d |}) as A.
    rewrite H in A. exact A.
  - rewrite E. unfold actualizar_grafico.
    cbn [gui_df canal_vars]. destruct (gui_df g) as [t|]; [|split; reflexivity].
    destruct (map fst (filter _ (canal_vars g))) as [|c cs];
      [split; reflexivity|].
    unfold con_ax. cbn [gui_ax gui_df data_handler canal_vars btn_graficar
                          info_label dibujos dialogos].
    destruct (graficar_canales clear t (c :: cs)) as [[[]|e'] ax'];
      split; reflexivity.
Qed.

Lemma abrir_archivo_fallo_witness :
  let g := abrir_archivo "no.csv" ∅ gui_inicial in
  gui_df g = None /\ btn_graficar g = false
  /\ info_label g = "No hay archivo cargado"
  /\ dialogos g
     = [Showerror "Error"
          ("No se pudo cargar el archivo:" ++ nl
             ++ "[Errno 2] No such file or directory: 'no.csv'")%string]
  /\ archivo_actual (data_handler g) = Some "no.csv".
Proof.
  intros g.
  destruct (abrir_archivo_fallo "no.csv" ∅ gui_inicial
              (Exn FileNotFoundError
                 "[Errno 2] No such file or directory: 'no.csv'")
              (snd (cargar_csv "no.csv"
                      {| self := data_handler gui_inicial; fs := ∅ |})))
    as (_ & R).
  - vm_compute. reflexivity.
  - destruct (R ltac:(discriminate)) as (E & _).
    subst g. rewrite E. repeat split.
Defined.

(** X23. The plot button draws what is checked. With a table of numbers
    with distinct labels, of which the boxes name columns,
    [actualizar_grafico] with no box checked only shows a warning, and
    with a box checked it never raises, shows no dialog, draws the canvas
    once more and leaves on the axes one line per checked channel, in the
    order of the boxes, with a legend exactly when more than one is
    checked; boxes left unchecked are not drawn. Without a table it does
    nothing. *)
Theorem actualizar_grafico_seleccion g t c0 cs :
  gui_df g = Some t -> columns t = c0 :: cs ->
  NoDup (columns t) -> de_flotantes t ->
  (forall cv, In cv (canal_vars g) -> In (fst cv) (columns t)) ->
  let sel := map fst (filter (fun cv => snd cv) (canal_vars g)) in
  (sel = [] ->
   actualizar_grafico g
   = (None,
      con_dialogo (Showwarning "Advertencia" "Selecciona al menos un canal")
        g))
  /\ (sel <> [] ->
      exists nuevos,
        actualizar_grafico g
        = (None,
           {| data_handler := data_handler g; gui_df := gui_df g;
              canal_vars := canal_vars g; btn_graficar := btn_graficar g;
              info_label := info_label g;
              gui_ax :=
                {| trazos := nuevos; title := "Señales del Osciloscopio";
                   xlabel := "Tiempo (s)"; ylabel := "Voltaje (V)";
                   grid := true; legend := (1 <? length sel)%nat |};
              dibujos := S (dibujos g); dialogos := dialogos g |})
        /\ map label nuevos
           = map (fun c => Some ("Canal " ++ c)%string) sel)
  /\ actualizar_grafico
       {| data_handler := data_handler g; gui_df := None;
          canal_vars := canal_vars g; btn_graficar := btn_graficar g;
          info_label := info_label g; gui_ax := gui_ax g;
          dibujos := dibujos g; dialogos := dialogos g |}
     = (None,
        {| data_handler := data_handler g; gui_df := None;
           canal_vars := canal_vars g; btn_graficar := btn_graficar g;
           info_label := info_label g; gui_ax := gui_ax g;
           dibujos := dibujos g; dialogos := dialogos g |}).
Proof.
  intros Hdf Hc _ _ Hin sel. split; [|split; [|reflexivity]].
  - intros E. unfold actualizar_grafico. rewrite Hdf. fold sel. rewrite E.
    reflexivity.
  - intros Hne.
    assert (Hsel : forall c, In c sel -> In c (columns t)).
    { intros c Hc'. subst sel. apply in_map_iff in Hc' as (cv & <- & Hcv).
      apply filter_In in Hcv as [Hcv _]. apply Hin, Hcv. }
    destruct (graficar_canales_ok clear t c0 cs sel Hc Hsel)
      as (nuevos & G & L).
    exists nuevos. split; [|exact L].
    unfold actualizar_grafico. rewrite Hdf. fold sel.
    destruct sel as [|c sel'] eqn:Es; [congruence|].
    unfold con_ax. cbn [gui_ax gui_df data_handler canal_vars btn_graficar
                          info_label dibujos dialogos].
    rewrite G, ?Hdf. reflexivity.
Qed.

Lemma actualizar_grafico_seleccion_witness :
  let t := {| columns := ["t"; "ch1"; "ch2"];
              rows := [[VNum 0.5; VNum 1.5; VNum 2]] |} in
  let g := {| data_handler := __init__; gui_df := Some t;
              canal_vars := [("ch1", false); ("ch2", true)];
              btn_graficar := true; info_label := EmptyString;
              gui_ax := clear; dibujos := 1; dialogos := [] |} in
  exists nuevos,
    gui_ax (snd (actualizar_grafico g))
    = {| trazos := nuevos; title := "Señales del Osciloscopio";
         xlabel := "Tiempo (s)"; ylabel := "Voltaje (V)";
         grid := true; legend := false |}
    /\ map label nuevos = [Some "Canal ch2"].
Proof.
  intros t g.
  destruct (proj1 (proj2 (actualizar_grafico_seleccion g t "t" ["ch1"; "ch2"]
                            eq_refl eq_refl
                            ltac:(repeat constructor; cbn;
                                  intuition discriminate)
                            ltac:(repeat constructor; eexists; reflexivity)
                            ltac:(cbn; intros cv [<-|[<-|[]]]; cbn; auto)))
              ltac:(discriminate))
    as (nuevos & E & L).
  exists nuevos. rewrite E. split; [reflexivity|exact L].
Defined.
